(** * Financial application chatbot: back-end agent, validators and handlers

    A shallow embedding of the persisted-session back end
    ([back-end/src/lib/validators.js], [back-end/src/lib/agent.js],
    [back-end/src/lib/dynamodb.js] and the handlers under
    [back-end/src/handlers/]) together with the properties stated about it.

    Conventions.
    - A JavaScript string is a [string]: strings are taken over the code
      units below 256 (Latin-1), and character classes such as [\s] are
      cut down to that range.
    - A JavaScript object whose keys are enumerated ([Object.entries],
      [Object.keys], [Object.values]) is an association list in insertion
      order; an assignment to an existing key keeps its position.
    - The DynamoDB table is a finite map from the partition key
      [sessionId] to the stored item.
    - Time values are integers: milliseconds since the epoch, as in
      ECMAScript.  All the dates built here lie far inside the range of
      time values, so [TimeClip] never applies.
    - The one floating-point expression of the agent, the completion
      percentage, is computed on binary64 numbers. *)

From Stdlib Require Import ZArith Lia List String Ascii Bool Floats Uint63.
From stdpp Require Import base strings gmap.
Import ListNotations.

Open Scope string_scope.
Open Scope Z_scope.

(** ** Characters and strings *)

Module JsString.

Definition code (c : ascii) : nat := nat_of_ascii c.

Definition in_range (lo hi c : ascii) : bool :=
  (code lo <=? code c)%nat && (code c <=? code hi)%nat.

(** [\d] *)
Definition is_digit (c : ascii) : bool := in_range "0" "9" c.

(** [\s] and the characters removed by [String.prototype.trim]:
    TAB, LF, VT, FF, CR, SPACE and NBSP (the members below 256). *)
Definition is_space (c : ascii) : bool :=
  let n := code c in
  ((9 <=? n)%nat && (n <=? 13)%nat) || (n =? 32)%nat || (n =? 160)%nat.

(** [a-zA-Z] *)
Definition is_letter (c : ascii) : bool :=
  in_range "a" "z" c || in_range "A" "Z" c.

Definition chars (s : string) : list ascii := list_ascii_of_string s.
Definition of_chars (l : list ascii) : string := string_of_list_ascii l.

Fixpoint drop_while (p : ascii -> bool) (l : list ascii) : list ascii :=
  match l with
  | [] => []
  | c :: l' => if p c then drop_while p l' else l
  end.

Fixpoint take_while (p : ascii -> bool) (l : list ascii) : list ascii :=
  match l with
  | [] => []
  | c :: l' => if p c then c :: take_while p l' else []
  end.

(** [s.trim()] *)
Definition trim (s : string) : string :=
  of_chars (rev (drop_while is_space (rev (drop_while is_space (chars s))))).

Fixpoint is_prefix (p l : list ascii) : bool :=
  match p, l with
  | [], _ => true
  | _ :: _, [] => false
  | a :: p', b :: l' => Ascii.eqb a b && is_prefix p' l'
  end.

Fixpoint has_infix (p l : list ascii) : bool :=
  is_prefix p l ||
  match l with
  | [] => false
  | _ :: l' => has_infix p l'
  end.

(** [s.includes(p)] *)
Definition includes (p s : string) : bool := has_infix (chars p) (chars s).

(** [s.split(sep)] for a one-character separator. *)
Fixpoint split_chars (sep : ascii) (l : list ascii) : list (list ascii) :=
  match l with
  | [] => [[]]
  | c :: l' =>
      if Ascii.eqb c sep then [] :: split_chars sep l'
      else match split_chars sep l' with
           | [] => [[c]]
           | w :: ws => (c :: w) :: ws
           end
  end.

Definition split (sep : ascii) (s : string) : list string :=
  map of_chars (split_chars sep (chars s)).

(** [l.join(sep)] *)
Fixpoint join (sep : string) (l : list string) : string :=
  match l with
  | [] => ""
  | [s] => s
  | s :: l' => s ++ sep ++ join sep l'
  end.

(** [s.replace(/[class]/g, '')] *)
Definition remove_all (p : ascii -> bool) (s : string) : string :=
  of_chars (List.filter (fun c => negb (p c)) (chars s)).

(** [s.match(/\d+/)]: the leftmost, longest run of digits, [None] when
    the string holds no digit. *)
Definition match_digits (s : string) : option string :=
  match drop_while (fun c => negb (is_digit c)) (chars s) with
  | [] => None
  | l => Some (of_chars (take_while is_digit l))
  end.

Definition digit_value (c : ascii) : Z := Z.of_nat (code c) - 48.

(** [Number(s)] for a string of decimal digits. *)
Definition number_of_digits (s : string) : Z :=
  fold_left (fun acc c => 10 * acc + digit_value c) (chars s) 0.

(** [s.substring(i, i + n)] *)
Definition slice (i n : nat) (s : string) : string := String.substring i n s.

End JsString.

(** ** Regular expressions

    The patterns of the source are all of the shape [/^r$/]; they are
    written as terms and decided by Brzozowski derivatives. *)

Module Regex.

Inductive regex : Type :=
| RNone
| REps
| RChr (p : ascii -> bool)
| RCat (r1 r2 : regex)
| RAlt (r1 r2 : regex)
| RStar (r : regex).

Fixpoint nullable (r : regex) : bool :=
  match r with
  | RNone => false
  | REps => true
  | RChr _ => false
  | RCat r1 r2 => nullable r1 && nullable r2
  | RAlt r1 r2 => nullable r1 || nullable r2
  | RStar _ => true
  end.

Fixpoint deriv (c : ascii) (r : regex) : regex :=
  match r with
  | RNone => RNone
  | REps => RNone
  | RChr p => if p c then REps else RNone
  | RCat r1 r2 =>
      if nullable r1 then RAlt (RCat (deriv c r1) r2) (deriv c r2)
      else RCat (deriv c r1) r2
  | RAlt r1 r2 => RAlt (deriv c r1) (deriv c r2)
  | RStar r1 => RCat (deriv c r1) (RStar r1)
  end.

Fixpoint matches (r : regex) (l : list ascii) : bool :=
  match l with
  | [] => nullable r
  | c :: l' => matches (deriv c r) l'
  end.

(** [/^r$/.test(s)] *)
Definition test (r : regex) (s : string) : bool :=
  matches r (JsString.chars s).

Definition lit (c : ascii) : regex := RChr (Ascii.eqb c).

(** [r+] *)
Definition plus (r : regex) : regex := RCat r (RStar r).

(** [r{n}] *)
Fixpoint times (n : nat) (r : regex) : regex :=
  match n with
  | O => REps
  | S n' => RCat r (times n' r)
  end.

(** [r{n,}] *)
Definition at_least (n : nat) (r : regex) : regex := RCat (times n r) (RStar r).

(** [r{1,2}] *)
Definition one_or_two (r : regex) : regex := RCat r (RAlt REps r).

Definition digit : regex := RChr JsString.is_digit.

End Regex.

(** ** Validators ([back-end/src/lib/validators.js]) *)

Module Validators.
Import JsString Regex.

(** [[^\s@]] *)
Definition not_space_at (c : ascii) : bool :=
  negb (is_space c || Ascii.eqb c "@").

(** [/^[^\s@]+@[^\s@]+\.[^\s@]+$/] *)
Definition emailRegex : regex :=
  RCat (plus (RChr not_space_at))
    (RCat (lit "@")
       (RCat (plus (RChr not_space_at))
          (RCat (lit ".") (plus (RChr not_space_at))))).

Definition isValidEmail (email : string) : bool := test emailRegex email.

(** [[a-zA-Z\s\-']] *)
Definition name_char (c : ascii) : bool :=
  is_letter c || is_space c || Ascii.eqb c "-" || Ascii.eqb c "'".

(** [/^[a-zA-Z\s\-']{2,}$/] *)
Definition nameRegex : regex := at_least 2 (RChr name_char).

Definition isValidName (name : string) : bool :=
  if String.eqb name "" then false
  else test nameRegex (trim name).

(** [[\s\-\+\(\)]] *)
Definition phone_formatting (c : ascii) : bool :=
  is_space c || Ascii.eqb c "-" || Ascii.eqb c "+"
  || Ascii.eqb c "(" || Ascii.eqb c ")".

Definition isValidPhoneNumber (phone : string) : bool :=
  let cleaned := remove_all phone_formatting phone in
  test (at_least 10 digit) cleaned.

End Validators.

(** ** JSON values, as [JSON.parse] returns them *)

Module Json.
Import JsString.

Set Warnings "-register-all".

(** A number is carried as its rendering by [String()]; the source
    uses extracted values through [String(value)] only. *)
Inductive json : Type :=
| JNull
| JBool (b : bool)
| JNum (repr : string)
| JStr (s : string)
| JArr (items : list json)
| JObj (entries : list (string * json)).

Set Warnings "+register-all".

(** [String(value)] *)
Fixpoint to_String (j : json) : string :=
  match j with
  | JNull => "null"
  | JBool true => "true"
  | JBool false => "false"
  | JNum repr => repr
  | JStr s => s
  | JArr items =>
      join "," (map (fun v => match v with
                              | JNull => ""
                              | _ => to_String v
                              end) items)
  | JObj _ => "[object Object]"
  end.

Definition digit_char (n : nat) : ascii := ascii_of_nat (48 + n).

Fixpoint decimal_digits (fuel n : nat) (acc : list ascii) : list ascii :=
  match fuel with
  | O => acc
  | S fuel' =>
      let acc' := digit_char (n mod 10) :: acc in
      if (n <? 10)%nat then acc' else decimal_digits fuel' (n / 10) acc'
  end.

(** The property key of array index [n]. *)
Definition index_key (n : nat) : string := of_chars (decimal_digits (S n) n []).

Fixpoint indexed {A : Type} (n : nat) (l : list A) : list (string * A) :=
  match l with
  | [] => []
  | x :: l' => (index_key n, x) :: indexed (S n) l'
  end.

(** [Object.entries(value)]; [None] is the [TypeError] raised on
    [null]. *)
Definition Object_entries (j : json) : option (list (string * json)) :=
  match j with
  | JNull => None
  | JBool _ => Some []
  | JNum _ => Some []
  | JStr s => Some (indexed 0 (map (fun c => JStr (String c "")) (chars s)))
  | JArr items => Some (indexed 0 items)
  | JObj entries => Some entries
  end.

End Json.

(** ** What the host fixes *)

Module Host.

(** The offset of local time from UTC in milliseconds (taken constant);
    [new Date(string)] on strings outside the ISO format, which
    ECMAScript leaves to the engine ([None] is an invalid date); and
    [JSON.parse] ([None] is a [SyntaxError]). *)
Record host : Type := MkHost {
  LocalTZA : Z;
  Date_parse_legacy : string -> option Z;
  JSON_parse : string -> option Json.json
}.

End Host.

(** ** Dates ([Date] of ECMAScript, as far as the validators use it) *)

Module JsDate.
Import JsString Host.

Definition msPerDay : Z := 86400000.

Definition Day (t : Z) : Z := t / msPerDay.
Definition TimeWithinDay (t : Z) : Z := t mod msPerDay.

Definition InLeapYear (y : Z) : bool :=
  ((y mod 4 =? 0) && negb (y mod 100 =? 0)) || (y mod 400 =? 0).

(** Day number of 1 January of year [y]. *)
Definition DayFromYear (y : Z) : Z :=
  365 * (y - 1970) + (y - 1969) / 4 - (y - 1901) / 100 + (y - 1601) / 400.

(** The year a day number falls in: an estimate from the mean length of
    a year, corrected by at most one. *)
Definition YearFromDay (d : Z) : Z :=
  let y := 1970 + (400 * d) / 146097 in
  if DayFromYear (y + 1) <=? d then y + 1
  else if d <? DayFromYear y then y - 1
  else y.

(** Days of the year before month [m] (0 = January). *)
Definition DaysBeforeMonth (leap : bool) (m : Z) : Z :=
  let l := if leap then 1 else 0 in
  match m with
  | 0 => 0
  | 1 => 31
  | 2 => 59 + l
  | 3 => 90 + l
  | 4 => 120 + l
  | 5 => 151 + l
  | 6 => 181 + l
  | 7 => 212 + l
  | 8 => 243 + l
  | 9 => 273 + l
  | 10 => 304 + l
  | 11 => 334 + l
  | _ => 365 + l
  end.

Definition DayWithinYear (d : Z) : Z := d - DayFromYear (YearFromDay d).

Fixpoint month_search (leap : bool) (n : Z) (fuel : nat) (m : Z) : Z :=
  match fuel with
  | O => m
  | S fuel' =>
      if n <? DaysBeforeMonth leap (m + 1) then m
      else month_search leap n fuel' (m + 1)
  end.

Definition MonthFromDay (d : Z) : Z :=
  month_search (InLeapYear (YearFromDay d)) (DayWithinYear d) 11 0.

Definition DateFromDay (d : Z) : Z :=
  DayWithinYear d
  - DaysBeforeMonth (InLeapYear (YearFromDay d)) (MonthFromDay d) + 1.

Definition YearFromTime (t : Z) : Z := YearFromDay (Day t).
Definition MonthFromTime (t : Z) : Z := MonthFromDay (Day t).
Definition DateFromTime (t : Z) : Z := DateFromDay (Day t).

(** [MakeDay(year, month, date)]: months and dates out of range carry
    over into the neighbouring years and months. *)
Definition MakeDay (year month date : Z) : Z :=
  let ym := year + month / 12 in
  let mn := month mod 12 in
  DayFromYear ym + DaysBeforeMonth (InLeapYear ym) mn + date - 1.

Definition MakeDate (day time : Z) : Z := day * msPerDay + time.

(** A [Date] object: its time value, [None] for an invalid date. *)
Definition date : Type := option Z.

(** [new Date("YYYY-MM-DD")] on a string of that shape: a date-only
    form is UTC.  The engine of the deployed runtime (Node.js) accepts a
    month in 1..12 and a day in 1..31 and lets the day carry over. *)
Definition Date_of_iso (s : string) : date :=
  let y := number_of_digits (slice 0 4 s) in
  let m := number_of_digits (slice 5 2 s) in
  let d := number_of_digits (slice 8 2 s) in
  if (1 <=? m) && (m <=? 12) && (1 <=? d) && (d <=? 31)
  then Some (MakeDate (MakeDay y (m - 1) d) 0)
  else None.

(** [new Date(year, month, day)]: local time; a year in 0..99 means
    1900 + year. *)
Definition Date_of_fields (h : host) (year month day : Z) : date :=
  let yr := if (0 <=? year) && (year <=? 99) then 1900 + year else year in
  Some (MakeDate (MakeDay yr month day) 0 - LocalTZA h).

(** [const d = new Date(); d.setHours(0, 0, 0, 0)] *)
Definition start_of_today (h : host) (now : Z) : Z :=
  MakeDate (Day (now + LocalTZA h)) 0 - LocalTZA h.

(** [const d = new Date(); d.setFullYear(d.getFullYear() - n)] *)
Definition years_ago (h : host) (n : Z) (now : Z) : Z :=
  let t := now + LocalTZA h in
  MakeDate (MakeDay (YearFromTime t - n) (MonthFromTime t) (DateFromTime t))
           (TimeWithinDay t)
  - LocalTZA h.

End JsDate.

Module DateValidator.
Import JsString Regex Host JsDate.

(** [/^\d{4}-\d{2}-\d{2}$/] *)
Definition isoRegex : regex :=
  RCat (times 4 digit) (RCat (lit "-") (RCat (times 2 digit)
    (RCat (lit "-") (times 2 digit)))).

(** [/^\d{1,2}\/\d{1,2}\/\d{4}$/] *)
Definition slashRegex : regex :=
  RCat (one_or_two digit) (RCat (lit "/") (RCat (one_or_two digit)
    (RCat (lit "/") (times 4 digit)))).

(** [/^\d{1,2}-\d{1,2}-\d{4}$/] *)
Definition dashRegex : regex :=
  RCat (one_or_two digit) (RCat (lit "-") (RCat (one_or_two digit)
    (RCat (lit "-") (times 4 digit)))).

(** [const [day, month, year] = dateString.split(sep);
     date = new Date(year, month - 1, day)] *)
Definition Date_of_day_month_year (h : host) (sep : ascii) (s : string) : date :=
  match split sep s with
  | day :: month :: year :: _ =>
      Date_of_fields h (number_of_digits year)
                     (number_of_digits month - 1)
                     (number_of_digits day)
  | _ => None
  end.

(** The checks after the date has been built (lines 41-60). *)
Definition check_date (h : host) (now : Z) (d : date) : bool :=
  match d with
  | None => false
  | Some t =>
      if start_of_today h now <=? t then false
      else if years_ago h 18 now <? t then false
      else true
  end.

(** [Validators.isValidDateOfBirth]; [now] is the instant read by
    [new Date()]. *)
Definition isValidDateOfBirth (h : host) (now : Z) (dateString : string) : bool :=
  if test isoRegex dateString then
    check_date h now (Date_of_iso dateString)
  else if test slashRegex dateString then
    check_date h now (Date_of_day_month_year h "/" dateString)
  else if test dashRegex dateString then
    check_date h now (Date_of_day_month_year h "-" dateString)
  else if test slashRegex dateString then
    check_date h now (Date_parse_legacy h dateString)
  else false.

(** The same function with the [MM/DD/YYYY] branch (lines 34-36)
    taken out. *)
Definition isValidDateOfBirth_without_mmdd
    (h : host) (now : Z) (dateString : string) : bool :=
  if test isoRegex dateString then
    check_date h now (Date_of_iso dateString)
  else if test slashRegex dateString then
    check_date h now (Date_of_day_month_year h "/" dateString)
  else if test dashRegex dateString then
    check_date h now (Date_of_day_month_year h "-" dateString)
  else false.

End DateValidator.

(** ** The agent ([back-end/src/lib/agent.js]) *)

Module Agent.
Import JsString Json Host Validators DateValidator.

(** What a field of [collectedData] holds. *)
Inductive value : Type :=
| VNull
| VBool (b : bool)
| VStr (s : string).

(** One section of [collectedData]: field names and values in the
    order of the object literal. *)
Definition object : Type := list (string * value).

(** [o[k]]; [None] is [undefined]. *)
Fixpoint obj_get (k : string) (o : object) : option value :=
  match o with
  | [] => None
  | (k', v) :: o' => if String.eqb k k' then Some v else obj_get k o'
  end.

(** [o[k] = v] *)
Fixpoint obj_set (k : string) (v : value) (o : object) : object :=
  match o with
  | [] => [(k, v)]
  | (k', v') :: o' =>
      if String.eqb k k' then (k', v) :: o' else (k', v') :: obj_set k v o'
  end.

Definition Object_keys (o : object) : list string := map fst o.
Definition Object_values (o : object) : list value := map snd o.

(** [o.hasOwnProperty(k)] *)
Definition hasOwnProperty (k : string) (o : object) : bool :=
  match obj_get k o with
  | Some _ => true
  | None => false
  end.

(** [x !== null] *)
Definition not_null (x : option value) : bool :=
  match x with
  | Some VNull => false
  | _ => true
  end.

(** [x === true] *)
Definition is_true (x : option value) : bool :=
  match x with
  | Some (VBool true) => true
  | _ => false
  end.

Inductive section_name : Type :=
| personal
| educational
| professional
| family.

Definition section_eqb (a b : section_name) : bool :=
  match a, b with
  | personal, personal => true
  | educational, educational => true
  | professional, professional => true
  | family, family => true
  | _, _ => false
  end.

Record collected : Type := Collected {
  personal_data : object;
  educational_data : object;
  professional_data : object;
  family_data : object
}.

(** [collectedData[section]] *)
Definition section_data (s : section_name) (cd : collected) : object :=
  match s with
  | personal => personal_data cd
  | educational => educational_data cd
  | professional => professional_data cd
  | family => family_data cd
  end.

(** The section object is shared with [collectedData]: writing to it
    writes [collectedData[section]]. *)
Definition with_section_data (s : section_name) (o : object) (cd : collected)
  : collected :=
  match s with
  | personal =>
      Collected o (educational_data cd) (professional_data cd) (family_data cd)
  | educational =>
      Collected (personal_data cd) o (professional_data cd) (family_data cd)
  | professional =>
      Collected (personal_data cd) (educational_data cd) o (family_data cd)
  | family =>
      Collected (personal_data cd) (educational_data cd) (professional_data cd) o
  end.

Record agent : Type := MkAgent {
  collectedData : collected;
  currentSection : section_name;
  createdAt : option Z
}.

Definition initial_collectedData : collected :=
  Collected
    [ ("firstName", VNull); ("middleName", VNull); ("lastName", VNull);
      ("email", VNull); ("emailConfirmed", VBool false);
      ("phoneNumber", VNull); ("dateOfBirth", VNull);
      ("dobConfirmed", VBool false); ("nationality", VNull) ]
    [ ("highestQualification", VNull); ("university", VNull);
      ("fieldOfStudy", VNull); ("graduationYear", VNull) ]
    [ ("currentDesignation", VNull); ("company", VNull);
      ("yearsOfExperience", VNull); ("annualIncome", VNull);
      ("employmentType", VNull) ]
    [ ("maritalStatus", VNull); ("dependents", VNull);
      ("spouseName", VNull); ("emergencyContact", VNull) ].

(** [new FinancialApplicationAgent()]; [now] is [Date.now()]. *)
Definition new_agent (now : Z) : agent :=
  MkAgent initial_collectedData personal (Some now).

(** [new FinancialApplicationAgent(initialData)] *)
Definition restored_agent (cd : collected) (s : section_name) (created : option Z)
  : agent :=
  MkAgent cd s created.

Definition current_data (a : agent) : object :=
  section_data (currentSection a) (collectedData a).

Definition with_current_data (o : object) (a : agent) : agent :=
  MkAgent (with_section_data (currentSection a) o (collectedData a))
          (currentSection a) (createdAt a).

Definition isCurrentSectionComplete (a : agent) : bool :=
  let sectionData := current_data a in
  if section_eqb (currentSection a) personal then
    not_null (obj_get "firstName" sectionData)
    && not_null (obj_get "lastName" sectionData)
    && not_null (obj_get "email" sectionData)
    && is_true (obj_get "emailConfirmed" sectionData)
    && not_null (obj_get "phoneNumber" sectionData)
    && not_null (obj_get "dateOfBirth" sectionData)
    && is_true (obj_get "dobConfirmed" sectionData)
    && not_null (obj_get "nationality" sectionData)
  else
    forallb (fun '(key, value) =>
               if includes "Confirmed" key then true
               else not_null (Some value))
            sectionData.

Definition getMissingFields (a : agent) : list string :=
  let sectionData := current_data a in
  List.filter (fun key => negb (not_null (obj_get key sectionData)))
         (Object_keys sectionData).

Definition sections : list section_name :=
  [personal; educational; professional; family].

(** [l.indexOf(x)], [-1] when absent. *)
Fixpoint indexOf (x : section_name) (l : list section_name) : Z :=
  match l with
  | [] => -1
  | y :: l' =>
      if section_eqb x y then 0
      else let i := indexOf x l' in if i <? 0 then -1 else i + 1
  end.

(** Returns the value of the call and the agent after it. *)
Definition moveToNextSection (a : agent) : bool * agent :=
  let currentIndex := indexOf (currentSection a) sections in
  if currentIndex <? Z.of_nat (length sections) - 1 then
    (true,
     MkAgent (collectedData a)
             (nth (Z.to_nat (currentIndex + 1)) sections (currentSection a))
             (createdAt a))
  else (false, a).

(** [isNaN(s)] on a string without a decimal digit: such a string
    converts to a number only when it is blank (0) or spells
    [Infinity], with or without a sign. *)
Definition isNaN_without_digits (s : string) : bool :=
  let t := trim s in
  negb (String.eqb t "" || String.eqb t "Infinity"
        || String.eqb t "+Infinity" || String.eqb t "-Infinity").

(** The body of the [forEach] callback (lines 340-405) on one entry. *)
Definition store_entry (h : host) (now : Z)
    (sectionData : object) (entry : string * json) : object :=
  let '(key, raw) := entry in
  match raw with
  | JNull => sectionData
  | _ =>
      if negb (hasOwnProperty key sectionData) then sectionData
      else if not_null (obj_get key sectionData) then sectionData
      else
        let value := trim (to_String raw) in
        if String.eqb key "email" then
          if isValidEmail value
          then obj_set "emailConfirmed" (VBool true)
                       (obj_set key (VStr value) sectionData)
          else sectionData
        else if String.eqb key "phoneNumber" then
          if isValidPhoneNumber value
          then obj_set key (VStr value) sectionData
          else sectionData
        else if String.eqb key "dateOfBirth" then
          if isValidDateOfBirth h now value
          then obj_set "dobConfirmed" (VBool true)
                       (obj_set key (VStr value) sectionData)
          else sectionData
        else if String.eqb key "firstName" || String.eqb key "lastName"
                || String.eqb key "middleName" || String.eqb key "spouseName" then
          if isValidName value
          then obj_set key (VStr value) sectionData
          else sectionData
        else if String.eqb key "emergencyContact" then
          if (3 <=? String.length value)%nat
          then obj_set key (VStr value) sectionData
          else sectionData
        else if String.eqb key "yearsOfExperience" then
          match match_digits value with
          | Some numMatch => obj_set key (VStr numMatch) sectionData
          | None =>
              if negb (isNaN_without_digits value)
              then obj_set key (VStr value) sectionData
              else sectionData
          end
        else
          if (0 <? String.length value)%nat
          then obj_set key (VStr value) sectionData
          else sectionData
  end.

Inductive error : Type :=
| TypeError
| SyntaxError
| UpstreamError.

(** A call either returns or throws.  Every throw below happens before
    the first assignment to the agent, so a thrown call leaves the
    agent as it was. *)
Inductive result (A : Type) : Type :=
| Ok (x : A)
| Throw (e : error).
Arguments Ok {A} x.
Arguments Throw {A} e.

Definition bind {A B : Type} (r : result A) (k : A -> result B) : result B :=
  match r with
  | Ok x => k x
  | Throw e => Throw e
  end.

(** [try { body } catch (error) { handler }] *)
Definition try_catch {A : Type} (body : result A) (handler : error -> result A)
  : result A :=
  match body with
  | Ok x => Ok x
  | Throw e => handler e
  end.

Definition of_option {A : Type} (e : error) (o : option A) : result A :=
  match o with
  | Some x => Ok x
  | None => Throw e
  end.

Notation "x <- c ;; k" := (bind c (fun x => k))
  (at level 100, c at next level, right associativity).

Definition validateAndStoreExtractedData (h : host) (now : Z)
    (extractedData : json) (a : agent) : result agent :=
  entries <- of_option TypeError (Object_entries extractedData) ;;
  Ok (with_current_data (fold_left (store_entry h now) entries (current_data a)) a).

(** [text.match(/\{[\s\S]*\}/)]: from the first opening brace to the
    last closing brace after it. *)
Definition match_braces (text : string) : option string :=
  let from_open := drop_while (fun c => negb (Ascii.eqb c "{")) (chars text) in
  match drop_while (fun c => negb (Ascii.eqb c "}")) (rev from_open) with
  | [] => None
  | r => Some (of_chars (rev r))
  end.

(** Lines 318-326. *)
Definition parse_extracted (h : host) (extractedText : string) : result json :=
  match JSON_parse h extractedText with
  | Some j => Ok j
  | None =>
      match match_braces extractedText with
      | Some jsonMatch => of_option SyntaxError (JSON_parse h jsonMatch)
      | None => Ok (JObj [])
      end
  end.

(** How [openAiClient.chat.completions.create] ends: the promise is
    rejected (or the response lacks [choices[0].message.content]), or
    it delivers the content. *)
Inductive completion : Type :=
| Rejected
| Completed (content : string).

(** [updateCollectedDataWithLLM]; the prompt reaches the agent only
    through the completion, which is given. *)
Definition updateCollectedDataWithLLM (h : host) (now : Z)
    (reply : completion) (a : agent) : result agent :=
  if (length (getMissingFields a) =? 0)%nat then Ok a
  else
    try_catch
      (extractedText <- match reply with
                        | Rejected => Throw UpstreamError
                        | Completed content => Ok (trim content)
                        end ;;
       extractedData <- parse_extracted h extractedText ;;
       validateAndStoreExtractedData h now extractedData a)
      (fun _ => Ok a).

(** A count as a Number. *)
Definition Number_of_count (n : Z) : float := PrimFloat.of_uint63 (Uint63.of_Z n).

(** [Math.round(x)]: the integer nearest to [x], the upper one of two
    equally near; [None] when [x] is [NaN] or infinite. *)
Definition Math_round (x : float) : option Z :=
  match Prim2SF x with
  | S754_zero _ => Some 0
  | S754_finite sign m e =>
      let v := if sign then - Z.pos m else Z.pos m in
      if 0 <=? e then Some (v * 2 ^ e)
      else Some ((2 * v + 2 ^ (- e)) / (2 * 2 ^ (- e)))
  | S754_infinity _ => None
  | S754_nan => None
  end.

(** [Math.round((completedFields / totalFields) * 100)] *)
Definition percentage (completedFields totalFields : Z) : option Z :=
  Math_round (PrimFloat.mul
                (PrimFloat.div (Number_of_count completedFields)
                               (Number_of_count totalFields))
                (Number_of_count 100)).

Definition getCompletionPercentage (a : agent) : option Z :=
  let '(totalFields, completedFields) :=
    fold_left
      (fun counts section =>
         fold_left
           (fun '(total, completed) value =>
              (total + 1,
               if not_null (Some value) then completed + 1 else completed))
           (Object_values (section_data section (collectedData a)))
           counts)
      sections (0, 0) in
  percentage completedFields totalFields.

(** The agent after the call, whether it returned or threw. *)
Definition state_after (r : result agent) (before : agent) : agent :=
  match r with
  | Ok a => a
  | Throw _ => before
  end.

(** The operations that change an agent. *)
Inductive operation : Type :=
| OpValidateAndStore (now : Z) (extractedData : json)
| OpUpdateWithLLM (now : Z) (reply : completion)
| OpMoveToNextSection.

Definition apply_operation (h : host) (op : operation) (a : agent) : agent :=
  match op with
  | OpValidateAndStore now extractedData =>
      state_after (validateAndStoreExtractedData h now extractedData a) a
  | OpUpdateWithLLM now reply =>
      state_after (updateCollectedDataWithLLM h now reply a) a
  | OpMoveToNextSection => snd (moveToNextSection a)
  end.

Definition apply_operations (h : host) (ops : list operation) (a : agent) : agent :=
  fold_left (fun a op => apply_operation h op a) ops a.

(** The record has the fields of the constructor's literal, section by
    section. *)
Definition has_schema (a : agent) : Prop :=
  forall s, Object_keys (section_data s (collectedData a))
            = Object_keys (section_data s initial_collectedData).

End Agent.

(** ** The session table ([back-end/src/lib/dynamodb.js]) *)

Module Dynamodb.
Import Agent.

(** The item written by [saveChatSession]. *)
Record item : Type := Item {
  item_sessionId : string;
  item_updatedAt : Z;
  item_expiresAt : Z;
  item_collectedData : collected;
  item_currentSection : section_name;
  item_completionPercentage : option Z
}.

(** The table, keyed by [sessionId]; the calls to it are taken to
    succeed. *)
Abbreviation table := (gmap string item).

Definition saveChatSession (now : Z) (sessionId : string) (a : agent)
    (t : table) : table :=
  let expiresAt := now / 1000 + 1 * 24 * 60 * 60 in
  <[ sessionId :=
       Item sessionId now expiresAt (collectedData a) (currentSection a)
            (getCompletionPercentage a) ]> t.

(** [result.Item || null] *)
Definition getChatSession (sessionId : string) (t : table) : option item :=
  t !! sessionId.

Definition deleteChatSession (sessionId : string) (t : table) : table :=
  delete sessionId t.

End Dynamodb.

(** ** The handlers ([back-end/src/handlers/]) *)

Module Handlers.
Import Agent Dynamodb.

(** [successResponse(statusCode, data)] and
    [errorResponse(statusCode, message)], before serialisation. *)
Inductive response (B : Type) : Type :=
| successResponse (statusCode : Z) (data : B)
| errorResponse (statusCode : Z) (message : string).
Arguments successResponse {B} statusCode data.
Arguments errorResponse {B} statusCode message.

(** Body of the initialize and reset responses (the fixed welcome
    [message] is left out). *)
Record welcome : Type := Welcome {
  w_sessionId : string;
  w_collectedData : collected;
  w_completionPercentage : Z;
  w_currentSection : section_name
}.

(** Body of the get-state response. *)
Record state : Type := State {
  st_sessionId : string;
  st_collectedData : collected;
  st_currentSection : section_name;
  st_completionPercentage : option Z;
  st_updatedAt : Z
}.

(** [!sessionId] for a path parameter: absent or empty. *)
Definition missing (sessionId : option string) : bool :=
  match sessionId with
  | None => true
  | Some s => String.eqb s ""
  end.

(** [initializeChat.js]; [uuid] is the value of [uuidv4()]. *)
Definition initializeChat (uuid : string) (now : Z) (t : table)
  : response welcome * table :=
  let sessionId := uuid in
  let agent := new_agent now in
  let t' := saveChatSession now sessionId agent t in
  (successResponse 200 (Welcome sessionId (collectedData agent) 0 personal), t').

(** [resetChat.js]; the argument is [event.pathParameters.sessionId]. *)
Definition resetChat (now : Z) (pathSessionId : option string) (t : table)
  : response welcome * table :=
  match pathSessionId with
  | Some sessionId =>
      if missing pathSessionId then (errorResponse 400 "Missing sessionId", t)
      else
        let t1 := deleteChatSession sessionId t in
        let agent := new_agent now in
        let t2 := saveChatSession now sessionId agent t1 in
        (successResponse 200 (Welcome sessionId (collectedData agent) 0 personal),
         t2)
  | None => (errorResponse 400 "Missing sessionId", t)
  end.

(** [getState.js] *)
Definition getState (pathSessionId : option string) (t : table)
  : response state :=
  match pathSessionId with
  | Some sessionId =>
      if missing pathSessionId then errorResponse 400 "Missing sessionId"
      else
        match getChatSession sessionId t with
        | None => errorResponse 404 "Session not found"
        | Some session =>
            successResponse 200
              (State sessionId (item_collectedData session)
                     (item_currentSection session)
                     (item_completionPercentage session)
                     (item_updatedAt session))
        end
  | None => errorResponse 400 "Missing sessionId"
  end.

End Handlers.

(** ** Notions used in the statements *)

Module Notions.
Import JsString Regex Json Host JsDate Agent.

(** A regular expression that matches no string, by its shape. *)
Fixpoint dead (r : regex) : bool :=
  match r with
  | RNone => true
  | REps => false
  | RChr _ => false
  | RCat r1 r2 => dead r1 || dead r2
  | RAlt r1 r2 => dead r1 && dead r2
  | RStar _ => false
  end.

(** Length of month [m] (0 = January). *)
Definition DaysInMonth (leap : bool) (m : Z) : Z :=
  DaysBeforeMonth leap (m + 1) - DaysBeforeMonth leap m.

(** A date of the calendar: month 1..12, day within the month. *)
Definition valid_date (y m d : Z) : Prop :=
  1 <= m <= 12 /\ 1 <= d <= DaysInMonth (InLeapYear y) (m - 1).

(** Order of dates given as (year, month, day). *)
Definition earlier (a b : Z * Z * Z) : Prop :=
  let '(y1, m1, d1) := a in
  let '(y2, m2, d2) := b in
  y1 < y2 \/ (y1 = y2 /\ (m1 < m2 \/ (m1 = m2 /\ d1 < d2))).

(** The year, month and day written in a string of the ISO shape. *)
Definition iso_fields (s : string) : Z * Z * Z :=
  (number_of_digits (slice 0 4 s),
   number_of_digits (slice 5 2 s),
   number_of_digits (slice 8 2 s)).

(** Today's date (year, month 1..12, day) in local time. *)
Definition today (h : host) (now : Z) : Z * Z * Z :=
  let t := now + LocalTZA h in
  (YearFromTime t, MonthFromTime t + 1, DateFromTime t).

(** Number of fields of a section that are not [null], and number of
    fields. *)
Definition completed_count (o : object) : Z :=
  Z.of_nat (length (List.filter (fun v => not_null (Some v)) (Object_values o))).

Definition field_count (o : object) : Z := Z.of_nat (length o).

(** The percentage as a rounded ratio of integers. *)
Definition round_percent (completed total : Z) : Z :=
  (200 * completed + total) / (2 * total).

(** Order of two percentages, both of them numbers. *)
Definition percent_le (p q : option Z) : Prop :=
  match p, q with
  | Some x, Some y => x <= y
  | _, _ => False
  end.

(** What processing one extracted entry with key [key] can do to the
    section object. *)
Inductive entry_effect (sd : object) (key : string) : object -> Prop :=
| effect_none :
    entry_effect sd key sd
| effect_plain (s : string) :
    obj_get key sd = Some VNull ->
    key <> "email" -> key <> "dateOfBirth" ->
    entry_effect sd key (obj_set key (VStr s) sd)
| effect_email (s : string) :
    key = "email" ->
    obj_get "email" sd = Some VNull ->
    entry_effect sd key
      (obj_set "emailConfirmed" (VBool true) (obj_set "email" (VStr s) sd))
| effect_dob (s : string) :
    key = "dateOfBirth" ->
    obj_get "dateOfBirth" sd = Some VNull ->
    entry_effect sd key
      (obj_set "dobConfirmed" (VBool true) (obj_set "dateOfBirth" (VStr s) sd)).

(** A section object that has a value field also has its flag. *)
Definition flags_present (sd : object) : Prop :=
  (hasOwnProperty "email" sd = true -> hasOwnProperty "emailConfirmed" sd = true)
  /\ (hasOwnProperty "dateOfBirth" sd = true -> hasOwnProperty "dobConfirmed" sd = true).

(** A field that is not [null] keeps its value, or it is a confirmation
    flag and has become [true]. *)
Definition kept (sd sd' : object) : Prop :=
  forall k v, obj_get k sd = Some v -> v <> VNull ->
    obj_get k sd' = Some v
    \/ ((k = "emailConfirmed" \/ k = "dobConfirmed")
        /\ obj_get k sd' = Some (VBool true)).

Record evolves (sd sd' : object) : Prop := Evolves {
  ev_keys : Object_keys sd' = Object_keys sd;
  ev_kept : kept sd sd';
  ev_completed : completed_count sd <= completed_count sd'
}.

(** [a'] has the schema, and every section of [a] has evolved into the
    section of [a']. *)
Definition grows (a a' : agent) : Prop :=
  has_schema a'
  /\ forall s, evolves (section_data s (collectedData a))
                       (section_data s (collectedData a')).

(** No field that is not [null] becomes [null]. *)
Definition nothing_cleared (cd cd' : collected) : Prop :=
  forall s k v, obj_get k (section_data s cd) = Some v -> v <> VNull ->
    exists v', obj_get k (section_data s cd') = Some v' /\ v' <> VNull.

(** [run] is the first run of digits of [s]. *)
Definition first_digit_run (s run : string) : Prop :=
  exists before after : list ascii,
    chars s = (before ++ chars run ++ after)%list
    /\ forallb (fun c => negb (is_digit c)) before = true
    /\ run <> ""
    /\ forallb is_digit (chars run) = true
    /\ match after with
       | [] => True
       | c :: _ => is_digit c = false
       end.

Definition no_digit (s : string) : Prop :=
  forallb (fun c => negb (is_digit c)) (chars s) = true.

Definition starts_with_digit (k : string) : bool :=
  match k with
  | String c _ => is_digit c
  | EmptyString => false
  end.


(** [JSON.parse] reads [text] as an object. *)
Definition yields_object (h : host) (text : string) : Prop :=
  exists entries, JSON_parse h text = Some (JObj entries).

(** The text is not read as an object, and when it is not read at all,
    neither is its brace-delimited part. *)
Definition no_object_parsed (h : host) (text : string) : Prop :=
  ~ yields_object h text
  /\ (JSON_parse h text = None ->
      forall m, match_braces text = Some m -> ~ yields_object h m).

(** The completion call fails, or it delivers a text from which no
    object is parsed. *)
Definition extraction_fails (h : host) (reply : completion) : Prop :=
  match reply with
  | Rejected => True
  | Completed content => no_object_parsed h (trim content)
  end.

(** The agents reached from a new one by [validateAndStoreExtractedData]
    and [moveToNextSection]. *)
Inductive reachable (h : host) : agent -> Prop :=
| reachable_new (now : Z) :
    reachable h (new_agent now)
| reachable_store (a : agent) (now : Z) (extractedData : json) :
    reachable h a ->
    reachable h (state_after (validateAndStoreExtractedData h now extractedData a) a)
| reachable_move (a : agent) :
    reachable h a ->
    reachable h (snd (moveToNextSection a)).

(** The flags agree with the values they confirm. *)
Definition flags_confirm (p : object) : Prop :=
  (forall v, obj_get "email" p = Some v -> v <> VNull ->
             obj_get "emailConfirmed" p = Some (VBool true))
  /\ (forall v, obj_get "dateOfBirth" p = Some v -> v <> VNull ->
                obj_get "dobConfirmed" p = Some (VBool true)).

Definition flags_are_booleans (p : object) : Prop :=
  (exists b, obj_get "emailConfirmed" p = Some (VBool b))
  /\ (exists b, obj_get "dobConfirmed" p = Some (VBool b)).

(** A host in UTC whose [JSON.parse] rejects every text. *)
Definition strict_host : host := MkHost 0 (fun _ => None) (fun _ => None).

(** An extracted-data map with a key outside the personal section. *)
Definition sample_entries : list (string * json) :=
  [("email", JStr " a@b.co "); ("shoeSize", JStr "44")].

(** An agent whose personal section is complete, without a middle
    name. *)
Definition complete_personal : agent :=
  MkAgent
    (Collected
       [ ("firstName", VStr "John"); ("middleName", VNull);
         ("lastName", VStr "Smith"); ("email", VStr "john@example.com");
         ("emailConfirmed", VBool true); ("phoneNumber", VStr "1234567890");
         ("dateOfBirth", VStr "1990-01-01"); ("dobConfirmed", VBool true);
         ("nationality", VStr "American") ]
       (educational_data initial_collectedData)
       (professional_data initial_collectedData)
       (family_data initial_collectedData))
    personal (Some 0).

End Notions.

(** ** The summary ([getSummary] of [back-end/src/lib/agent.js]) *)

Module Summary.
Import JsString Agent.

(** The line feed. *)
Definition LF : string := String (ascii_of_nat 10) "".

(** [c.toUpperCase()] for a letter of [a-z], the only characters the
    section names begin with. *)
Definition toUpperCase_char (c : ascii) : ascii :=
  if in_range "a" "z" c then ascii_of_nat (code c - 32) else c.

(** The keys of [collectedData]. *)
Definition section_key (s : section_name) : string :=
  match s with
  | personal => "personal"
  | educational => "educational"
  | professional => "professional"
  | family => "family"
  end.

(** [section.charAt(0).toUpperCase() + section.slice(1)] *)
Definition capitalized (section : string) : string :=
  match section with
  | EmptyString => ""
  | String c rest => String (toUpperCase_char c) rest
  end.

(** [key.replace(/([A-Z])/g, ' $1')] *)
Definition space_capitals (key : string) : string :=
  of_chars (flat_map (fun c => if in_range "A" "Z" c then [" "%char; c] else [c])
                     (chars key)).

(** [key.replace(/([A-Z])/g, ' $1').trim()] *)
Definition label (key : string) : string := trim (space_capitals key).

(** [value || 'Not provided'], as the template renders it. *)
Definition shown (v : value) : string :=
  match v with
  | VNull => "Not provided"
  | VBool false => "Not provided"
  | VBool true => "true"
  | VStr s => if String.eqb s "" then "Not provided" else s
  end.

(** The text added for one field (line 437). *)
Definition field_line (entry : string * value) : string :=
  "- " ++ label (fst entry) ++ ": " ++ shown (snd entry) ++ LF.

(** The text added for one section (lines 434-439). *)
Definition section_block (s : section_name) (data : object) : string :=
  "**" ++ capitalized (section_key s) ++ " Information:**" ++ LF
  ++ fold_left (fun summary entry => summary ++ field_line entry) data ""
  ++ LF.

(** [getSummary]; [heading] is the literal the summary starts with
    (line 431), whose first characters lie outside the code units
    modelled here. *)
Definition getSummary (heading : string) (a : agent) : string :=
  fold_left
    (fun summary s => summary ++ section_block s (section_data s (collectedData a)))
    sections heading.

End Summary.

(** ** Batches ([batchSaveSessions] of [back-end/src/lib/dynamodb.js]) *)

Module Batch.

(** [l.slice(i, j)] for [0 <= i <= j] *)
Definition Array_slice {A : Type} (i j : nat) (l : list A) : list A :=
  firstn (j - i) (skipn i l).

(** The loop of lines 133-135: [fuel] bounds the number of turns, [i]
    is the loop variable, [chunks] the array built so far. *)
Fixpoint chunk_loop {A : Type} (fuel i : nat) (writeRequests : list A)
    (chunks : list (list A)) : list (list A) :=
  match fuel with
  | O => chunks
  | S fuel' =>
      if (i <? length writeRequests)%nat
      then chunk_loop fuel' (i + 25) writeRequests
                      (chunks ++ [Array_slice i (i + 25) writeRequests])
      else chunks
  end.

(** One put request of a batch. *)
Inductive write_request (A : Type) : Type :=
| PutRequest (Item : A).
Arguments PutRequest {A} Item.

(** [batchSaveSessions]: the batches handed to [batchWrite], in the
    order of the calls.  The loop variable grows by 25 each turn, so
    as many turns as there are requests suffice. *)
Definition batchSaveSessions {A : Type} (sessions : list A)
  : list (list (write_request A)) :=
  let writeRequests := map PutRequest sessions in
  chunk_loop (length writeRequests) 0 writeRequests [].

End Batch.

(** ** The message handler ([back-end/src/handlers/sendMessage.js]) *)

Module MessageHandler.
Import JsString Json Host Agent Dynamodb Handlers Summary.

(** How the chat completion of line 45 ends: with an error, of which
    the handler reads [status] ([None] when it has none or when it is
    no number), or with the content of the first choice. *)
Inductive chat_outcome : Type :=
| ChatFailed (status : option Z)
| ChatReplied (botMessage : string).

(** Body of the send response. *)
Record reply : Type := Reply {
  r_sessionId : string;
  r_message : string;
  r_collectedData : collected;
  r_completionPercentage : option Z;
  r_currentSection : section_name;
  r_sectionComplete : bool;
  r_applicationComplete : bool;
  r_summary : option string
}.

(** [body.key] for a value read by [JSON.parse]: [None] is
    [undefined]; reading a property of [null] throws. *)
Definition property (key : string) (body : json) : result (option json) :=
  match body with
  | JNull => Throw TypeError
  | JObj entries =>
      Ok (match List.find (fun e => String.eqb (fst e) key) entries with
          | Some e => Some (snd e)
          | None => None
          end)
  | _ => Ok None
  end.

(** [!x] is [false] *)
Definition truthy (x : option json) : bool :=
  match x with
  | None => false
  | Some JNull => false
  | Some (JBool b) => b
  | Some (JNum repr) => negb (String.eqb repr "0")
  | Some (JStr s) => negb (String.eqb s "")
  | Some (JArr _) => true
  | Some (JObj _) => true
  end.

(** The [catch] clause (lines 91-101); the argument is [error.status]. *)
Definition caught {B : Type} (status : option Z) : response B :=
  match status with
  | Some n =>
      if n =? 401 then errorResponse 401 "Authentication failed. Check your API key."
      else if n =? 429 then errorResponse 429 "Rate limit exceeded. Please try again later."
      else errorResponse 500 "Failed to process your request"
  | None => errorResponse 500 "Failed to process your request"
  end.

(** Lines 56-71: the section is left when it is complete and is not
    the last one. *)
Definition advance (a : agent) : bool * agent :=
  if isCurrentSectionComplete a && negb (section_eqb (currentSection a) family)
  then moveToNextSection a
  else (false, a).

(** [sendMessage.js].  [body] is [event.body]; [now] is the instant
    read while the extracted data are validated and [savedAt] the one
    read by [saveChatSession]; [extraction] and [chat] are the ends of
    the two completion calls; [heading] is the first line of the
    summary.  The table's key is a string: a [sessionId] of another
    type makes the read fail. *)
Definition sendMessage (h : host) (now savedAt : Z)
    (extraction : completion) (chat : chat_outcome) (heading : string)
    (body : string) (t : table) : response reply * table :=
  match JSON_parse h body with
  | None => (caught None, t)
  | Some parsed =>
      match property "sessionId" parsed, property "message" parsed with
      | Ok sessionId, Ok message =>
          if negb (truthy sessionId) || negb (truthy message)
          then (errorResponse 400 "Missing sessionId or message", t)
          else
            match sessionId with
            | Some (JStr sid) =>
                match getChatSession sid t with
                | None => (errorResponse 404 "Session not found", t)
                | Some session =>
                    let agent :=
                      restored_agent (item_collectedData session)
                                     (item_currentSection session) None in
                    match updateCollectedDataWithLLM h now extraction agent with
                    | Throw _ => (caught None, t)
                    | Ok agent1 =>
                        match chat with
                        | ChatFailed status => (caught status, t)
                        | ChatReplied botMessage =>
                            let '(sectionComplete, agent2) := advance agent1 in
                            let applicationComplete :=
                              section_eqb (currentSection agent2) family
                              && isCurrentSectionComplete agent2 in
                            let t' := saveChatSession savedAt sid agent2 t in
                            (successResponse 200
                               (Reply sid botMessage (collectedData agent2)
                                      (getCompletionPercentage agent2)
                                      (currentSection agent2)
                                      sectionComplete applicationComplete
                                      (if applicationComplete
                                       then Some (getSummary heading agent2)
                                       else None)),
                             t')
                        end
                    end
                end
            | _ => (caught None, t)
            end
      | _, _ => (caught None, t)
      end
  end.

(** A request to one of the handlers that write the table. *)
Inductive request : Type :=
| Initialize (uuid : string) (now : Z)
| Reset (now : Z) (pathSessionId : option string)
| Send (now savedAt : Z) (extraction : completion) (chat : chat_outcome)
       (heading body : string).

(** The table after a request has been served. *)
Definition serve (h : host) (t : table) (req : request) : table :=
  match req with
  | Initialize uuid now => snd (initializeChat uuid now t)
  | Reset now pathSessionId => snd (resetChat now pathSessionId t)
  | Send now savedAt extraction chat heading body =>
      snd (sendMessage h now savedAt extraction chat heading body t)
  end.

(** The table after a sequence of requests, from the empty table. *)
Definition served (h : host) (requests : list request) : table :=
  fold_left (serve h) requests ∅.

End MessageHandler.

(** ** What a regular expression means *)

Module RegexMeaning.
Import Regex.

(** The strings a regular expression stands for. *)
Inductive denotes : regex -> list ascii -> Prop :=
| denotes_eps :
    denotes REps []
| denotes_chr (p : ascii -> bool) (c : ascii) :
    p c = true -> denotes (RChr p) [c]
| denotes_cat (r1 r2 : regex) (l1 l2 : list ascii) :
    denotes r1 l1 -> denotes r2 l2 -> denotes (RCat r1 r2) (l1 ++ l2)%list
| denotes_alt_left (r1 r2 : regex) (l : list ascii) :
    denotes r1 l -> denotes (RAlt r1 r2) l
| denotes_alt_right (r1 r2 : regex) (l : list ascii) :
    denotes r2 l -> denotes (RAlt r1 r2) l
| denotes_star_nil (r : regex) :
    denotes (RStar r) []
| denotes_star_more (r : regex) (l1 l2 : list ascii) :
    denotes r l1 -> denotes (RStar r) l2 -> denotes (RStar r) (l1 ++ l2)%list.

End RegexMeaning.

(** ** Notions used in the further statements *)

Module MoreNotions.
Import JsString Regex Json Host Validators DateValidator Agent Notions.
Import Dynamodb Handlers Summary MessageHandler.

(** A non-empty string without white space and without [@]. *)
Definition plain_part (s : string) : Prop :=
  s <> "" /\ forallb not_space_at (chars s) = true.

(** Number of decimal digits in a string. *)
Definition digit_count (s : string) : nat :=
  length (List.filter is_digit (chars s)).

(** A string of exactly [n] decimal digits. *)
Definition digits (n : nat) (s : string) : Prop :=
  String.length s = n /\ forallb is_digit (chars s) = true.

(** A string of one or two decimal digits. *)
Definition short_digits (s : string) : Prop := digits 1 s \/ digits 2 s.

(** Position of the current section in the order of the sections. *)
Definition section_index (a : agent) : Z := indexOf (currentSection a) sections.

Definition is_move (op : operation) : bool :=
  match op with
  | OpMoveToNextSection => true
  | _ => false
  end.

(** Number of [moveToNextSection] calls in a sequence. *)
Definition moves (ops : list operation) : Z :=
  Z.of_nat (length (List.filter is_move ops)).

(** What [validateAndStoreExtractedData] lets through under [key]. *)
Definition accepted_value (h : host) (key value : string) : Prop :=
  if String.eqb key "email" then isValidEmail value = true
  else if String.eqb key "phoneNumber" then isValidPhoneNumber value = true
  else if String.eqb key "dateOfBirth" then
    exists now, isValidDateOfBirth h now value = true
  else if String.eqb key "firstName" || String.eqb key "lastName"
          || String.eqb key "middleName" || String.eqb key "spouseName" then
    isValidName value = true
  else if String.eqb key "emergencyContact" then (3 <= String.length value)%nat
  else if String.eqb key "yearsOfExperience" then
    (value <> "" /\ forallb is_digit (chars value) = true)
    \/ (match_digits value = None /\ isNaN_without_digits value = false)
  else value <> "".

(** Every field holds [null], a string that was let through under its
    key, or, for a confirmation flag, a boolean. *)
Definition well_stored (h : host) (sd : object) : Prop :=
  forall k v, obj_get k sd = Some v ->
    match v with
    | VNull => True
    | VBool _ => k = "emailConfirmed" \/ k = "dobConfirmed"
    | VStr s => accepted_value h k s
    end.

(** The agent after a first extraction that fills the personal section
    but for the middle name. *)
Definition filled_personal : agent :=
  state_after
    (validateAndStoreExtractedData strict_host 1700000000000
       (JObj [ ("firstName", JStr "John"); ("lastName", JStr "Smith");
               ("email", JStr "john@example.com");
               ("phoneNumber", JStr "1234567890");
               ("dateOfBirth", JStr "1990-01-01");
               ("nationality", JStr "American") ])
       (new_agent 0))
    (new_agent 0).

(** What the [forEach] callback of [validateAndStoreExtractedData] does
    with a value that is not [null], once trimmed. *)
Definition store_value (h : host) (now : Z) (sectionData : object)
    (key value : string) : object :=
  if negb (hasOwnProperty key sectionData) then sectionData
  else if not_null (obj_get key sectionData) then sectionData
  else
    if String.eqb key "email" then
      if isValidEmail value
      then obj_set "emailConfirmed" (VBool true)
                   (obj_set key (VStr value) sectionData)
      else sectionData
    else if String.eqb key "phoneNumber" then
      if isValidPhoneNumber value
      then obj_set key (VStr value) sectionData
      else sectionData
    else if String.eqb key "dateOfBirth" then
      if isValidDateOfBirth h now value
      then obj_set "dobConfirmed" (VBool true)
                   (obj_set key (VStr value) sectionData)
      else sectionData
    else if String.eqb key "firstName" || String.eqb key "lastName"
            || String.eqb key "middleName" || String.eqb key "spouseName" then
      if isValidName value
      then obj_set key (VStr value) sectionData
      else sectionData
    else if String.eqb key "emergencyContact" then
      if (3 <=? String.length value)%nat
      then obj_set key (VStr value) sectionData
      else sectionData
    else if String.eqb key "yearsOfExperience" then
      match match_digits value with
      | Some numMatch => obj_set key (VStr numMatch) sectionData
      | None =>
          if negb (isNaN_without_digits value)
          then obj_set key (VStr value) sectionData
          else sectionData
      end
    else
      if (0 <? String.length value)%nat
      then obj_set key (VStr value) sectionData
      else sectionData.

(** No field of any section is [null]. *)
Definition no_null_field (cd : collected) : Prop :=
  forall s k, ~ In (k, VNull) (section_data s cd).

(** The agent the message handler restores from an item. *)
Definition restore (it : item) : agent :=
  restored_agent (item_collectedData it) (item_currentSection it) None.

(** Place of a section in the order of the sections. *)
Definition place (s : section_name) : Z := indexOf s sections.

(** Section [s] passes [isCurrentSectionComplete]. *)
Definition section_complete (s : section_name) (cd : collected) : Prop :=
  isCurrentSectionComplete (MkAgent cd s None) = true.

(** Section [s] is as the constructor made it. *)
Definition untouched (s : section_name) (cd : collected) : Prop :=
  section_data s cd = section_data s initial_collectedData.

(** The state of a conversation: the sections have the constructor's
    fields, the flags follow their values, what is stored has passed
    its check, the sections before the current one are complete and
    the sections after it are untouched. *)
Record orderly (h : host) (cd : collected) (current : section_name) : Prop := Orderly {
  or_schema : has_schema (MkAgent cd current None);
  or_booleans : flags_are_booleans (personal_data cd);
  or_flags : flags_confirm (personal_data cd);
  or_stored : forall s, well_stored h (section_data s cd);
  or_before : forall s, place s < place current -> section_complete s cd;
  or_after : forall s, place current < place s -> untouched s cd
}.

(** An item is filed under its own [sessionId], expires a day after it
    was written (to the second), carries the percentage of its data,
    and its data are orderly. *)
Definition session_ok (h : host) (sessionId : string) (it : item) : Prop :=
  item_sessionId it = sessionId
  /\ (item_expiresAt it * 1000 <= item_updatedAt it + 86400000
                               < (item_expiresAt it + 1) * 1000)
  /\ item_completionPercentage it = getCompletionPercentage (restore it)
  /\ orderly h (item_collectedData it) (item_currentSection it).

Definition table_ok (h : host) (t : table) : Prop :=
  forall sessionId it, t !! sessionId = Some it -> session_ok h sessionId it.

(** A host in UTC that reads five given texts as the objects below and
    rejects every other text. *)
Definition sample_texts : list (string * json) :=
  [ ("send", JObj [ ("sessionId", JStr "s1"); ("message", JStr "hello") ]);
    ("personal",
     JObj [ ("firstName", JStr "John"); ("middleName", JNull);
            ("lastName", JStr "Smith"); ("email", JStr "john@example.com");
            ("phoneNumber", JStr "1234567890"); ("dateOfBirth", JStr "1990-01-01");
            ("nationality", JStr "American") ]);
    ("educational",
     JObj [ ("highestQualification", JStr "Bachelor"); ("university", JStr "MIT");
            ("fieldOfStudy", JStr "Physics"); ("graduationYear", JNum "2012") ]);
    ("professional",
     JObj [ ("currentDesignation", JStr "Engineer"); ("company", JStr "Acme");
            ("yearsOfExperience", JStr "about 5 years");
            ("annualIncome", JStr "100K"); ("employmentType", JStr "Full-time") ]);
    ("family",
     JObj [ ("maritalStatus", JStr "Single"); ("dependents", JNum "0");
            ("spouseName", JStr "none"); ("emergencyContact", JStr "Ann, sister") ]) ].

Definition sample_host : host :=
  MkHost 0 (fun _ => None)
         (fun text =>
            match List.find (fun e => String.eqb (fst e) text) sample_texts with
            | Some e => Some (snd e)
            | None => None
            end).

(** A message to session [s1] from which the completion extracts the
    object filed under [text]. *)
Definition sample_send (text : string) : request :=
  Send 1700000000000 1700000000500 (Completed text) (ChatReplied "Thank you.")
       "Application Summary" "send".

(** A conversation that has filled the first three sections. *)
Definition sample_requests : list request :=
  [ Initialize "s1" 1700000000000;
    sample_send "personal"; sample_send "educational"; sample_send "professional" ].

(** The data after the fourth section has been filled as well. *)
Definition sample_collected : collected :=
  Collected
    [ ("firstName", VStr "John"); ("middleName", VNull);
      ("lastName", VStr "Smith"); ("email", VStr "john@example.com");
      ("emailConfirmed", VBool true); ("phoneNumber", VStr "1234567890");
      ("dateOfBirth", VStr "1990-01-01"); ("dobConfirmed", VBool true);
      ("nationality", VStr "American") ]
    [ ("highestQualification", VStr "Bachelor"); ("university", VStr "MIT");
      ("fieldOfStudy", VStr "Physics"); ("graduationYear", VStr "2012") ]
    [ ("currentDesignation", VStr "Engineer"); ("company", VStr "Acme");
      ("yearsOfExperience", VStr "5"); ("annualIncome", VStr "100K");
      ("employmentType", VStr "Full-time") ]
    [ ("maritalStatus", VStr "Single"); ("dependents", VStr "0");
      ("spouseName", VStr "none"); ("emergencyContact", VStr "Ann, sister") ].

Definition sample_reply : reply :=
  Reply "s1" "Thank you." sample_collected (Some 95) family false true
        (Some (getSummary "Application Summary"
                          (MkAgent sample_collected family None))).

(** [m] is the part of [text] from its first opening brace to its last
    closing brace. *)
Definition braced (text m : string) : Prop :=
  exists pre inner post : list ascii,
    chars text = (pre ++ chars m ++ post)%list
    /\ chars m = ("{"%char :: inner ++ ["}"%char])%list
    /\ forallb (fun c => negb (Ascii.eqb c "{")) pre = true
    /\ forallb (fun c => negb (Ascii.eqb c "}")) post = true.

(** [text] holds no opening brace with a closing brace after it. *)
Definition no_braces (text : string) : Prop :=
  ~ exists pre inner post : list ascii,
      chars text = (pre ++ "{"%char :: inner ++ "}"%char :: post)%list.

End MoreNotions.

(** * Properties *)

Import JsString Regex Json Host JsDate Validators DateValidator.
Import Agent Dynamodb Handlers Notions.

(** ** Objects *)

Lemma obj_get_set (k k' : string) (v : value) (o : object) :
  obj_get k (obj_set k' v o) = if String.eqb k k' then Some v else obj_get k o.
Proof.
  induction o as [|[k0 v0] o IH]; simpl.
  - destruct (String.eqb k k'); reflexivity.
  - destruct (String.eqb k' k0) eqn:E0; simpl.
    + apply String.eqb_eq in E0; subst k0.
      destruct (String.eqb k k'); reflexivity.
    + destruct (String.eqb k k0) eqn:E1.
      * apply String.eqb_eq in E1; subst k0.
        rewrite String.eqb_sym in E0. rewrite E0. reflexivity.
      * exact IH.
Qed.

Lemma obj_get_set_eq (k : string) (v : value) (o : object) :
  obj_get k (obj_set k v o) = Some v.
Proof. rewrite obj_get_set, String.eqb_refl. reflexivity. Qed.

Lemma obj_get_set_neq (k k' : string) (v : value) (o : object) :
  k <> k' -> obj_get k (obj_set k' v o) = obj_get k o.
Proof.
  intros H. rewrite obj_get_set.
  destruct (String.eqb k k') eqn:E; [apply String.eqb_eq in E; contradiction | reflexivity].
Qed.

Lemma obj_set_keys (k : string) (v : value) (o : object) :
  hasOwnProperty k o = true -> Object_keys (obj_set k v o) = Object_keys o.
Proof.
  unfold hasOwnProperty, Object_keys.
  induction o as [|[k0 v0] o IH]; simpl; [discriminate|].
  destruct (String.eqb k k0) eqn:E; simpl; [reflexivity|].
  intros H. f_equal. apply IH, H.
Qed.

Lemma hasOwnProperty_keys (k : string) (o o' : object) :
  Object_keys o = Object_keys o' -> hasOwnProperty k o = hasOwnProperty k o'.
Proof.
  unfold hasOwnProperty, Object_keys.
  revert o'; induction o as [|[k0 v0] o IH]; intros [|[k1 v1] o']; simpl;
    try discriminate; [reflexivity|].
  intros H; injection H as -> H.
  destruct (String.eqb k k1); [reflexivity | apply IH, H].
Qed.

Lemma hasOwnProperty_set (k k' : string) (v : value) (o : object) :
  hasOwnProperty k o = true -> hasOwnProperty k (obj_set k' v o) = true.
Proof.
  unfold hasOwnProperty. rewrite obj_get_set.
  destruct (String.eqb k k'); [reflexivity | trivial].
Qed.

Lemma section_data_with_same (s : section_name) (o : object) (cd : collected) :
  section_data s (with_section_data s o cd) = o.
Proof. destruct s; reflexivity. Qed.

Lemma current_data_with_current_data (o : object) (a : agent) :
  current_data (with_current_data o a) = o.
Proof.
  unfold current_data, with_current_data. cbn [collectedData currentSection].
  apply section_data_with_same.
Qed.

(** ** Section progression *)

(** C8: starting from [currentSection = personal], four successive calls
    of [moveToNextSection] return true, true, true, false in that order,
    and after the fourth call [currentSection] is [family]. *)
Theorem moveToNextSection_four_calls (a0 : agent) :
  currentSection a0 = personal ->
  let r1 := moveToNextSection a0 in
  let r2 := moveToNextSection (snd r1) in
  let r3 := moveToNextSection (snd r2) in
  let r4 := moveToNextSection (snd r3) in
  (fst r1, fst r2, fst r3, fst r4) = (true, true, true, false)
  /\ currentSection (snd r4) = family.
Proof.
  destruct a0 as [cd s c]; simpl; intros ->.
  split; reflexivity.
Qed.

Lemma moveToNextSection_four_calls_witness :
  currentSection (new_agent 0) = personal
  /\ (let r1 := moveToNextSection (new_agent 0) in
      let r2 := moveToNextSection (snd r1) in
      let r3 := moveToNextSection (snd r2) in
      let r4 := moveToNextSection (snd r3) in
      (fst r1, fst r2, fst r3, fst r4) = (true, true, true, false)
      /\ currentSection (snd r4) = family).
Proof.
  split; [reflexivity | apply (moveToNextSection_four_calls (new_agent 0)); reflexivity].
Defined.

Lemma moveToNextSection_collectedData (a : agent) :
  collectedData (snd (moveToNextSection a)) = collectedData a.
Proof.
  unfold moveToNextSection.
  destruct (_ <? _); reflexivity.
Qed.

(** ** Section completion *)

Lemma not_null_true (x : option value) : not_null x = true <-> x <> Some VNull.
Proof.
  destruct x as [[| |]|]; simpl; split; intros; congruence.
Qed.

Lemma is_true_true (x : option value) : is_true x = true <-> x = Some (VBool true).
Proof.
  destruct x as [[|[]|]|]; simpl; split; congruence.
Qed.

(** C9: in the personal section [isCurrentSectionComplete] returns true
    exactly when firstName, lastName, email, phoneNumber, dateOfBirth and
    nationality are non-null and emailConfirmed and dobConfirmed are true;
    whatever middleName holds makes no difference.  In every other
    section it returns true exactly when every field whose name does not
    contain "Confirmed" is non-null. *)
Theorem isCurrentSectionComplete_spec (a : agent) :
  (currentSection a = personal ->
     (isCurrentSectionComplete a = true <->
        obj_get "firstName" (current_data a) <> Some VNull
        /\ obj_get "lastName" (current_data a) <> Some VNull
        /\ obj_get "email" (current_data a) <> Some VNull
        /\ obj_get "emailConfirmed" (current_data a) = Some (VBool true)
        /\ obj_get "phoneNumber" (current_data a) <> Some VNull
        /\ obj_get "dateOfBirth" (current_data a) <> Some VNull
        /\ obj_get "dobConfirmed" (current_data a) = Some (VBool true)
        /\ obj_get "nationality" (current_data a) <> Some VNull)
     /\ forall v : value,
          isCurrentSectionComplete
            (with_current_data (obj_set "middleName" v (current_data a)) a)
          = isCurrentSectionComplete a)
  /\ (currentSection a <> personal ->
        (isCurrentSectionComplete a = true <->
           forall key v, In (key, v) (current_data a) ->
                         includes "Confirmed" key = false -> v <> VNull)).
Proof.
  split.
  - intros Hs. split.
    + unfold isCurrentSectionComplete. rewrite Hs. cbn [section_eqb].
      rewrite !andb_true_iff, !not_null_true, !is_true_true. tauto.
    + intros v. unfold isCurrentSectionComplete.
      rewrite current_data_with_current_data.
      unfold with_current_data. cbn [currentSection]. rewrite Hs. cbn [section_eqb].
      rewrite !obj_get_set. reflexivity.
  - intros Hs. unfold isCurrentSectionComplete.
    destruct (section_eqb (currentSection a) personal) eqn:E.
    { destruct (currentSection a); try discriminate. contradiction. }
    rewrite forallb_forall. split.
    + intros H key v Hin Hc. specialize (H (key, v) Hin). cbn beta iota in H.
      rewrite Hc in H. destruct v; discriminate.
    + intros H [key v] Hin.
      destruct (includes "Confirmed" key) eqn:Hc; [reflexivity|].
      specialize (H key v Hin Hc). destruct v; [contradiction | reflexivity | reflexivity].
Qed.

Lemma isCurrentSectionComplete_spec_witness :
  currentSection complete_personal = personal
  /\ obj_get "middleName" (current_data complete_personal) = Some VNull
  /\ isCurrentSectionComplete complete_personal = true.
Proof.
  split; [reflexivity|]. split; [reflexivity|].
  apply (proj1 (proj1 (isCurrentSectionComplete_spec complete_personal) eq_refl)).
  repeat split; solve [reflexivity | discriminate].
Defined.

Example family_section_complete :
  isCurrentSectionComplete
    (MkAgent
       (with_section_data family
          [ ("maritalStatus", VStr "Single"); ("dependents", VStr "0");
            ("spouseName", VStr "none"); ("emergencyContact", VStr "Ann, sister") ]
          initial_collectedData)
       family None) = true.
Proof. reflexivity. Qed.

Example family_section_incomplete :
  isCurrentSectionComplete
    (MkAgent
       (with_section_data family
          [ ("maritalStatus", VStr "Single"); ("dependents", VStr "0");
            ("spouseName", VNull); ("emergencyContact", VStr "Ann, sister") ]
          initial_collectedData)
       family None) = false.
Proof. reflexivity. Qed.

(** ** Completion percentage *)

Lemma count_values (vs : list value) (total completed : Z) :
  fold_left (fun '(t, c) v => (t + 1, if not_null (Some v) then c + 1 else c))
            vs (total, completed)
  = (total + Z.of_nat (length vs),
     completed + Z.of_nat (length (List.filter (fun v => not_null (Some v)) vs))).
Proof.
  revert total completed; induction vs as [|v vs IH]; intros total completed.
  - cbn [fold_left List.filter length]. change (Z.of_nat 0) with 0.
    rewrite !Z.add_0_r. reflexivity.
  - cbn [fold_left List.filter]. rewrite IH.
    destruct (not_null (Some v)); cbn [length]; rewrite ?Nat2Z.inj_succ;
      f_equal; lia.
Qed.

Lemma getCompletionPercentage_counts (a : agent) :
  getCompletionPercentage a
  = percentage
      (completed_count (personal_data (collectedData a))
       + completed_count (educational_data (collectedData a))
       + completed_count (professional_data (collectedData a))
       + completed_count (family_data (collectedData a)))
      (field_count (personal_data (collectedData a))
       + field_count (educational_data (collectedData a))
       + field_count (professional_data (collectedData a))
       + field_count (family_data (collectedData a))).
Proof.
  unfold getCompletionPercentage, sections. cbn [fold_left section_data].
  rewrite !count_values.
  unfold completed_count, field_count, Object_values.
  rewrite !length_map. f_equal; lia.
Qed.

(** On the counts that occur, 0 to 22 fields out of 22, the binary64
    computation gives the exact ratio rounded to the nearest integer. *)
Lemma percentage_of_22 (completed : Z) :
  0 <= completed <= 22 ->
  percentage completed 22 = Some (round_percent completed 22).
Proof.
  intros H.
  assert (C : completed = 0 \/ completed = 1 \/ completed = 2 \/ completed = 3
              \/ completed = 4 \/ completed = 5 \/ completed = 6 \/ completed = 7
              \/ completed = 8 \/ completed = 9 \/ completed = 10 \/ completed = 11
              \/ completed = 12 \/ completed = 13 \/ completed = 14
              \/ completed = 15 \/ completed = 16 \/ completed = 17
              \/ completed = 18 \/ completed = 19 \/ completed = 20
              \/ completed = 21 \/ completed = 22) by lia.
  repeat (destruct C as [-> | C]; [vm_compute; reflexivity|]).
  subst completed. vm_compute. reflexivity.
Qed.

Lemma completed_count_bound (o : object) : 0 <= completed_count o <= field_count o.
Proof.
  unfold completed_count, field_count, Object_values.
  pose proof (filter_length_le (fun v => not_null (Some v)) (map snd o)) as L.
  rewrite length_map in L. lia.
Qed.

Lemma field_count_keys (o o' : object) :
  Object_keys o' = Object_keys o -> field_count o' = field_count o.
Proof.
  unfold field_count, Object_keys. intros K.
  rewrite <- (length_map fst o), <- (length_map fst o'), K. reflexivity.
Qed.

Lemma schema_percentage (a : agent) :
  has_schema a ->
  0 <= completed_count (personal_data (collectedData a))
       + completed_count (educational_data (collectedData a))
       + completed_count (professional_data (collectedData a))
       + completed_count (family_data (collectedData a)) <= 22
  /\ getCompletionPercentage a
     = Some (round_percent
               (completed_count (personal_data (collectedData a))
                + completed_count (educational_data (collectedData a))
                + completed_count (professional_data (collectedData a))
                + completed_count (family_data (collectedData a)))
               22).
Proof.
  intros H.
  pose proof (field_count_keys _ _ (H personal)) as F1.
  pose proof (field_count_keys _ _ (H educational)) as F2.
  pose proof (field_count_keys _ _ (H professional)) as F3.
  pose proof (field_count_keys _ _ (H family)) as F4.
  cbn [section_data] in F1, F2, F3, F4.
  change (field_count (personal_data initial_collectedData)) with 9 in F1.
  change (field_count (educational_data initial_collectedData)) with 4 in F2.
  change (field_count (professional_data initial_collectedData)) with 5 in F3.
  change (field_count (family_data initial_collectedData)) with 4 in F4.
  pose proof (completed_count_bound (personal_data (collectedData a))).
  pose proof (completed_count_bound (educational_data (collectedData a))).
  pose proof (completed_count_bound (professional_data (collectedData a))).
  pose proof (completed_count_bound (family_data (collectedData a))).
  split; [lia|].
  rewrite getCompletionPercentage_counts, F1, F2, F3, F4.
  change (9 + 4 + 5 + 4) with 22.
  apply percentage_of_22. lia.
Qed.

(** C2, on the code: a freshly constructed agent reports 9, not 0.  The
    two confirmation flags start as [false], which is not [null], so two
    of the 22 fields count as completed. *)
Theorem fresh_agent_percentage_is_9 (now : Z) :
  getCompletionPercentage (new_agent now) = Some 9
  /\ getCompletionPercentage (new_agent now) <> Some 0
  /\ completed_count (personal_data (collectedData (new_agent now))) = 2.
Proof.
  split; [vm_compute; reflexivity|].
  split; [vm_compute; discriminate | vm_compute; reflexivity].
Qed.

(** The second half of C2 holds: with every personal field set and both
    flags true, the percentage is 9 fields out of 22, rounded. *)
Lemma personal_section_set_percentage
    (firstName middleName lastName email phoneNumber dateOfBirth nationality : string)
    (s : section_name) (created : option Z) :
  let cd :=
    Collected
      [ ("firstName", VStr firstName); ("middleName", VStr middleName);
        ("lastName", VStr lastName); ("email", VStr email);
        ("emailConfirmed", VBool true); ("phoneNumber", VStr phoneNumber);
        ("dateOfBirth", VStr dateOfBirth); ("dobConfirmed", VBool true);
        ("nationality", VStr nationality) ]
      (educational_data initial_collectedData)
      (professional_data initial_collectedData)
      (family_data initial_collectedData) in
  getCompletionPercentage (MkAgent cd s created)
  = Some (round_percent
            (field_count (personal_data initial_collectedData))
            (field_count (personal_data initial_collectedData)
             + field_count (educational_data initial_collectedData)
             + field_count (professional_data initial_collectedData)
             + field_count (family_data initial_collectedData)))
  /\ getCompletionPercentage (MkAgent cd s created) = Some 41.
Proof. split; vm_compute; reflexivity. Qed.

Lemma round_percent_mono (c c' t : Z) :
  0 <= t -> c <= c' -> round_percent c t <= round_percent c' t.
Proof.
  intros Ht Hc. unfold round_percent.
  destruct (Z.eq_dec t 0) as [->|Hne].
  - rewrite !Z.div_0_r. lia.
  - apply Z.div_le_mono; lia.
Qed.

(** ** Handlers *)

Lemma resetChat_same_key (now : Z) (sessionId : string) (t : table) :
  sessionId <> "" ->
  fst (resetChat now (Some sessionId) t)
  = successResponse 200 (Welcome sessionId initial_collectedData 0 personal)
  /\ getState (Some sessionId) (snd (resetChat now (Some sessionId) t))
     = successResponse 200 (State sessionId initial_collectedData personal (Some 9) now).
Proof.
  intros Hne.
  assert (E : String.eqb sessionId "" = false).
  { destruct (String.eqb sessionId "") eqn:E; [apply String.eqb_eq in E; contradiction | reflexivity]. }
  unfold resetChat, getState, missing. rewrite E. cbn [fst snd].
  split; [reflexivity|].
  unfold getChatSession, saveChatSession.
  rewrite lookup_insert_eq. reflexivity.
Qed.

(** C1, on the code: the reset handler deletes the item and writes the
    new one under the same key.  For a table holding an in-progress
    session under "s1", the reset response carries the session id "s1"
    again, and a get-state on "s1" afterwards succeeds (with status 200,
    the fresh data, and the stored percentage 9 where the reset response
    said 0). *)
Theorem resetChat_reuses_session_id :
  let in_progress :=
    MkAgent
      (with_section_data personal
         (obj_set "firstName" (VStr "John") (personal_data initial_collectedData))
         initial_collectedData)
      personal (Some 1000) in
  let t0 : table := saveChatSession 1000 "s1" in_progress ∅ in
  let '(resp, t1) := resetChat 2000 (Some "s1") t0 in
  getState (Some "s1") t0
  = successResponse 200
      (State "s1" (collectedData in_progress) personal (Some 14) 1000)
  /\ resp = successResponse 200 (Welcome "s1" initial_collectedData 0 personal)
  /\ getState (Some "s1") t1
     = successResponse 200 (State "s1" initial_collectedData personal (Some 9) 2000).
Proof. vm_compute. repeat split. Qed.

(** What the initialize handler does instead: the item is written under
    the identifier that [uuidv4()] returned. *)
Lemma initializeChat_uses_uuid (uuid : string) (now : Z) (t : table) :
  uuid <> "" ->
  fst (initializeChat uuid now t)
  = successResponse 200 (Welcome uuid initial_collectedData 0 personal)
  /\ getState (Some uuid) (snd (initializeChat uuid now t))
     = successResponse 200 (State uuid initial_collectedData personal (Some 9) now).
Proof.
  intros Hne.
  assert (E : String.eqb uuid "" = false).
  { destruct (String.eqb uuid "") eqn:E; [apply String.eqb_eq in E; contradiction | reflexivity]. }
  unfold initializeChat, getState, missing. rewrite E. cbn [fst snd].
  split; [reflexivity|].
  unfold getChatSession, saveChatSession.
  rewrite lookup_insert_eq. reflexivity.
Qed.

(** ** Date of birth *)

(** C3: the [MM/DD/YYYY] branch is never taken, since its test is the one
    the [DD/MM/YYYY] branch has already made; without that branch the
    function is the same on all inputs. *)
Theorem isValidDateOfBirth_mmdd_branch_dead (h : host) (now : Z) (dateString : string) :
  isValidDateOfBirth_without_mmdd h now dateString
  = isValidDateOfBirth h now dateString.
Proof.
  unfold isValidDateOfBirth_without_mmdd, isValidDateOfBirth.
  destruct (test isoRegex dateString); [reflexivity|].
  destruct (test slashRegex dateString) eqn:Hslash; [reflexivity|].
  destruct (test dashRegex dateString); reflexivity.
Qed.

Lemma check_date_same_zone (h h' : host) (now : Z) (d : option Z) :
  LocalTZA h = LocalTZA h' -> check_date h now d = check_date h' now d.
Proof.
  intros E. unfold check_date, start_of_today, years_ago. rewrite E. reflexivity.
Qed.

Lemma Date_of_day_month_year_same_zone (h h' : host) (sep : ascii) (s : string) :
  LocalTZA h = LocalTZA h' ->
  Date_of_day_month_year h sep s = Date_of_day_month_year h' sep s.
Proof.
  intros E. unfold Date_of_day_month_year, Date_of_fields. rewrite E. reflexivity.
Qed.

(** So the validator does not depend on how the engine reads
    [new Date("MM/DD/YYYY")]. *)
Lemma isValidDateOfBirth_ignores_legacy_parser
    (h h' : host) (now : Z) (dateString : string) :
  LocalTZA h = LocalTZA h' ->
  isValidDateOfBirth h now dateString = isValidDateOfBirth h' now dateString.
Proof.
  intros E.
  unfold isValidDateOfBirth.
  rewrite !(Date_of_day_month_year_same_zone h h' _ _ E).
  destruct (test isoRegex dateString); [apply check_date_same_zone, E|].
  destruct (test slashRegex dateString); [apply check_date_same_zone, E|].
  destruct (test dashRegex dateString); [apply check_date_same_zone, E|reflexivity].
Qed.

Lemma dead_not_nullable (r : regex) : dead r = true -> nullable r = false.
Proof.
  induction r as [| | p | r1 IH1 r2 IH2 | r1 IH1 r2 IH2 | r IH]; cbn [dead nullable];
    try discriminate; try reflexivity.
  - intros H. apply orb_true_iff in H as [H|H].
    + rewrite (IH1 H). reflexivity.
    + rewrite (IH2 H). apply andb_false_r.
  - intros H. apply andb_true_iff in H as [H1 H2].
    rewrite (IH1 H1), (IH2 H2). reflexivity.
Qed.

Lemma dead_deriv (c : ascii) (r : regex) : dead r = true -> dead (deriv c r) = true.
Proof.
  induction r as [| | p | r1 IH1 r2 IH2 | r1 IH1 r2 IH2 | r IH]; cbn [dead deriv];
    try discriminate; try reflexivity.
  - intros H. apply orb_true_iff in H as [H|H].
    + rewrite (dead_not_nullable _ H). cbn [dead]. rewrite (IH1 H). reflexivity.
    + destruct (nullable r1); cbn [dead]; rewrite ?(IH2 H), H, ?orb_true_r; reflexivity.
  - intros H. apply andb_true_iff in H as [H1 H2].
    rewrite (IH1 H1), (IH2 H2). reflexivity.
Qed.

Lemma dead_matches (r : regex) (l : list ascii) : dead r = true -> matches r l = false.
Proof.
  revert r; induction l as [|c l IH]; intros r H; cbn [matches].
  - apply dead_not_nullable, H.
  - apply IH, dead_deriv, H.
Qed.

Lemma slash_is_no_digit (c : ascii) : Ascii.eqb "/" c = true -> is_digit c = false.
Proof. intros H. apply Ascii.eqb_eq in H. subst c. reflexivity. Qed.

Lemma slash_not_iso (s : string) : test slashRegex s = true -> test isoRegex s = false.
Proof.
  unfold test, chars.
  destruct s as [|c1 [|c2 [|c3 s]]]; cbn [list_ascii_of_string]; try reflexivity.
  - intros _. cbn. destruct (is_digit c1); reflexivity.
  - intros _. cbn. destruct (is_digit c1), (is_digit c2); reflexivity.
  - unfold slashRegex, isoRegex, one_or_two, lit, digit.
    cbn [matches deriv nullable times andb orb].
    destruct (is_digit c1) eqn:D1; cbn [matches deriv nullable times andb orb].
    2:{ intros _. apply dead_matches. reflexivity. }
    destruct (is_digit c2) eqn:D2; cbn [matches deriv nullable times andb orb].
    2:{ intros _. apply dead_matches. destruct (Ascii.eqb "/" c2); reflexivity. }
    destruct (Ascii.eqb "/" c2) eqn:S2.
    { apply slash_is_no_digit in S2. congruence. }
    cbn [matches deriv nullable times andb orb].
    destruct (is_digit c3) eqn:D3; cbn [matches deriv nullable times andb orb].
    2:{ intros _. apply dead_matches. destruct (Ascii.eqb "/" c3); reflexivity. }
    destruct (Ascii.eqb "/" c3) eqn:S3.
    { apply slash_is_no_digit in S3. congruence. }
    intros H. rewrite dead_matches in H by reflexivity. discriminate H.
Qed.

(** A string of the slash shape is always read as day/month/year. *)
Lemma slash_date_read_day_first (h : host) (now : Z) (dateString : string) :
  test slashRegex dateString = true ->
  isValidDateOfBirth h now dateString
  = check_date h now (Date_of_day_month_year h "/" dateString).
Proof.
  intros Hslash. unfold isValidDateOfBirth.
  rewrite (slash_not_iso _ Hslash), Hslash. reflexivity.
Qed.

(** *** The calendar *)

Lemma DayFromYear_succ (y : Z) :
  DayFromYear (y + 1) = DayFromYear y + (if InLeapYear y then 366 else 365).
Proof.
  unfold DayFromYear, InLeapYear.
  destruct (y mod 4 =? 0) eqn:E4; destruct (y mod 100 =? 0) eqn:E100;
    destruct (y mod 400 =? 0) eqn:E400; cbn [andb orb negb];
    rewrite ?Z.eqb_eq, ?Z.eqb_neq in *;
    Z.div_mod_to_equations; lia.
Qed.

Lemma DayFromYear_mono (y y' : Z) : y <= y' -> DayFromYear y <= DayFromYear y'.
Proof.
  unfold DayFromYear. intros H. Z.div_mod_to_equations. lia.
Qed.

Lemma YearFromDay_lower (d : Z) : DayFromYear (YearFromDay d) <= d.
Proof.
  unfold YearFromDay.
  destruct (Z.leb_spec (DayFromYear (1970 + 400 * d / 146097 + 1)) d) as [H1|H1]; [exact H1|].
  destruct (Z.ltb_spec d (DayFromYear (1970 + 400 * d / 146097))) as [H2|H2]; [|exact H2].
  unfold DayFromYear in *. Z.div_mod_to_equations. lia.
Qed.

Lemma YearFromDay_upper (d : Z) : d < DayFromYear (YearFromDay d + 1).
Proof.
  unfold YearFromDay.
  destruct (Z.leb_spec (DayFromYear (1970 + 400 * d / 146097 + 1)) d) as [H1|H1].
  - unfold DayFromYear in *. Z.div_mod_to_equations. lia.
  - destruct (Z.ltb_spec d (DayFromYear (1970 + 400 * d / 146097))) as [H2|H2].
    + replace (1970 + 400 * d / 146097 - 1 + 1) with (1970 + 400 * d / 146097) by lia.
      exact H2.
    + exact H1.
Qed.

Ltac month_cases m :=
  let H := fresh in
  assert (H : m = 0 \/ m = 1 \/ m = 2 \/ m = 3 \/ m = 4 \/ m = 5 \/ m = 6
              \/ m = 7 \/ m = 8 \/ m = 9 \/ m = 10 \/ m = 11) by lia;
  destruct H as [-> | [-> | [-> | [-> | [-> | [-> | [-> | [-> | [-> | [-> | [-> | ->]]]]]]]]]]].

Lemma day_within_year (d : Z) :
  0 <= DayWithinYear d < (if InLeapYear (YearFromDay d) then 366 else 365).
Proof.
  unfold DayWithinYear.
  pose proof (YearFromDay_lower d). pose proof (YearFromDay_upper d) as U.
  rewrite DayFromYear_succ in U. lia.
Qed.

Lemma month_search_spec (leap : bool) (n : Z) (fuel : nat) (m : Z) :
  0 <= m -> m + Z.of_nat fuel = 11 ->
  DaysBeforeMonth leap m <= n < DaysBeforeMonth leap 12 ->
  m <= month_search leap n fuel m <= 11
  /\ DaysBeforeMonth leap (month_search leap n fuel m) <= n
     < DaysBeforeMonth leap (month_search leap n fuel m + 1).
Proof.
  revert m; induction fuel as [|fuel IH]; intros m Hm Hf Hn; cbn [month_search].
  - replace m with 11 in * by lia. change (11 + 1) with 12. lia.
  - destruct (Z.ltb_spec n (DaysBeforeMonth leap (m + 1))) as [H|H]; [lia|].
    assert (G : m + 1 <= month_search leap n fuel (m + 1) <= 11
                /\ DaysBeforeMonth leap (month_search leap n fuel (m + 1)) <= n
                   < DaysBeforeMonth leap (month_search leap n fuel (m + 1) + 1)).
    { apply IH; lia. }
    lia.
Qed.

Lemma month_from_day (d : Z) :
  0 <= MonthFromDay d <= 11
  /\ DaysBeforeMonth (InLeapYear (YearFromDay d)) (MonthFromDay d) <= DayWithinYear d
     < DaysBeforeMonth (InLeapYear (YearFromDay d)) (MonthFromDay d + 1).
Proof.
  pose proof (day_within_year d) as R. unfold MonthFromDay.
  apply month_search_spec; [lia | lia |].
  destruct (InLeapYear (YearFromDay d)).
  - change (DaysBeforeMonth true 0) with 0. change (DaysBeforeMonth true 12) with 366.
    lia.
  - change (DaysBeforeMonth false 0) with 0. change (DaysBeforeMonth false 12) with 365.
    lia.
Qed.

Ltac table :=
  repeat match goal with
         | |- context [DaysBeforeMonth ?l ?m] =>
             progress (let v := eval vm_compute in (DaysBeforeMonth l m) in
                       change (DaysBeforeMonth l m) with v)
         | H : context [DaysBeforeMonth ?l ?m] |- _ =>
             progress (let v := eval vm_compute in (DaysBeforeMonth l m) in
                       change (DaysBeforeMonth l m) with v in H)
         end.

Lemma civil_of_day (d : Z) :
  0 <= MonthFromDay d <= 11
  /\ 1 <= DateFromDay d <= DaysInMonth (InLeapYear (YearFromDay d)) (MonthFromDay d)
  /\ MakeDay (YearFromDay d) (MonthFromDay d) (DateFromDay d) = d.
Proof.
  pose proof (month_from_day d) as (Hm & Hlo & Hhi).
  split; [exact Hm|]. unfold DateFromDay, DaysInMonth. split; [lia|].
  unfold MakeDay.
  rewrite Z.div_small, Z.mod_small by lia.
  unfold DayWithinYear in *. rewrite Z.add_0_r. lia.
Qed.

Lemma MakeDay_in_year (y m d : Z) :
  0 <= m <= 11 -> 1 <= d <= DaysInMonth (InLeapYear y) m ->
  MakeDay y m d = DayFromYear y + DaysBeforeMonth (InLeapYear y) m + d - 1
  /\ DayFromYear y <= MakeDay y m d < DayFromYear (y + 1).
Proof.
  intros Hm Hd. unfold MakeDay.
  rewrite Z.div_small, Z.mod_small by lia. rewrite Z.add_0_r.
  split; [reflexivity|]. rewrite DayFromYear_succ.
  unfold DaysInMonth in Hd.
  month_cases m; destruct (InLeapYear y); table; lia.
Qed.

Lemma DaysInMonth_bound (leap : bool) (m : Z) : 0 <= m <= 11 -> 28 <= DaysInMonth leap m <= 31.
Proof.
  intros Hm. unfold DaysInMonth. month_cases m; destruct leap; table; lia.
Qed.

Lemma Date_of_iso_valid (s : string) :
  let '(y, m, d) := iso_fields s in
  valid_date y m d ->
  Date_of_iso s = Some (MakeDate (MakeDay y (m - 1) d) 0).
Proof.
  unfold iso_fields, valid_date, Date_of_iso. intros [Hm Hd].
  pose proof (DaysInMonth_bound
                (InLeapYear (number_of_digits (slice 0 4 s)))
                (number_of_digits (slice 5 2 s) - 1)).
  destruct (Z.leb_spec 1 (number_of_digits (slice 5 2 s))); [|lia].
  destruct (Z.leb_spec (number_of_digits (slice 5 2 s)) 12); [|lia].
  destruct (Z.leb_spec 1 (number_of_digits (slice 8 2 s))); [|lia].
  destruct (Z.leb_spec (number_of_digits (slice 8 2 s)) 31); [|lia].
  reflexivity.
Qed.

Lemma DaysBeforeMonth_mono (leap : bool) (m m' : Z) :
  0 <= m <= m' -> m' <= 12 -> DaysBeforeMonth leap m <= DaysBeforeMonth leap m'.
Proof.
  intros Hm Hm'.
  assert (G : forall (k : nat) (i : Z),
             0 <= i -> i + Z.of_nat k <= 12 ->
             DaysBeforeMonth leap i <= DaysBeforeMonth leap (i + Z.of_nat k)).
  { induction k as [|k IH]; intros i Hi Hk.
    - rewrite Z.add_0_r. lia.
    - rewrite Nat2Z.inj_succ in *.
      replace (i + Z.succ (Z.of_nat k)) with (i + 1 + Z.of_nat k) by lia.
      pose proof (DaysInMonth_bound leap i ltac:(lia)) as B. unfold DaysInMonth in B.
      specialize (IH (i + 1) ltac:(lia) ltac:(lia)). lia. }
  replace m' with (m + Z.of_nat (Z.to_nat (m' - m))) by lia.
  apply G; lia.
Qed.

(** Day numbers follow the order of calendar dates; the later date may
    have a day beyond the end of its month. *)
Lemma MakeDay_earlier (y m d y' m' d' : Z) :
  0 <= m <= 11 -> 1 <= d <= DaysInMonth (InLeapYear y) m ->
  0 <= m' <= 11 -> 1 <= d' ->
  earlier (y, m, d) (y', m', d') ->
  MakeDay y m d < MakeDay y' m' d'.
Proof.
  intros Hm Hd Hm' Hd' He.
  destruct (MakeDay_in_year y m d Hm Hd) as [E [_ Hup]].
  assert (E' : MakeDay y' m' d'
               = DayFromYear y' + DaysBeforeMonth (InLeapYear y') m' + d' - 1).
  { unfold MakeDay. rewrite Z.div_small, Z.mod_small by lia.
    rewrite Z.add_0_r. reflexivity. }
  pose proof (DaysBeforeMonth_mono (InLeapYear y') 0 m' ltac:(lia) ltac:(lia)) as P.
  change (DaysBeforeMonth (InLeapYear y') 0) with 0 in P.
  cbn [earlier] in He. destruct He as [Hy | [<- Hmd]].
  - pose proof (DayFromYear_mono (y + 1) y' ltac:(lia)). lia.
  - rewrite E, E'. unfold DaysInMonth in Hd.
    destruct Hmd as [Hlt | [<- Hlt]]; [|lia].
    pose proof (DaysBeforeMonth_mono (InLeapYear y) (m + 1) m' ltac:(lia) ltac:(lia)).
    lia.
Qed.

Lemma TimeWithinDay_range (t : Z) : 0 <= TimeWithinDay t < msPerDay.
Proof. unfold TimeWithinDay, msPerDay. apply Z.mod_pos_bound. lia. Qed.

(** The first half of C4 holds: a valid ISO date whose eighteenth
    anniversary lies before today is accepted (in any zone less than a
    day east of UTC). *)
Lemma isValidDateOfBirth_accepts_adults
    (h : host) (now : Z) (dateString : string) (y m d : Z) :
  LocalTZA h < msPerDay ->
  test isoRegex dateString = true ->
  iso_fields dateString = (y, m, d) ->
  valid_date y m d ->
  earlier (y + 18, m, d) (today h now) ->
  isValidDateOfBirth h now dateString = true.
Proof.
  intros Hz Htest Hf Hv He.
  pose proof (Date_of_iso_valid dateString) as Hiso. rewrite Hf in Hiso.
  specialize (Hiso Hv).
  unfold isValidDateOfBirth. rewrite Htest, Hiso. unfold check_date.
  unfold today, YearFromTime, MonthFromTime, DateFromTime in He.
  unfold start_of_today, years_ago, YearFromTime, MonthFromTime, DateFromTime.
  pose proof (TimeWithinDay_range (now + LocalTZA h)) as Ht.
  set (D := Day (now + LocalTZA h)) in *.
  destruct (civil_of_day D) as (Hm & Hd & Hmk).
  destruct Hv as [Hvm Hvd].
  assert (K1 : MakeDay y (m - 1) d < MakeDay (YearFromDay D) (MonthFromDay D) (DateFromDay D)).
  { apply MakeDay_earlier; try lia. cbn [earlier] in *. lia. }
  assert (K2 : MakeDay y (m - 1) d
               < MakeDay (YearFromDay D - 18) (MonthFromDay D) (DateFromDay D)).
  { apply MakeDay_earlier; try lia. cbn [earlier] in *. lia. }
  rewrite Hmk in K1. unfold MakeDate, msPerDay in *.
  destruct (Z.leb_spec (D * 86400000 + 0 - LocalTZA h)
                       (MakeDay y (m - 1) d * 86400000 + 0)); [lia|].
  destruct (Z.ltb_spec
              (MakeDay (YearFromDay D - 18) (MonthFromDay D) (DateFromDay D) * 86400000
               + TimeWithinDay (now + LocalTZA h) - LocalTZA h)
              (MakeDay y (m - 1) d * 86400000 + 0)); [lia|].
  reflexivity.
Qed.

(** The second half of C4 holds on every day but 29 February: a valid
    ISO date whose eighteenth anniversary lies after today is rejected
    (in UTC and east of it). *)
Lemma isValidDateOfBirth_rejects_minors
    (h : host) (now : Z) (dateString : string) (y m d : Z) :
  0 <= LocalTZA h ->
  test isoRegex dateString = true ->
  iso_fields dateString = (y, m, d) ->
  valid_date y m d ->
  earlier (today h now) (y + 18, m, d) ->
  (forall year, today h now <> (year, 2, 29)) ->
  isValidDateOfBirth h now dateString = false.
Proof.
  intros Hz Htest Hf Hv He Hleap.
  pose proof (Date_of_iso_valid dateString) as Hiso. rewrite Hf in Hiso.
  specialize (Hiso Hv).
  unfold isValidDateOfBirth. rewrite Htest, Hiso. unfold check_date.
  unfold today, YearFromTime, MonthFromTime, DateFromTime in He, Hleap.
  unfold start_of_today, years_ago, YearFromTime, MonthFromTime, DateFromTime.
  pose proof (TimeWithinDay_range (now + LocalTZA h)) as Ht.
  set (D := Day (now + LocalTZA h)) in *.
  destruct (civil_of_day D) as (Hm & Hd & _).
  destruct Hv as [Hvm Hvd].
  assert (Hd18 : DateFromDay D
                 <= DaysInMonth (InLeapYear (YearFromDay D - 18)) (MonthFromDay D)).
  { assert (N : ~ (MonthFromDay D = 1 /\ DateFromDay D = 29)).
    { intros [N1 N2]. apply (Hleap (YearFromDay D)). rewrite N1, N2. reflexivity. }
    revert Hd N. unfold DaysInMonth.
    generalize (DateFromDay D). intros dt.
    month_cases (MonthFromDay D);
      destruct (InLeapYear (YearFromDay D)), (InLeapYear (YearFromDay D - 18));
      table; lia. }
  assert (K : MakeDay (YearFromDay D - 18) (MonthFromDay D) (DateFromDay D)
              < MakeDay y (m - 1) d).
  { apply MakeDay_earlier; try lia. cbn [earlier] in *. lia. }
  unfold MakeDate, msPerDay in *.
  destruct (Z.leb_spec (D * 86400000 + 0 - LocalTZA h)
                       (MakeDay y (m - 1) d * 86400000 + 0)); [reflexivity|].
  destruct (Z.ltb_spec
              (MakeDay (YearFromDay D - 18) (MonthFromDay D) (DateFromDay D) * 86400000
               + TimeWithinDay (now + LocalTZA h) - LocalTZA h)
              (MakeDay y (m - 1) d * 86400000 + 0)); [reflexivity|lia].
Qed.

(** C4, on the code: on 29 February 2024 (noon UTC) the birth date
    2006-03-01 is accepted, although the eighteenth birthday, 1 March
    2024, is the next day.  [setFullYear(2006)] on 29 February carries
    over to 1 March 2006. *)
Theorem isValidDateOfBirth_accepts_minor_on_leap_day
    (legacy : string -> option Z) (parse : string -> option json) :
  let h := MkHost 0 legacy parse in
  let now := MakeDate (MakeDay 2024 1 29) (12 * 3600000) in
  isValidDateOfBirth h now "2006-03-01" = true
  /\ (YearFromTime now, MonthFromTime now + 1, DateFromTime now) = (2024, 2, 29)
  /\ Date_of_iso "2006-03-01" = Some (MakeDate (MakeDay 2006 2 1) 0)
  /\ years_ago h 18 now = MakeDate (MakeDay 2006 2 1) (12 * 3600000)
  /\ Day now < MakeDay (2006 + 18) 2 1.
Proof. vm_compute. repeat split. Qed.

(** ** One extracted entry *)

Lemma null_field (k : string) (o : object) :
  hasOwnProperty k o = true -> not_null (obj_get k o) = false ->
  obj_get k o = Some VNull.
Proof.
  unfold hasOwnProperty. destruct (obj_get k o) as [[| |]|]; simpl; congruence.
Qed.

Lemma store_entry_effect (h : host) (now : Z) (sd : object) (key : string) (raw : json) :
  entry_effect sd key (store_entry h now sd (key, raw)).
Proof.
  assert (Hbody :
    forall value : string,
      entry_effect sd key
        (if negb (hasOwnProperty key sd) then sd
         else if not_null (obj_get key sd) then sd
         else
           if String.eqb key "email" then
             if isValidEmail value
             then obj_set "emailConfirmed" (VBool true) (obj_set key (VStr value) sd)
             else sd
           else if String.eqb key "phoneNumber" then
             if isValidPhoneNumber value then obj_set key (VStr value) sd else sd
           else if String.eqb key "dateOfBirth" then
             if isValidDateOfBirth h now value
             then obj_set "dobConfirmed" (VBool true) (obj_set key (VStr value) sd)
             else sd
           else if String.eqb key "firstName" || String.eqb key "lastName"
                   || String.eqb key "middleName" || String.eqb key "spouseName" then
             if isValidName value then obj_set key (VStr value) sd else sd
           else if String.eqb key "emergencyContact" then
             if (3 <=? String.length value)%nat then obj_set key (VStr value) sd else sd
           else if String.eqb key "yearsOfExperience" then
             match match_digits value with
             | Some numMatch => obj_set key (VStr numMatch) sd
             | None =>
                 if negb (isNaN_without_digits value)
                 then obj_set key (VStr value) sd
                 else sd
             end
           else
             if (0 <? String.length value)%nat then obj_set key (VStr value) sd else sd)).
  { intros value.
    destruct (hasOwnProperty key sd) eqn:Hown; cbn [negb]; [|constructor].
    destruct (not_null (obj_get key sd)) eqn:Hnn; [constructor|].
    pose proof (null_field _ _ Hown Hnn) as Hnull.
    destruct (String.eqb key "email") eqn:Eemail.
    { apply String.eqb_eq in Eemail; subst key.
      destruct (isValidEmail value); [|constructor].
      apply effect_email; [reflexivity | exact Hnull]. }
    assert (Hne : key <> "email").
    { intros ->. discriminate Eemail. }
    destruct (String.eqb key "phoneNumber") eqn:Ephone.
    { destruct (isValidPhoneNumber value); [|constructor].
      apply String.eqb_eq in Ephone; subst key.
      apply effect_plain; [exact Hnull | discriminate | discriminate]. }
    destruct (String.eqb key "dateOfBirth") eqn:Edob.
    { apply String.eqb_eq in Edob; subst key.
      destruct (isValidDateOfBirth h now value); [|constructor].
      apply effect_dob; [reflexivity | exact Hnull]. }
    assert (Hnd : key <> "dateOfBirth").
    { intros ->. discriminate Edob. }
    destruct (_ || _).
    { destruct (isValidName value); [|constructor].
      apply effect_plain; assumption. }
    destruct (String.eqb key "emergencyContact").
    { destruct (_ <=? _)%nat; [|constructor]. apply effect_plain; assumption. }
    destruct (String.eqb key "yearsOfExperience").
    { destruct (match_digits value); [apply effect_plain; assumption|].
      destruct (negb _); [|constructor]. apply effect_plain; assumption. }
    destruct (_ <? _)%nat; [|constructor]. apply effect_plain; assumption. }
  unfold store_entry.
  destruct raw; [constructor | apply Hbody ..].
Qed.

Lemma store_entry_unknown (h : host) (now : Z) (sd : object) (key : string) (raw : json) :
  hasOwnProperty key sd = false -> store_entry h now sd (key, raw) = sd.
Proof.
  intros H. unfold store_entry. rewrite H. destruct raw; reflexivity.
Qed.

Lemma filter_count_set (f : value -> bool) (k : string) (w : value) (o : object) :
  f w = true ->
  (length (List.filter f (map snd o))
   <= length (List.filter f (map snd (obj_set k w o))))%nat.
Proof.
  intros Hw.
  induction o as [|[k0 v0] o IH]; cbn [obj_set map snd List.filter length].
  - lia.
  - destruct (String.eqb k k0); cbn [map snd List.filter].
    + rewrite Hw. destruct (f v0); cbn [length]; lia.
    + destruct (f v0); cbn [length]; lia.
Qed.

Lemma completed_count_set (k : string) (w : value) (o : object) :
  w <> VNull -> completed_count o <= completed_count (obj_set k w o).
Proof.
  intros Hw. unfold completed_count, Object_values.
  apply inj_le, filter_count_set.
  destruct w; [contradiction | reflexivity | reflexivity].
Qed.

Lemma kept_refl (sd : object) : kept sd sd.
Proof. intros k v H _. left; exact H. Qed.

Lemma kept_trans (sd1 sd2 sd3 : object) :
  kept sd1 sd2 -> kept sd2 sd3 -> kept sd1 sd3.
Proof.
  intros H12 H23 k v Hk Hv.
  destruct (H12 k v Hk Hv) as [H2 | [Hflag H2]].
  - exact (H23 k v H2 Hv).
  - destruct (H23 k (VBool true) H2) as [H3 | [_ H3]]; [discriminate | |];
      right; split; assumption.
Qed.

Lemma evolves_refl (sd : object) : evolves sd sd.
Proof. split; [reflexivity | apply kept_refl | lia]. Qed.

Lemma evolves_trans (sd1 sd2 sd3 : object) :
  evolves sd1 sd2 -> evolves sd2 sd3 -> evolves sd1 sd3.
Proof.
  intros [K1 P1 C1] [K2 P2 C2]. split.
  - congruence.
  - eapply kept_trans; eassumption.
  - lia.
Qed.

Lemma kept_set_null (k : string) (w : value) (sd : object) :
  obj_get k sd = Some VNull -> kept sd (obj_set k w sd).
Proof.
  intros Hnull k' v Hk Hv. left.
  rewrite obj_get_set.
  destruct (String.eqb k' k) eqn:E; [|exact Hk].
  apply String.eqb_eq in E; subst k'. congruence.
Qed.

Lemma kept_set_flag (k : string) (sd : object) :
  k = "emailConfirmed" \/ k = "dobConfirmed" ->
  kept sd (obj_set k (VBool true) sd).
Proof.
  intros Hflag k' v Hk Hv.
  rewrite obj_get_set.
  destruct (String.eqb k' k) eqn:E.
  - apply String.eqb_eq in E; subst k'. right. split; [exact Hflag | reflexivity].
  - left; exact Hk.
Qed.

Lemma has_property_of_get (k : string) (v : value) (o : object) :
  obj_get k o = Some v -> hasOwnProperty k o = true.
Proof. unfold hasOwnProperty. intros ->. reflexivity. Qed.

Lemma entry_effect_evolves (sd sd' : object) (key : string) :
  flags_present sd -> entry_effect sd key sd' -> evolves sd sd'.
Proof.
  intros [Femail Fdob] [ | s Hnull _ _ | s -> Hnull | s -> Hnull].
  - apply evolves_refl.
  - split.
    + apply obj_set_keys. eapply has_property_of_get, Hnull.
    + apply kept_set_null, Hnull.
    + apply completed_count_set. discriminate.
  - pose proof (has_property_of_get _ _ _ Hnull) as Hown.
    apply evolves_trans with (obj_set "email" (VStr s) sd); split.
    + apply obj_set_keys, Hown.
    + apply kept_set_null, Hnull.
    + apply completed_count_set. discriminate.
    + apply obj_set_keys, hasOwnProperty_set, Femail, Hown.
    + apply kept_set_flag. left; reflexivity.
    + apply completed_count_set. discriminate.
  - pose proof (has_property_of_get _ _ _ Hnull) as Hown.
    apply evolves_trans with (obj_set "dateOfBirth" (VStr s) sd); split.
    + apply obj_set_keys, Hown.
    + apply kept_set_null, Hnull.
    + apply completed_count_set. discriminate.
    + apply obj_set_keys, hasOwnProperty_set, Fdob, Hown.
    + apply kept_set_flag. right; reflexivity.
    + apply completed_count_set. discriminate.
Qed.

Lemma flags_present_keys (sd sd' : object) :
  Object_keys sd' = Object_keys sd -> flags_present sd -> flags_present sd'.
Proof.
  intros K [F1 F2]. unfold flags_present.
  rewrite !(hasOwnProperty_keys _ _ _ K). split; assumption.
Qed.

Lemma store_entries_evolve (h : host) (now : Z) (entries : list (string * json))
    (sd : object) :
  flags_present sd -> evolves sd (fold_left (store_entry h now) entries sd).
Proof.
  revert sd; induction entries as [|[key raw] entries IH]; intros sd F.
  - apply evolves_refl.
  - cbn [fold_left].
    pose proof (entry_effect_evolves _ _ _ F (store_entry_effect h now sd key raw)) as E.
    eapply evolves_trans; [exact E|].
    apply IH. eapply flags_present_keys; [apply (ev_keys _ _ E) | exact F].
Qed.


Lemma store_entries_unknown (h : host) (now : Z) (entries : list (string * json))
    (sd : object) :
  Forall (fun e => hasOwnProperty (fst e) sd = false) entries ->
  fold_left (store_entry h now) entries sd = sd.
Proof.
  induction 1 as [|[key raw] entries Hown _ IH]; [reflexivity|].
  cbn [fold_left]. rewrite store_entry_unknown by exact Hown. exact IH.
Qed.

(** ** The agent as a whole *)

Lemma section_data_with_other (s s' : section_name) (o : object) (cd : collected) :
  s' <> s -> section_data s' (with_section_data s o cd) = section_data s' cd.
Proof. destruct s, s'; intros H; try reflexivity; contradiction. Qed.

Lemma with_current_data_same (a : agent) : with_current_data (current_data a) a = a.
Proof. destruct a as [[p e f g] [] c]; reflexivity. Qed.

Lemma section_name_eq_dec (s s' : section_name) : {s = s'} + {s <> s'}.
Proof. decide equality. Qed.

Lemma schema_flags_present (a : agent) (s : section_name) :
  has_schema a -> flags_present (section_data s (collectedData a)).
Proof.
  intros H. unfold flags_present.
  rewrite !(hasOwnProperty_keys _ _ _ (H s)).
  destruct s; split; intros E; try reflexivity; discriminate E.
Qed.

Lemma grows_refl (a : agent) : has_schema a -> grows a a.
Proof. intros H; split; [exact H | intros s; apply evolves_refl]. Qed.

Lemma grows_trans (a1 a2 a3 : agent) : grows a1 a2 -> grows a2 a3 -> grows a1 a3.
Proof.
  intros [_ E12] [H3 E23]. split; [exact H3|].
  intros s. eapply evolves_trans; [apply E12 | apply E23].
Qed.

Lemma with_current_data_grows (a : agent) (o : object) :
  has_schema a -> evolves (current_data a) o -> grows a (with_current_data o a).
Proof.
  intros H E. unfold grows, has_schema, with_current_data, current_data in *.
  cbn [collectedData].
  assert (G : forall s, evolves (section_data s (collectedData a))
                          (section_data s (with_section_data (currentSection a) o
                                                             (collectedData a)))).
  { intros s. destruct (section_name_eq_dec s (currentSection a)) as [->|Hne].
    - rewrite section_data_with_same. exact E.
    - rewrite section_data_with_other by exact Hne. apply evolves_refl. }
  split; [|exact G].
  intros s. rewrite (ev_keys _ _ (G s)). apply H.
Qed.

Lemma validateAndStore_grows (h : host) (now : Z) (extractedData : json) (a : agent) :
  has_schema a ->
  grows a (state_after (validateAndStoreExtractedData h now extractedData a) a).
Proof.
  intros H. unfold validateAndStoreExtractedData.
  destruct (Object_entries extractedData) as [entries|]; cbn.
  - apply with_current_data_grows; [exact H|].
    apply store_entries_evolve, schema_flags_present, H.
  - apply grows_refl, H.
Qed.

Lemma updateWithLLM_cases (h : host) (now : Z) (reply : completion) (a : agent) :
  updateCollectedDataWithLLM h now reply a = Ok a
  \/ exists extractedData a',
       validateAndStoreExtractedData h now extractedData a = Ok a'
       /\ updateCollectedDataWithLLM h now reply a = Ok a'.
Proof.
  unfold updateCollectedDataWithLLM.
  destruct (_ =? _)%nat; [left; reflexivity|].
  destruct reply as [|content]; [left; reflexivity|].
  cbn [bind]. destruct (parse_extracted h (trim content)) as [j|e]; cbn [bind].
  - destruct (validateAndStoreExtractedData h now j a) as [a'|e] eqn:E.
    + right. exists j, a'. split; [exact E | reflexivity].
    + left; reflexivity.
  - left; reflexivity.
Qed.

Lemma apply_operation_grows (h : host) (op : operation) (a : agent) :
  has_schema a -> grows a (apply_operation h op a).
Proof.
  intros H. destruct op as [now j | now reply |]; cbn [apply_operation].
  - apply validateAndStore_grows, H.
  - destruct (updateWithLLM_cases h now reply a) as [-> | (j & a' & E & ->)].
    + apply grows_refl, H.
    + pose proof (validateAndStore_grows h now j a H) as G.
      rewrite E in G. exact G.
  - split.
    + intros s. rewrite moveToNextSection_collectedData. apply H.
    + intros s. rewrite moveToNextSection_collectedData. apply evolves_refl.
Qed.

Lemma apply_operations_grows (h : host) (ops : list operation) (a : agent) :
  has_schema a -> grows a (apply_operations h ops a).
Proof.
  unfold apply_operations.
  revert a; induction ops as [|op ops IH]; intros a H; cbn [fold_left].
  - apply grows_refl, H.
  - pose proof (apply_operation_grows h op a H) as G.
    eapply grows_trans; [exact G|]. apply IH, G.
Qed.

Lemma grows_percentage (a a' : agent) :
  has_schema a -> grows a a' ->
  percent_le (getCompletionPercentage a) (getCompletionPercentage a').
Proof.
  intros H [H' G].
  destruct (schema_percentage a H) as [_ ->].
  destruct (schema_percentage a' H') as [_ ->].
  pose proof (G personal) as [_ _ C1].
  pose proof (G educational) as [_ _ C2].
  pose proof (G professional) as [_ _ C3].
  pose proof (G family) as [_ _ C4].
  cbn [section_data percent_le] in *.
  apply round_percent_mono; lia.
Qed.

Lemma grows_nothing_cleared (a a' : agent) :
  grows a a' -> nothing_cleared (collectedData a) (collectedData a').
Proof.
  intros [_ G] s k v Hk Hv.
  destruct (ev_kept _ _ (G s) k v Hk Hv) as [E | [_ E]].
  - exists v. split; assumption.
  - exists (VBool true). split; [exact E | discriminate].
Qed.

(** C5: over any sequence of [validateAndStoreExtractedData],
    [updateCollectedDataWithLLM] and [moveToNextSection] calls on an agent
    with the constructor's fields, [getCompletionPercentage] never
    decreases from one point of the sequence to a later one, and no field
    that is not [null] becomes [null]. *)
Theorem getCompletionPercentage_never_decreases
    (h : host) (a : agent) (earlier later : list operation) :
  has_schema a ->
  percent_le (getCompletionPercentage (apply_operations h earlier a))
             (getCompletionPercentage (apply_operations h (earlier ++ later) a))
  /\ nothing_cleared (collectedData (apply_operations h earlier a))
                     (collectedData (apply_operations h (earlier ++ later) a)).
Proof.
  intros H.
  assert (E : apply_operations h (earlier ++ later) a
              = apply_operations h later (apply_operations h earlier a)).
  { unfold apply_operations. apply fold_left_app. }
  rewrite E.
  pose proof (apply_operations_grows h earlier a H) as [H1 _].
  pose proof (apply_operations_grows h later _ H1) as G.
  split; [apply grows_percentage; [exact H1 | exact G] | apply grows_nothing_cleared, G].
Qed.

Lemma new_agent_has_schema (now : Z) : has_schema (new_agent now).
Proof. intros s. reflexivity. Qed.

Lemma getCompletionPercentage_never_decreases_witness :
  has_schema (new_agent 0)
  /\ (percent_le
        (getCompletionPercentage
           (apply_operations strict_host
              [OpValidateAndStore 1700000000000 (JObj [("firstName", JStr "John")])]
              (new_agent 0)))
        (getCompletionPercentage
           (apply_operations strict_host
              ([OpValidateAndStore 1700000000000 (JObj [("firstName", JStr "John")])]
               ++ [OpUpdateWithLLM 1700000000000 Rejected; OpMoveToNextSection;
                   OpValidateAndStore 1700000000000 (JObj [("university", JStr "MIT")])])
              (new_agent 0)))
      /\ nothing_cleared
           (collectedData
              (apply_operations strict_host
                 [OpValidateAndStore 1700000000000 (JObj [("firstName", JStr "John")])]
                 (new_agent 0)))
           (collectedData
              (apply_operations strict_host
                 ([OpValidateAndStore 1700000000000 (JObj [("firstName", JStr "John")])]
                  ++ [OpUpdateWithLLM 1700000000000 Rejected; OpMoveToNextSection;
                      OpValidateAndStore 1700000000000 (JObj [("university", JStr "MIT")])])
                 (new_agent 0)))).
Proof.
  split; [intros s; reflexivity|].
  apply (getCompletionPercentage_never_decreases strict_host (new_agent 0)).
  intros s; reflexivity.
Defined.

(** ** The first run of digits *)



Lemma take_drop_while (p : ascii -> bool) (l : list ascii) :
  l = (take_while p l ++ drop_while p l)%list
  /\ forallb p (take_while p l) = true
  /\ match drop_while p l with [] => True | c :: _ => p c = false end.
Proof.
  induction l as [|c l (IH1 & IH2 & IH3)]; cbn [take_while drop_while].
  - repeat split.
  - destruct (p c) eqn:E; cbn [app forallb].
    + rewrite E. repeat split; [f_equal; exact IH1 | exact IH2 | exact IH3].
    + repeat split. exact E.
Qed.


Lemma match_digits_is_run (s run : string) :
  match_digits s = Some run -> first_digit_run s run.
Proof.
  unfold match_digits, first_digit_run.
  pose proof (take_drop_while (fun c => negb (is_digit c)) (chars s)) as (E & Hb & Hf).
  destruct (drop_while (fun c => negb (is_digit c)) (chars s)) as [|c rest] eqn:D;
    [discriminate|].
  intros [= <-].
  pose proof (take_drop_while is_digit (c :: rest)) as (E' & Hr & Ha).
  exists (take_while (fun c => negb (is_digit c)) (chars s)),
         (drop_while is_digit (c :: rest)).
  apply negb_false_iff in Hf.
  unfold of_chars, chars in *. rewrite list_ascii_of_string_of_list_ascii.
  repeat split.
  - cbn [take_while] in E'. rewrite <- E'. exact E.
  - exact Hb.
  - cbn [take_while]. rewrite Hf. discriminate.
  - exact Hr.
  - exact Ha.
Qed.


Lemma digits_or_none (s : string) : (exists run, first_digit_run s run) \/ no_digit s.
Proof.
  destruct (match_digits s) as [run|] eqn:E.
  - left. exists run. apply match_digits_is_run, E.
  - right. unfold match_digits, no_digit in *.
    pose proof (take_drop_while (fun c => negb (is_digit c)) (chars s)) as (E' & Hb & _).
    destruct (drop_while _ (chars s)); [|discriminate].
    rewrite app_nil_r in E'. rewrite E'. exact Hb.
Qed.


(** ** The contract of [validateAndStoreExtractedData] *)




Example sample_entries_stored :
  validateAndStoreExtractedData strict_host 0 (JObj sample_entries) (new_agent 0)
  = Ok (with_current_data
          (obj_set "emailConfirmed" (VBool true)
             (obj_set "email" (VStr "a@b.co") (current_data (new_agent 0))))
          (new_agent 0)).
Proof. reflexivity. Qed.

Example yearsOfExperience_about_5_years :
  obj_get "yearsOfExperience"
    (store_entry strict_host 0 (professional_data initial_collectedData)
                 ("yearsOfExperience", JStr "about 5 years"))
  = Some (VStr "5").
Proof. reflexivity. Qed.

(** ** The confirmation flags *)

Lemma entry_effect_flags (p p' : object) (key : string) :
  entry_effect p key p' ->
  flags_are_booleans p /\ flags_confirm p ->
  flags_are_booleans p' /\ flags_confirm p'.
Proof.
  intros E [[[b1 B1] [b2 B2]] [C1 C2]].
  destruct E as [ | s Hnull Hne Hnd | s -> Hnull | s -> Hnull].
  - repeat split; eauto.
  - assert (N1 : "emailConfirmed" <> key) by (intros <-; congruence).
    assert (N2 : "dobConfirmed" <> key) by (intros <-; congruence).
    assert (N3 : "email" <> key) by congruence.
    assert (N4 : "dateOfBirth" <> key) by congruence.
    unfold flags_are_booleans, flags_confirm.
    rewrite !(obj_get_set_neq _ _ _ _ N1), !(obj_get_set_neq _ _ _ _ N2),
            !(obj_get_set_neq _ _ _ _ N3), !(obj_get_set_neq _ _ _ _ N4).
    repeat split; eauto.
  - unfold flags_are_booleans, flags_confirm.
    rewrite !obj_get_set. cbn [String.eqb Ascii.eqb Bool.eqb andb].
    repeat split; eauto.
  - unfold flags_are_booleans, flags_confirm.
    rewrite !obj_get_set. cbn [String.eqb Ascii.eqb Bool.eqb andb].
    repeat split; eauto.
Qed.

Lemma store_entries_flags (h : host) (now : Z) (entries : list (string * json))
    (p : object) :
  flags_are_booleans p /\ flags_confirm p ->
  flags_are_booleans (fold_left (store_entry h now) entries p)
  /\ flags_confirm (fold_left (store_entry h now) entries p).
Proof.
  revert p; induction entries as [|[key raw] entries IH]; intros p H; cbn [fold_left].
  - exact H.
  - apply IH. eapply entry_effect_flags; [apply store_entry_effect | exact H].
Qed.

Lemma reachable_flags (h : host) (a : agent) :
  reachable h a ->
  flags_are_booleans (personal_data (collectedData a))
  /\ flags_confirm (personal_data (collectedData a)).
Proof.
  induction 1 as [now | a now j _ IH | a _ IH].
  - cbn. split; split; eauto; intros v [= <-] Hv; contradiction.
  - unfold validateAndStoreExtractedData.
    destruct (Object_entries j) as [entries|]; cbn [of_option bind state_after];
      [|exact IH].
    unfold with_current_data, current_data. cbn [collectedData].
    destruct (section_name_eq_dec (currentSection a) personal) as [E|E].
    + rewrite E. cbn [with_section_data section_data personal_data].
      apply store_entries_flags, IH.
    + change (personal_data ?cd) with (section_data personal cd).
      rewrite section_data_with_other by congruence. exact IH.
  - rewrite moveToNextSection_collectedData. exact IH.
Qed.

(** C10: in every agent reached from a new one by
    [validateAndStoreExtractedData] and [moveToNextSection] calls, an
    [email] that is not [null] comes with [emailConfirmed = true], and a
    [dateOfBirth] that is not [null] with [dobConfirmed = true]. *)
Theorem confirmation_flags_follow_values (h : host) (a : agent) :
  reachable h a ->
  (forall v, obj_get "email" (personal_data (collectedData a)) = Some v ->
             v <> VNull ->
             obj_get "emailConfirmed" (personal_data (collectedData a))
             = Some (VBool true))
  /\ (forall v, obj_get "dateOfBirth" (personal_data (collectedData a)) = Some v ->
                v <> VNull ->
                obj_get "dobConfirmed" (personal_data (collectedData a))
                = Some (VBool true)).
Proof.
  intros R. exact (proj2 (reachable_flags h a R)).
Qed.

Lemma confirmation_flags_follow_values_witness :
  reachable strict_host
    (snd (moveToNextSection
            (state_after
               (validateAndStoreExtractedData strict_host 0 (JObj sample_entries)
                                              (new_agent 0))
               (new_agent 0))))
  /\ obj_get "emailConfirmed"
       (personal_data
          (collectedData
             (snd (moveToNextSection
                     (state_after
                        (validateAndStoreExtractedData strict_host 0
                           (JObj sample_entries) (new_agent 0))
                        (new_agent 0))))))
     = Some (VBool true).
Proof.
  assert (R : reachable strict_host
                (snd (moveToNextSection
                        (state_after
                           (validateAndStoreExtractedData strict_host 0
                              (JObj sample_entries) (new_agent 0))
                           (new_agent 0))))).
  { apply reachable_move, reachable_store, reachable_new. }
  split; [exact R|].
  apply (proj1 (confirmation_flags_follow_values strict_host _ R) (VStr "a@b.co")).
  - reflexivity.
  - discriminate.
Defined.

(** ** Array indices are no field names *)

Lemma digit_char_is_digit (m : nat) : (m < 10)%nat -> is_digit (digit_char m) = true.
Proof.
  intros H. do 10 (destruct m as [|m]; [reflexivity|]). lia.
Qed.

Lemma decimal_digits_head (fuel n : nat) (acc : list ascii) :
  (fuel <> 0%nat \/ starts_with_digit (of_chars acc) = true) ->
  starts_with_digit (of_chars (decimal_digits fuel n acc)) = true.
Proof.
  revert n acc; induction fuel as [|fuel IH]; intros n acc H; cbn [decimal_digits].
  - destruct H as [H|H]; [contradiction | exact H].
  - assert (D : starts_with_digit (of_chars (digit_char (n mod 10) :: acc)) = true).
    { unfold of_chars. cbn [string_of_list_ascii starts_with_digit].
      apply digit_char_is_digit, Nat.mod_upper_bound. discriminate. }
    destruct (n <? 10)%nat; [exact D|].
    apply IH. right; exact D.
Qed.

Lemma index_key_starts_with_digit (n : nat) : starts_with_digit (index_key n) = true.
Proof. apply decimal_digits_head. left; discriminate. Qed.

Lemma indexed_keys {A : Type} (n : nat) (l : list A) :
  Forall (fun e => starts_with_digit (fst e) = true) (indexed n l).
Proof.
  revert n; induction l as [|x l IH]; intros n; cbn [indexed]; constructor.
  - apply index_key_starts_with_digit.
  - apply IH.
Qed.

Lemma digit_key_absent (k : string) (o : object) :
  starts_with_digit k = true ->
  forallb (fun key => negb (starts_with_digit key)) (Object_keys o) = true ->
  hasOwnProperty k o = false.
Proof.
  intros Hk. unfold hasOwnProperty, Object_keys.
  induction o as [|[k0 v0] o IH]; cbn [map fst forallb obj_get]; [reflexivity|].
  intros H. apply andb_true_iff in H as [H0 H].
  destruct (String.eqb k k0) eqn:E; [|apply IH, H].
  apply String.eqb_eq in E; subst k0. rewrite Hk in H0. discriminate H0.
Qed.

Lemma schema_no_digit_key (a : agent) (s : section_name) (k : string) :
  has_schema a -> starts_with_digit k = true ->
  hasOwnProperty k (section_data s (collectedData a)) = false.
Proof.
  intros H Hk. apply digit_key_absent; [exact Hk|].
  rewrite (H s). destruct s; reflexivity.
Qed.

(** ** Extraction failures *)

Lemma validateAndStore_non_object (h : host) (now : Z) (j : json) (a : agent) :
  has_schema a ->
  (forall entries, j <> JObj entries) ->
  try_catch (validateAndStoreExtractedData h now j a) (fun _ => Ok a) = Ok a.
Proof.
  intros H Hj.
  assert (Hidx : forall (l : list json),
             try_catch (Ok (with_current_data
                              (fold_left (store_entry h now) (indexed 0 l)
                                         (current_data a)) a))
                       (fun _ => Ok a) = Ok a).
  { intros l. rewrite store_entries_unknown.
    - rewrite with_current_data_same. reflexivity.
    - pose proof (indexed_keys 0 l) as K.
      induction K as [|e es He _ IHK]; constructor;
        [apply schema_no_digit_key; assumption | exact IHK]. }
  unfold validateAndStoreExtractedData.
  destruct j as [ | b | repr | s | items | entries ];
    cbn [Object_entries of_option bind].
  - reflexivity.
  - cbn [fold_left]. rewrite with_current_data_same. reflexivity.
  - cbn [fold_left]. rewrite with_current_data_same. reflexivity.
  - apply Hidx.
  - apply Hidx.
  - exfalso. exact (Hj entries eq_refl).
Qed.

Lemma validateAndStore_empty (h : host) (now : Z) (a : agent) :
  validateAndStoreExtractedData h now (JObj []) a = Ok a.
Proof.
  unfold validateAndStoreExtractedData.
  cbn [Object_entries of_option bind fold_left].
  rewrite with_current_data_same. reflexivity.
Qed.

(** C7: when the completion call fails, or [JSON.parse] reads no object
    from the trimmed content (nor, when it rejects the content, from its
    brace-delimited part), [updateCollectedDataWithLLM] returns with the
    agent as it was; and whatever the completion, the call returns and
    does not throw. *)
Theorem updateCollectedDataWithLLM_swallows_failures
    (h : host) (now : Z) (reply : completion) (a : agent) :
  has_schema a ->
  extraction_fails h reply ->
  updateCollectedDataWithLLM h now reply a = Ok a
  /\ forall (now' : Z) (reply' : completion),
       exists a', updateCollectedDataWithLLM h now' reply' a = Ok a'.
Proof.
  intros H Hreply. split.
  - unfold updateCollectedDataWithLLM.
    destruct (_ =? _)%nat; [reflexivity|].
    destruct reply as [|content]; [reflexivity|].
    destruct Hreply as [Hwhole Hpart].
    cbn [bind]. unfold parse_extracted.
    destruct (JSON_parse h (trim content)) as [j|] eqn:Ej.
    + cbn [bind]. apply validateAndStore_non_object; [exact H|].
      intros entries ->. apply Hwhole. exists entries. exact Ej.
    + destruct (match_braces (trim content)) as [m|] eqn:Em.
      * destruct (JSON_parse h m) as [j|] eqn:Ejm; cbn [of_option bind];
          [|reflexivity].
        apply validateAndStore_non_object; [exact H|].
        intros entries ->. apply (Hpart eq_refl m eq_refl). exists entries. exact Ejm.
      * cbn [bind]. rewrite validateAndStore_empty. reflexivity.
  - intros now' reply'.
    destruct (updateWithLLM_cases h now' reply' a) as [E | (j & a' & _ & E)];
      eauto.
Qed.

Lemma updateCollectedDataWithLLM_swallows_failures_witness :
  has_schema (new_agent 0)
  /\ extraction_fails strict_host (Completed "Sorry, I cannot help with that.")
  /\ updateCollectedDataWithLLM strict_host 0
       (Completed "Sorry, I cannot help with that.") (new_agent 0)
     = Ok (new_agent 0)
  /\ forall (now' : Z) (reply' : completion),
       exists a', updateCollectedDataWithLLM strict_host now' reply' (new_agent 0)
                  = Ok a'.
Proof.
  assert (S : has_schema (new_agent 0)) by (intros s; reflexivity).
  assert (N : extraction_fails strict_host
                (Completed "Sorry, I cannot help with that.")).
  { split.
    - intros [entries E]. discriminate E.
    - intros _ m _ [entries E]. discriminate E. }
  split; [exact S|]. split; [exact N|].
  apply (updateCollectedDataWithLLM_swallows_failures strict_host 0
           (Completed "Sorry, I cannot help with that.") (new_agent 0) S N).
Defined.

(** A host whose [JSON.parse] reads the text "[1]" as an array and a
    quoted text as a string: neither updates a new agent, and a rejected
    call does not either. *)
Example updateCollectedDataWithLLM_non_objects :
  let h := MkHost 0 (fun _ => None)
                  (fun text => if String.eqb text "[1]" then Some (JArr [JNum "1"])
                               else if String.eqb text "null" then Some JNull
                               else None) in
  updateCollectedDataWithLLM h 0 (Completed " [1] ") (new_agent 0) = Ok (new_agent 0)
  /\ updateCollectedDataWithLLM h 0 (Completed "null") (new_agent 0) = Ok (new_agent 0)
  /\ updateCollectedDataWithLLM h 0 (Completed "{oops}") (new_agent 0) = Ok (new_agent 0)
  /\ updateCollectedDataWithLLM h 0 Rejected (new_agent 0) = Ok (new_agent 0).
Proof. vm_compute. repeat split. Qed.

(** With a [JSON.parse] that reads the brace-delimited part, the value
    is extracted from a reply with prose around it. *)
Example updateCollectedDataWithLLM_brace_match :
  let h := MkHost 0 (fun _ => None)
                  (fun text => if String.eqb text "{first}"
                               then Some (JObj [("firstName", JStr "John")])
                               else None) in
  updateCollectedDataWithLLM h 0 (Completed "Here it is: {first} Done.") (new_agent 0)
  = Ok (with_current_data
          (obj_set "firstName" (VStr "John") (current_data (new_agent 0)))
          (new_agent 0)).
Proof. vm_compute. reflexivity. Qed.

(** ** The validators on examples *)

Example isValidEmail_accepts : isValidEmail "a@b.co" = true.
Proof. reflexivity. Qed.

Example isValidEmail_needs_dot_after_at :
  isValidEmail "a.b@co" = false /\ isValidEmail "ab.co" = false
  /\ isValidEmail "a @b.co" = false.
Proof. repeat split. Qed.

Example isValidPhoneNumber_formatted : isValidPhoneNumber "+1 (234) 567-8900" = true.
Proof. reflexivity. Qed.

Example isValidPhoneNumber_short : isValidPhoneNumber "12345" = false.
Proof. reflexivity. Qed.

Example isValidName_examples :
  isValidName "O'Neil-Smith" = true /\ isValidName "J" = false
  /\ isValidName "R2D2" = false /\ isValidName "" = false.
Proof. repeat split. Qed.

(** 1 March 2024, 09:00 UTC. *)
Example isValidDateOfBirth_examples :
  let now := MakeDate (MakeDay 2024 2 1) (9 * 3600000) in
  isValidDateOfBirth strict_host now "1990-01-01" = true
  /\ isValidDateOfBirth strict_host now "2006-03-01" = true
  /\ isValidDateOfBirth strict_host now "2006-03-02" = false
  /\ isValidDateOfBirth strict_host now "2024-03-01" = false
  /\ isValidDateOfBirth strict_host now "2030-01-01" = false
  /\ isValidDateOfBirth strict_host now "1990-13-01" = false
  /\ isValidDateOfBirth strict_host now "15/06/1990" = true
  /\ isValidDateOfBirth strict_host now "15-06-1990" = true
  /\ isValidDateOfBirth strict_host now "June 15, 1990" = false.
Proof. vm_compute. repeat split. Qed.

(** A slash date is read day first: "06/15/1990" is day 6 of month 15,
    that is 6 March 1991. *)
Example slash_date_month_carries_over :
  Date_of_day_month_year strict_host "/" "06/15/1990" = Date_of_iso "1991-03-06".
Proof. vm_compute. reflexivity. Qed.

Example isValidDateOfBirth_accepts_adults_example :
  isValidDateOfBirth strict_host (MakeDate (MakeDay 2024 2 1) (9 * 3600000))
                     "1990-01-01" = true.
Proof.
  apply (isValidDateOfBirth_accepts_adults strict_host _ "1990-01-01" 1990 1 1).
  - reflexivity.
  - reflexivity.
  - reflexivity.
  - split; [lia | vm_compute; split; discriminate].
  - vm_compute. left. reflexivity.
Qed.

Example isValidDateOfBirth_rejects_minors_example :
  isValidDateOfBirth strict_host (MakeDate (MakeDay 2024 2 1) (9 * 3600000))
                     "2006-03-02" = false.
Proof.
  apply (isValidDateOfBirth_rejects_minors strict_host _ "2006-03-02" 2006 3 2).
  - reflexivity.
  - reflexivity.
  - reflexivity.
  - split; [lia | vm_compute; split; discriminate].
  - vm_compute. right. split; [reflexivity|]. right. split; reflexivity.
  - intros year. vm_compute. discriminate.
Qed.

(** * Further properties *)

Import RegexMeaning.

(** ** The matcher decides the meaning of an expression *)

Lemma denotes_none_inv (l : list ascii) : ~ denotes RNone l.
Proof. intros H. inversion H. Qed.

Lemma denotes_eps_inv (l : list ascii) : denotes REps l -> l = [].
Proof. intros H. inversion H. reflexivity. Qed.

Lemma denotes_chr_inv (p : ascii -> bool) (l : list ascii) :
  denotes (RChr p) l -> exists c, l = [c] /\ p c = true.
Proof. intros H. inversion H; subst. eauto. Qed.

Lemma denotes_cat_inv (r1 r2 : regex) (l : list ascii) :
  denotes (RCat r1 r2) l ->
  exists l1 l2, l = (l1 ++ l2)%list /\ denotes r1 l1 /\ denotes r2 l2.
Proof. intros H. inversion H; subst. eauto. Qed.

Lemma denotes_alt_inv (r1 r2 : regex) (l : list ascii) :
  denotes (RAlt r1 r2) l -> denotes r1 l \/ denotes r2 l.
Proof. intros H. inversion H; subst; auto. Qed.

Lemma nullable_denotes (r : regex) : nullable r = true <-> denotes r [].
Proof.
  induction r as [| | p | r1 IH1 r2 IH2 | r1 IH1 r2 IH2 | r IH]; cbn [nullable].
  - split; [discriminate | intros H; destruct (denotes_none_inv _ H)].
  - split; [constructor | reflexivity].
  - split; [discriminate|].
    intros H. apply denotes_chr_inv in H as (c & E & _). discriminate E.
  - rewrite andb_true_iff, IH1, IH2. split.
    + intros [H1 H2]. exact (denotes_cat _ _ [] [] H1 H2).
    + intros H. apply denotes_cat_inv in H as (l1 & l2 & E & H1 & H2).
      symmetry in E. apply app_eq_nil in E as [-> ->]. split; assumption.
  - rewrite orb_true_iff, IH1, IH2. split.
    + intros [H|H]; [apply denotes_alt_left | apply denotes_alt_right]; exact H.
    + apply denotes_alt_inv.
  - split; [constructor | reflexivity].
Qed.

Lemma denotes_star_cons (r : regex) (c : ascii) (l : list ascii) :
  denotes (RStar r) (c :: l) ->
  exists l1 l2, l = (l1 ++ l2)%list /\ denotes r (c :: l1) /\ denotes (RStar r) l2.
Proof.
  intros H. remember (RStar r) as s eqn:Es. remember (c :: l) as w eqn:Ew.
  revert l Ew.
  induction H as [| | | | | r' | r' l1 l2 H1 _ H2 IH2]; intros k Ew;
    try discriminate Es; try discriminate Ew.
  injection Es as ->.
  destruct l1 as [|c1 l1]; cbn [app] in Ew.
  - apply (IH2 eq_refl k Ew).
  - injection Ew as E1 E2. subst c1 k. exists l1, l2. repeat split; assumption.
Qed.

Lemma deriv_denotes (c : ascii) (r : regex) (l : list ascii) :
  denotes (deriv c r) l <-> denotes r (c :: l).
Proof.
  revert l.
  induction r as [| | p | r1 IH1 r2 IH2 | r1 IH1 r2 IH2 | r IH]; intros l; cbn [deriv].
  - split; intros H; destruct (denotes_none_inv _ H).
  - split; intros H; [destruct (denotes_none_inv _ H)|].
    apply denotes_eps_inv in H. discriminate H.
  - destruct (p c) eqn:E; split; intros H.
    + apply denotes_eps_inv in H. subst l. constructor. exact E.
    + apply denotes_chr_inv in H as (c' & [= E1 E2] & _). subst l. constructor.
    + destruct (denotes_none_inv _ H).
    + apply denotes_chr_inv in H as (c' & [= E1 E2] & E'). congruence.
  - assert (Hcat : denotes (RCat (deriv c r1) r2) l
                   <-> exists l1 l2, l = (l1 ++ l2)%list
                                     /\ denotes r1 (c :: l1) /\ denotes r2 l2).
    { split.
      - intros H. apply denotes_cat_inv in H as (l1 & l2 & -> & H1 & H2).
        exists l1, l2. repeat split; [apply IH1; exact H1 | exact H2].
      - intros (l1 & l2 & -> & H1 & H2). constructor; [apply IH1; exact H1 | exact H2]. }
    assert (Hwhole : denotes (RCat r1 r2) (c :: l)
                     <-> (exists l1 l2, l = (l1 ++ l2)%list
                                        /\ denotes r1 (c :: l1) /\ denotes r2 l2)
                         \/ (denotes r1 [] /\ denotes r2 (c :: l))).
    { split.
      - intros H. apply denotes_cat_inv in H as (l1 & l2 & E & H1 & H2).
        destruct l1 as [|c1 l1]; cbn [app] in E.
        + right. subst l2. split; assumption.
        + left. injection E as E1 E2. subst c1 l. exists l1, l2.
          repeat split; assumption.
      - intros [(l1 & l2 & -> & H1 & H2) | [H1 H2]].
        + exact (denotes_cat _ _ (c :: l1) l2 H1 H2).
        + exact (denotes_cat _ _ [] (c :: l) H1 H2). }
    rewrite Hwhole.
    destruct (nullable r1) eqn:N.
    + apply nullable_denotes in N. split.
      * intros H. apply denotes_alt_inv in H as [H|H].
        -- left. apply Hcat. assumption.
        -- right. split; [exact N | apply IH2; assumption].
      * intros [H | [_ H]].
        -- apply denotes_alt_left, Hcat, H.
        -- apply denotes_alt_right, IH2, H.
    + rewrite Hcat. split; [intros H; left; exact H|].
      intros [H | [H _]]; [exact H|].
      apply nullable_denotes in H. congruence.
  - split; intros H.
    + apply denotes_alt_inv in H as [H|H];
        [apply denotes_alt_left, IH1 | apply denotes_alt_right, IH2]; assumption.
    + apply denotes_alt_inv in H as [H|H];
        [apply denotes_alt_left, IH1 | apply denotes_alt_right, IH2]; assumption.
  - split; intros H.
    + apply denotes_cat_inv in H as (l1 & l2 & -> & H1 & H2).
      apply (denotes_star_more r (c :: l1) l2); [apply IH; exact H1 | exact H2].
    + apply denotes_star_cons in H as (l1 & l2 & -> & H1 & H2).
      constructor; [apply IH; exact H1 | exact H2].
Qed.

Lemma matches_denotes (r : regex) (l : list ascii) :
  matches r l = true <-> denotes r l.
Proof.
  revert r; induction l as [|c l IH]; intros r; cbn [matches].
  - apply nullable_denotes.
  - rewrite IH. apply deriv_denotes.
Qed.

Import MoreNotions.

Lemma denotes_star_class (p : ascii -> bool) (l : list ascii) :
  denotes (RStar (RChr p)) l <-> forallb p l = true.
Proof.
  split.
  - intros H. remember (RStar (RChr p)) as s eqn:Es.
    induction H as [| | | | | r' | r' l1 l2 H1 _ H2 IH2]; try discriminate Es.
    + reflexivity.
    + injection Es as ->. apply denotes_chr_inv in H1 as (c & -> & Hc).
      cbn [app forallb]. rewrite Hc. apply IH2. reflexivity.
  - induction l as [|c l IH]; cbn [forallb]; intros H.
    + constructor.
    + apply andb_true_iff in H as [Hc H].
      apply (denotes_star_more (RChr p) [c] l); [constructor; exact Hc | apply IH, H].
Qed.

Lemma denotes_times_class (n : nat) (p : ascii -> bool) (l : list ascii) :
  denotes (times n (RChr p)) l <-> length l = n /\ forallb p l = true.
Proof.
  revert l; induction n as [|n IH]; intros l; cbn [times].
  - split.
    + intros H. apply denotes_eps_inv in H. subst l. split; reflexivity.
    + intros [H _]. apply length_zero_iff_nil in H. subst l. constructor.
  - split.
    + intros H. apply denotes_cat_inv in H as (l1 & l2 & -> & H1 & H2).
      apply denotes_chr_inv in H1 as (c & -> & Hc). apply IH in H2 as [<- H2].
      cbn [app length forallb]. rewrite Hc. split; [reflexivity | exact H2].
    + intros [Hl H]. destruct l as [|c l]; [discriminate Hl|].
      cbn [length forallb] in *. apply andb_true_iff in H as [Hc H].
      apply (denotes_cat (RChr p) _ [c] l); [constructor; exact Hc|].
      apply IH. split; [congruence | exact H].
Qed.

Lemma denotes_at_least_class (n : nat) (p : ascii -> bool) (l : list ascii) :
  denotes (at_least n (RChr p)) l <-> (n <= length l)%nat /\ forallb p l = true.
Proof.
  unfold at_least. split.
  - intros H. apply denotes_cat_inv in H as (l1 & l2 & -> & H1 & H2).
    apply denotes_times_class in H1 as [<- H1]. apply denotes_star_class in H2.
    rewrite length_app, forallb_app, H1, H2. split; [lia | reflexivity].
  - intros [Hl H]. rewrite <- (firstn_skipn n l) in H |- *.
    rewrite forallb_app in H. apply andb_true_iff in H as [H1 H2].
    constructor.
    + apply denotes_times_class. split; [apply firstn_length_le, Hl | exact H1].
    + apply denotes_star_class, H2.
Qed.

Lemma denotes_plus_class (p : ascii -> bool) (l : list ascii) :
  denotes (plus (RChr p)) l <-> l <> [] /\ forallb p l = true.
Proof.
  assert (E : denotes (plus (RChr p)) l <-> denotes (at_least 1 (RChr p)) l).
  { unfold plus, at_least. cbn [times]. split; intros H.
    - apply denotes_cat_inv in H as (l1 & l2 & -> & H1 & H2).
      constructor; [|exact H2].
      rewrite <- (app_nil_r l1). constructor; [exact H1 | constructor].
    - apply denotes_cat_inv in H as (l1 & l2 & -> & H1 & H2).
      apply denotes_cat_inv in H1 as (l3 & l4 & -> & H3 & H4).
      apply denotes_eps_inv in H4. subst l4. rewrite app_nil_r.
      constructor; assumption. }
  rewrite E, denotes_at_least_class.
  destruct l; cbn [length]; split; intros [H1 H2]; split; try assumption;
    try lia; try discriminate; contradiction.
Qed.

Lemma denotes_one_or_two_class (p : ascii -> bool) (l : list ascii) :
  denotes (one_or_two (RChr p)) l
  <-> (length l = 1 \/ length l = 2)%nat /\ forallb p l = true.
Proof.
  unfold one_or_two. split.
  - intros H. apply denotes_cat_inv in H as (l1 & l2 & -> & H1 & H2).
    apply denotes_chr_inv in H1 as (c & -> & Hc).
    apply denotes_alt_inv in H2 as [H2|H2].
    + apply denotes_eps_inv in H2. subst l2. cbn. rewrite Hc. auto.
    + apply denotes_chr_inv in H2 as (c' & -> & Hc'). cbn. rewrite Hc, Hc'. auto.
  - intros [Hl H]. destruct l as [|c [|c' [|c'' l]]]; cbn [length] in Hl;
      try (exfalso; lia).
    + cbn [forallb] in H. rewrite andb_true_r in H.
      apply (denotes_cat (RChr p) _ [c] []);
        [constructor; exact H | apply denotes_alt_left; constructor].
    + cbn [forallb] in H. rewrite andb_true_r in H.
      apply andb_true_iff in H as [Hc Hc'].
      apply (denotes_cat (RChr p) _ [c] [c']);
        [constructor; exact Hc | apply denotes_alt_right; constructor; exact Hc'].
Qed.

Lemma denotes_lit (c : ascii) (l : list ascii) : denotes (lit c) l <-> l = [c].
Proof.
  unfold lit. split.
  - intros H. apply denotes_chr_inv in H as (c' & -> & E).
    apply Ascii.eqb_eq in E. subst. reflexivity.
  - intros ->. constructor. apply Ascii.eqb_refl.
Qed.

Lemma chars_append (s1 s2 : string) :
  chars (s1 ++ s2) = (chars s1 ++ chars s2)%list.
Proof.
  unfold chars. induction s1 as [|c s1 IH]; [reflexivity|].
  change (String c s1 ++ s2) with (String c (s1 ++ s2)).
  cbn [list_ascii_of_string app]. f_equal. exact IH.
Qed.

Lemma chars_of_chars (l : list ascii) : chars (of_chars l) = l.
Proof. apply list_ascii_of_string_of_list_ascii. Qed.

Lemma of_chars_chars (s : string) : of_chars (chars s) = s.
Proof. apply string_of_list_ascii_of_string. Qed.

Lemma chars_nil (s : string) : chars s = [] <-> s = "".
Proof.
  split; [|intros ->; reflexivity].
  destruct s; [reflexivity | discriminate].
Qed.

Lemma of_chars_app (l1 l2 : list ascii) :
  of_chars (l1 ++ l2) = of_chars l1 ++ of_chars l2.
Proof.
  rewrite <- (of_chars_chars (of_chars l1 ++ of_chars l2)), chars_append,
    !chars_of_chars.
  reflexivity.
Qed.

(** ** The validators, in plain terms *)

Lemma isValidEmail_parts (email : string) :
  isValidEmail email = true ->
  exists local domain tld : string,
    email = local ++ "@" ++ domain ++ "." ++ tld
    /\ plain_part local /\ plain_part domain /\ plain_part tld.
Proof.
  unfold isValidEmail, test. rewrite matches_denotes. unfold emailRegex.
  intros H.
  apply denotes_cat_inv in H as (a & r1 & E1 & Ha & H).
  apply denotes_cat_inv in H as (x & r2 & E2 & Hx & H).
  apply denotes_cat_inv in H as (b & r3 & E3 & Hb & H).
  apply denotes_cat_inv in H as (y & c & E4 & Hy & Hc).
  apply denotes_lit in Hx, Hy. subst x y r3 r2 r1.
  apply denotes_plus_class in Ha as [Na Pa], Hb as [Nb Pb], Hc as [Nc Pc].
  exists (of_chars a), (of_chars b), (of_chars c). split.
  - rewrite <- (of_chars_chars email), E1, !of_chars_app. reflexivity.
  - repeat split; try (rewrite chars_of_chars; assumption);
      intros E; apply chars_nil in E; rewrite chars_of_chars in E; contradiction.
Qed.

(** X1: [isValidEmail] accepts exactly the strings of the form
    local@domain.tld whose three parts are non-empty and hold neither
    white space nor [@]. *)
Theorem isValidEmail_shape (email : string) :
  isValidEmail email = true
  <-> exists local domain tld : string,
        email = local ++ "@" ++ domain ++ "." ++ tld
        /\ plain_part local /\ plain_part domain /\ plain_part tld.
Proof.
  split; [apply isValidEmail_parts|].
  unfold isValidEmail, test. rewrite matches_denotes. unfold emailRegex.
  intros (local & domain & tld & -> & [Na Pa] & [Nb Pb] & [Nc Pc]).
  rewrite !chars_append.
  constructor; [apply denotes_plus_class; split; [rewrite chars_nil; exact Na | exact Pa]|].
  constructor; [apply denotes_lit; reflexivity|].
  constructor; [apply denotes_plus_class; split; [rewrite chars_nil; exact Nb | exact Pb]|].
  constructor; [apply denotes_lit; reflexivity|].
  apply denotes_plus_class; split; [rewrite chars_nil; exact Nc | exact Pc].
Qed.

Lemma plain_no_at (l : list ascii) :
  forallb not_space_at l = true ->
  List.filter (fun c => Ascii.eqb c "@") l = []
  /\ forallb (fun c => negb (is_space c)) l = true.
Proof.
  induction l as [|c l IH]; cbn [forallb List.filter]; [split; reflexivity|].
  intros H. apply andb_true_iff in H as [Hc H]. destruct (IH H) as [IH1 IH2].
  unfold not_space_at in Hc. apply negb_true_iff, orb_false_iff in Hc as [Hs Ha].
  rewrite Ha, Hs, IH2. split; [exact IH1 | reflexivity].
Qed.

(** X2: an accepted e-mail address holds exactly one [@] and no white
    space; so a string without [@], with two of them, or with a blank in
    it is rejected. *)
Theorem isValidEmail_one_at_no_space (email : string) :
  isValidEmail email = true ->
  length (List.filter (fun c => Ascii.eqb c "@") (chars email)) = 1%nat
  /\ forallb (fun c => negb (is_space c)) (chars email) = true.
Proof.
  intros H. apply isValidEmail_parts in H
    as (local & domain & tld & -> & [_ Pa] & [_ Pb] & [_ Pc]).
  rewrite !chars_append, !List.filter_app, !forallb_app, !length_app.
  destruct (plain_no_at _ Pa) as [-> ->].
  destruct (plain_no_at _ Pb) as [-> ->].
  destruct (plain_no_at _ Pc) as [-> ->].
  split; reflexivity.
Qed.

Lemma isValidEmail_one_at_no_space_witness :
  isValidEmail "john@example.com" = true
  /\ length (List.filter (fun c => Ascii.eqb c "@") (chars "john@example.com")) = 1%nat
  /\ forallb (fun c => negb (is_space c)) (chars "john@example.com") = true.
Proof.
  split; [reflexivity|].
  apply (isValidEmail_one_at_no_space "john@example.com"). reflexivity.
Defined.

Lemma digit_not_formatting (c : ascii) :
  is_digit c = true -> phone_formatting c = false.
Proof.
  destruct c as [[] [] [] [] [] [] [] []]; cbn; intros H;
    solve [reflexivity | discriminate H].
Qed.

Lemma cleaned_digits (l : list ascii) :
  forallb is_digit (List.filter (fun c => negb (phone_formatting c)) l)
  = forallb (fun c => is_digit c || phone_formatting c) l.
Proof.
  induction l as [|c l IH]; cbn [List.filter forallb]; [reflexivity|].
  destruct (phone_formatting c); cbn [negb forallb].
  - rewrite orb_true_r. exact IH.
  - rewrite orb_false_r, IH. reflexivity.
Qed.

Lemma cleaned_length (l : list ascii) :
  forallb (fun c => is_digit c || phone_formatting c) l = true ->
  length (List.filter (fun c => negb (phone_formatting c)) l)
  = length (List.filter is_digit l).
Proof.
  induction l as [|c l IH]; cbn [List.filter forallb]; [reflexivity|].
  intros H. apply andb_true_iff in H as [Hc H].
  destruct (is_digit c) eqn:D.
  - rewrite (digit_not_formatting c D). cbn [negb length]. f_equal. apply IH, H.
  - cbn [orb] in Hc. rewrite Hc. cbn [negb]. apply IH, H.
Qed.

(** X3: [isValidPhoneNumber] accepts exactly the strings made of digits
    and the formatting characters (white space, [-], [+], parentheses)
    that hold at least ten digits. *)
Theorem isValidPhoneNumber_shape (phone : string) :
  isValidPhoneNumber phone = true
  <-> forallb (fun c => is_digit c || phone_formatting c) (chars phone) = true
      /\ (10 <= digit_count phone)%nat.
Proof.
  unfold isValidPhoneNumber, test, remove_all, digit_count, digit.
  rewrite matches_denotes, denotes_at_least_class, chars_of_chars, cleaned_digits.
  split; intros [H1 H2].
  - split; [exact H2|]. rewrite <- cleaned_length by exact H2. exact H1.
  - split; [|exact H1]. rewrite cleaned_length by exact H1. exact H2.
Qed.

Lemma forallb_drop_spaces (q : ascii -> bool) (l : list ascii) :
  (forall c, is_space c = true -> q c = true) ->
  forallb q (drop_while is_space l) = forallb q l.
Proof.
  intros Hq. induction l as [|c l IH]; cbn [drop_while forallb]; [reflexivity|].
  destruct (is_space c) eqn:E; [|reflexivity].
  rewrite (Hq c E). exact IH.
Qed.

Lemma forallb_reverse (q : ascii -> bool) (l : list ascii) :
  forallb q (rev l) = forallb q l.
Proof.
  induction l as [|c l IH]; cbn [rev forallb]; [reflexivity|].
  rewrite forallb_app, IH. cbn [forallb]. rewrite andb_true_r. apply andb_comm.
Qed.

Lemma forallb_trim (q : ascii -> bool) (s : string) :
  (forall c, is_space c = true -> q c = true) ->
  forallb q (chars (trim s)) = forallb q (chars s).
Proof.
  intros Hq. unfold trim. rewrite chars_of_chars.
  rewrite forallb_reverse, forallb_drop_spaces, forallb_reverse, forallb_drop_spaces
    by exact Hq.
  reflexivity.
Qed.

Lemma length_chars (s : string) : length (chars s) = String.length s.
Proof.
  unfold chars. induction s as [|c s IH]; cbn [list_ascii_of_string String.length length];
    [reflexivity | f_equal; exact IH].
Qed.

(** X4: [isValidName] accepts exactly the strings in which every
    character is a letter, white space, a hyphen or an apostrophe, and
    which keep at least two characters once the white space around them
    is removed. *)
Theorem isValidName_shape (name : string) :
  isValidName name = true
  <-> forallb name_char (chars name) = true
      /\ (2 <= String.length (trim name))%nat.
Proof.
  assert (Hs : forall c, is_space c = true -> name_char c = true).
  { intros c E. unfold name_char. rewrite E, orb_true_r. reflexivity. }
  unfold isValidName.
  destruct (String.eqb name "") eqn:E.
  - apply String.eqb_eq in E. subst name. split; [discriminate|].
    intros [_ H]. cbn in H. lia.
  - unfold test, nameRegex.
    rewrite matches_denotes, denotes_at_least_class, forallb_trim, length_chars by exact Hs.
    tauto.
Qed.

(** ** The shapes of date strings *)

Lemma denotes_digits (n : nat) (l : list ascii) :
  denotes (times n digit) l <-> digits n (of_chars l).
Proof.
  unfold digit, digits. rewrite denotes_times_class, chars_of_chars.
  rewrite <- length_chars, chars_of_chars. tauto.
Qed.

Lemma denotes_short_digits (l : list ascii) :
  denotes (one_or_two digit) l <-> short_digits (of_chars l).
Proof.
  unfold digit, short_digits, digits. rewrite denotes_one_or_two_class.
  rewrite <- length_chars, chars_of_chars. tauto.
Qed.

Lemma separated_shape (first last : regex) (sep : ascii) (s : string) :
  denotes (RCat first (RCat (lit sep) (RCat first (RCat (lit sep) last)))) (chars s)
  <-> exists a b c : list ascii,
        s = of_chars a ++ String sep "" ++ of_chars b ++ String sep "" ++ of_chars c
        /\ denotes first a /\ denotes first b /\ denotes last c.
Proof.
  split.
  - intros H.
    apply denotes_cat_inv in H as (a & r1 & E1 & Ha & H).
    apply denotes_cat_inv in H as (x & r2 & E2 & Hx & H).
    apply denotes_cat_inv in H as (b & r3 & E3 & Hb & H).
    apply denotes_cat_inv in H as (y & c & E4 & Hy & Hc).
    apply denotes_lit in Hx, Hy. subst x y r3 r2 r1.
    exists a, b, c. split; [|repeat split; assumption].
    rewrite <- (of_chars_chars s), E1, !of_chars_app. reflexivity.
  - intros (a & b & c & -> & Ha & Hb & Hc).
    rewrite !chars_append, !chars_of_chars.
    constructor; [exact Ha|]. constructor; [apply denotes_lit; reflexivity|].
    constructor; [exact Hb|]. constructor; [apply denotes_lit; reflexivity|].
    exact Hc.
Qed.

Lemma day_month_year_shape (sep : ascii) (s : string) :
  denotes (RCat (one_or_two digit) (RCat (lit sep) (RCat (one_or_two digit)
             (RCat (lit sep) (times 4 digit))))) (chars s)
  <-> exists d m y : string,
        s = d ++ String sep "" ++ m ++ String sep "" ++ y
        /\ short_digits d /\ short_digits m /\ digits 4 y.
Proof.
  rewrite separated_shape. split.
  - intros (a & b & c & -> & Ha & Hb & Hc).
    exists (of_chars a), (of_chars b), (of_chars c).
    rewrite <- !denotes_short_digits, <- denotes_digits. auto.
  - intros (d & m & y & -> & Hd & Hm & Hy).
    exists (chars d), (chars m), (chars y).
    rewrite !denotes_short_digits, denotes_digits, !of_chars_chars. auto.
Qed.

Lemma slashRegex_shape (s : string) :
  test slashRegex s = true
  <-> exists d m y : string,
        s = d ++ "/" ++ m ++ "/" ++ y /\ short_digits d /\ short_digits m /\ digits 4 y.
Proof. unfold test. rewrite matches_denotes. apply (day_month_year_shape "/"). Qed.

Lemma dashRegex_shape (s : string) :
  test dashRegex s = true
  <-> exists d m y : string,
        s = d ++ "-" ++ m ++ "-" ++ y /\ short_digits d /\ short_digits m /\ digits 4 y.
Proof. unfold test. rewrite matches_denotes. apply (day_month_year_shape "-"). Qed.

Lemma isoRegex_shape (s : string) :
  test isoRegex s = true
  <-> exists y m d : string,
        s = y ++ "-" ++ m ++ "-" ++ d /\ digits 4 y /\ digits 2 m /\ digits 2 d.
Proof.
  unfold test, isoRegex. rewrite matches_denotes. split.
  - intros H.
    apply denotes_cat_inv in H as (a & r1 & E1 & Ha & H).
    apply denotes_cat_inv in H as (x & r2 & E2 & Hx & H).
    apply denotes_cat_inv in H as (b & r3 & E3 & Hb & H).
    apply denotes_cat_inv in H as (y & c & E4 & Hy & Hc).
    apply denotes_lit in Hx, Hy. subst x y r3 r2 r1.
    exists (of_chars a), (of_chars b), (of_chars c).
    rewrite <- !denotes_digits. split; [|auto].
    rewrite <- (of_chars_chars s), E1, !of_chars_app. reflexivity.
  - intros (y & m & d & -> & Hy & Hm & Hd).
    rewrite !chars_append.
    rewrite <- (of_chars_chars y) in Hy. rewrite <- (of_chars_chars m) in Hm.
    rewrite <- (of_chars_chars d) in Hd.
    apply denotes_digits in Hy, Hm, Hd.
    constructor; [exact Hy|]. constructor; [apply denotes_lit; reflexivity|].
    constructor; [exact Hm|]. constructor; [apply denotes_lit; reflexivity|].
    exact Hd.
Qed.

Lemma split_chars_app (sep : ascii) (l1 l2 : list ascii) :
  forallb (fun c => negb (Ascii.eqb c sep)) l1 = true ->
  split_chars sep (l1 ++ sep :: l2) = l1 :: split_chars sep l2.
Proof.
  induction l1 as [|c l1 IH]; cbn [forallb app split_chars]; intros H.
  - rewrite Ascii.eqb_refl. reflexivity.
  - apply andb_true_iff in H as [Hc H]. apply negb_true_iff in Hc.
    rewrite Hc, (IH H). reflexivity.
Qed.

Lemma split_chars_whole (sep : ascii) (l : list ascii) :
  forallb (fun c => negb (Ascii.eqb c sep)) l = true ->
  split_chars sep l = [l].
Proof.
  induction l as [|c l IH]; cbn [forallb split_chars]; intros H; [reflexivity|].
  apply andb_true_iff in H as [Hc H]. apply negb_true_iff in Hc.
  rewrite Hc, (IH H). reflexivity.
Qed.

Lemma digits_without (sep : ascii) (l : list ascii) :
  is_digit sep = false -> forallb is_digit l = true ->
  forallb (fun c => negb (Ascii.eqb c sep)) l = true.
Proof.
  intros Hsep. induction l as [|c l IH]; cbn [forallb]; intros H; [reflexivity|].
  apply andb_true_iff in H as [Hc H]. rewrite (IH H), andb_true_r.
  apply negb_true_iff. destruct (Ascii.eqb c sep) eqn:E; [|reflexivity].
  apply Ascii.eqb_eq in E. congruence.
Qed.

Lemma short_digits_all (s : string) : short_digits s -> forallb is_digit (chars s) = true.
Proof. intros [[_ H]|[_ H]]; exact H. Qed.

Lemma split_day_month_year (sep : ascii) (d m y : string) :
  is_digit sep = false ->
  short_digits d -> short_digits m -> digits 4 y ->
  split sep (d ++ String sep "" ++ m ++ String sep "" ++ y) = [d; m; y].
Proof.
  intros Hsep Hd Hm [_ Hy]. unfold split.
  rewrite !chars_append. cbn [chars list_ascii_of_string app].
  rewrite split_chars_app by (apply digits_without; [exact Hsep | apply short_digits_all, Hd]).
  rewrite split_chars_app by (apply digits_without; [exact Hsep | apply short_digits_all, Hm]).
  rewrite split_chars_whole by (apply digits_without; [exact Hsep | exact Hy]).
  cbn [map]. rewrite !of_chars_chars. reflexivity.
Qed.

Lemma first_separator (sep : ascii) (l1 r1 l2 r2 : list ascii) :
  forallb (fun c => negb (Ascii.eqb c sep)) l1 = true ->
  forallb (fun c => negb (Ascii.eqb c sep)) l2 = true ->
  (l1 ++ sep :: r1)%list = (l2 ++ sep :: r2)%list -> l1 = l2.
Proof.
  revert l2; induction l1 as [|c l1 IH]; intros [|c2 l2]; cbn [forallb app];
    intros H1 H2 E.
  - reflexivity.
  - injection E as E _. subst c2. apply andb_true_iff in H2 as [H2 _].
    rewrite Ascii.eqb_refl in H2. discriminate H2.
  - injection E as E _. subst c. apply andb_true_iff in H1 as [H1 _].
    rewrite Ascii.eqb_refl in H1. discriminate H1.
  - injection E as -> E.
    apply andb_true_iff in H1 as [_ H1]. apply andb_true_iff in H2 as [_ H2].
    f_equal. exact (IH l2 H1 H2 E).
Qed.

Lemma day_first_not_iso (d m y : string) :
  short_digits d -> short_digits m -> digits 4 y ->
  test isoRegex (d ++ "-" ++ m ++ "-" ++ y) = false.
Proof.
  intros Hd Hm Hy.
  destruct (test isoRegex (d ++ "-" ++ m ++ "-" ++ y)) eqn:E; [|reflexivity].
  apply isoRegex_shape in E as (y' & m' & d' & E & [Ly Hy'] & _ & _).
  apply (f_equal chars) in E. rewrite !chars_append in E.
  cbn [chars list_ascii_of_string app] in E.
  apply first_separator in E.
  - apply (f_equal (@length ascii)) in E. rewrite !length_chars in E.
    destruct Hd as [[L _]|[L _]]; lia.
  - apply digits_without; [reflexivity | apply short_digits_all, Hd].
  - apply digits_without; [reflexivity | exact Hy'].
Qed.

Lemma forallb_middle (q : ascii -> bool) (l1 l2 : list ascii) (c : ascii) :
  forallb q (l1 ++ c :: l2) = true -> q c = true.
Proof.
  rewrite forallb_app. cbn [forallb]. intros H.
  apply andb_true_iff in H as [_ H]. apply andb_true_iff in H as [H _]. exact H.
Qed.

Lemma dash_date_not_slash (d m y : string) :
  short_digits d -> short_digits m -> digits 4 y ->
  test slashRegex (d ++ "-" ++ m ++ "-" ++ y) = false.
Proof.
  intros Hd Hm [_ Hy].
  destruct (test slashRegex (d ++ "-" ++ m ++ "-" ++ y)) eqn:E; [|reflexivity].
  apply slashRegex_shape in E as (d' & m' & y' & E & _).
  assert (N : forallb (fun c => negb (Ascii.eqb c "/"))
                      (chars (d ++ "-" ++ m ++ "-" ++ y)) = true).
  { rewrite !chars_append, !forallb_app.
    rewrite (digits_without "/" _ eq_refl (short_digits_all _ Hd)).
    rewrite (digits_without "/" _ eq_refl (short_digits_all _ Hm)).
    rewrite (digits_without "/" _ eq_refl Hy). reflexivity. }
  rewrite E, !chars_append in N. cbn [chars list_ascii_of_string app] in N.
  apply forallb_middle in N. discriminate N.
Qed.

(** X5: a date written day, month, year with [/] or [-] between them is
    never refused for naming a day that does not exist: the three numbers
    go to [new Date(year, month - 1, day)] as they are, a day or month out
    of range carries over, and a year below 100 counts from 1900.  Both
    separators give the same answer. *)
Theorem isValidDateOfBirth_day_month_year
    (h : host) (now : Z) (d m y : string) :
  short_digits d -> short_digits m -> digits 4 y ->
  isValidDateOfBirth h now (d ++ "/" ++ m ++ "/" ++ y)
  = check_date h now
      (Date_of_fields h (number_of_digits y) (number_of_digits m - 1)
                      (number_of_digits d))
  /\ isValidDateOfBirth h now (d ++ "-" ++ m ++ "-" ++ y)
     = isValidDateOfBirth h now (d ++ "/" ++ m ++ "/" ++ y)
  /\ Date_of_fields h (number_of_digits y) (number_of_digits m - 1)
                    (number_of_digits d) <> None.
Proof.
  intros Hd Hm Hy.
  assert (S1 : isValidDateOfBirth h now (d ++ "/" ++ m ++ "/" ++ y)
               = check_date h now
                   (Date_of_fields h (number_of_digits y) (number_of_digits m - 1)
                                   (number_of_digits d))).
  { rewrite slash_date_read_day_first
      by (apply slashRegex_shape; exists d, m, y; auto).
    unfold Date_of_day_month_year.
    rewrite (split_day_month_year "/" d m y eq_refl Hd Hm Hy). reflexivity. }
  split; [exact S1|]. split; [|discriminate].
  rewrite S1. unfold isValidDateOfBirth.
  rewrite (day_first_not_iso d m y Hd Hm Hy), (dash_date_not_slash d m y Hd Hm Hy).
  assert (T : test dashRegex (d ++ "-" ++ m ++ "-" ++ y) = true)
    by (apply dashRegex_shape; exists d, m, y; auto).
  rewrite T. unfold Date_of_day_month_year.
  rewrite (split_day_month_year "-" d m y eq_refl Hd Hm Hy). reflexivity.
Qed.

Lemma isValidDateOfBirth_day_month_year_witness :
  short_digits "31" /\ short_digits "2" /\ digits 4 "1990"
  /\ isValidDateOfBirth strict_host 1700000000000 ("31" ++ "/" ++ "2" ++ "/" ++ "1990")
     = check_date strict_host 1700000000000
         (Date_of_fields strict_host (number_of_digits "1990")
                         (number_of_digits "2" - 1) (number_of_digits "31"))
  /\ isValidDateOfBirth strict_host 1700000000000 ("31" ++ "-" ++ "2" ++ "-" ++ "1990")
     = isValidDateOfBirth strict_host 1700000000000 ("31" ++ "/" ++ "2" ++ "/" ++ "1990")
  /\ Date_of_fields strict_host (number_of_digits "1990") (number_of_digits "2" - 1)
                    (number_of_digits "31") <> None.
Proof.
  assert (Hd : short_digits "31") by (right; split; reflexivity).
  assert (Hm : short_digits "2") by (left; split; reflexivity).
  assert (Hy : digits 4 "1990") by (split; reflexivity).
  split; [exact Hd|]. split; [exact Hm|]. split; [exact Hy|].
  apply (isValidDateOfBirth_day_month_year strict_host 1700000000000 "31" "2" "1990"
           Hd Hm Hy).
Defined.

(** ** The date check as time passes *)

Lemma MakeDay_plain (y m d : Z) :
  0 <= m <= 11 ->
  MakeDay y m d = DayFromYear y + DaysBeforeMonth (InLeapYear y) m + d - 1.
Proof.
  intros Hm. unfold MakeDay. rewrite Z.div_small, Z.mod_small by lia.
  rewrite Z.add_0_r. reflexivity.
Qed.

(** Day numbers follow the order of dates also when the earlier date is
    29 February of a year that has none. *)
Lemma MakeDay_order_carry (y m d y' m' d' : Z) :
  0 <= m <= 11 -> 1 <= d <= DaysInMonth true m ->
  0 <= m' <= 11 -> 1 <= d' ->
  earlier (y, m, d) (y', m', d') ->
  MakeDay y m d <= MakeDay y' m' d'.
Proof.
  intros Hm Hd Hm' Hd' He.
  rewrite (MakeDay_plain y m d Hm), (MakeDay_plain y' m' d' Hm').
  pose proof (DaysBeforeMonth_mono (InLeapYear y') 0 m' ltac:(lia) ltac:(lia)) as P.
  change (DaysBeforeMonth (InLeapYear y') 0) with 0 in P.
  assert (S : DaysBeforeMonth (InLeapYear y) m + DaysInMonth true m
              <= DaysBeforeMonth (InLeapYear y) (m + 1) + 1).
  { unfold DaysInMonth. month_cases m; destruct (InLeapYear y); table; lia. }
  cbn [earlier] in He. destruct He as [Hy | [<- Hmd]].
  - pose proof (DayFromYear_mono (y + 1) y' ltac:(lia)) as M.
    rewrite DayFromYear_succ in M.
    pose proof (DaysBeforeMonth_mono (InLeapYear y) (m + 1) 12 ltac:(lia) ltac:(lia)) as Q.
    assert (T : DaysBeforeMonth (InLeapYear y) 12 = if InLeapYear y then 366 else 365).
    { destruct (InLeapYear y); reflexivity. }
    destruct (InLeapYear y); lia.
  - destruct Hmd as [Hlt | [<- Hlt]]; [|lia].
    pose proof (DaysBeforeMonth_mono (InLeapYear y) (m + 1) m' ltac:(lia) ltac:(lia)).
    lia.
Qed.

Lemma civil_order (d1 d2 : Z) :
  d1 < d2 ->
  earlier (YearFromDay d1, MonthFromDay d1, DateFromDay d1)
          (YearFromDay d2, MonthFromDay d2, DateFromDay d2).
Proof.
  intros H.
  destruct (civil_of_day d1) as (Hm1 & Hd1 & E1).
  destruct (civil_of_day d2) as (Hm2 & Hd2 & E2).
  set (y1 := YearFromDay d1) in *. set (m1 := MonthFromDay d1) in *.
  set (a1 := DateFromDay d1) in *. set (y2 := YearFromDay d2) in *.
  set (m2 := MonthFromDay d2) in *. set (a2 := DateFromDay d2) in *.
  assert (C : earlier (y1, m1, a1) (y2, m2, a2)
              \/ (y1 = y2 /\ m1 = m2 /\ a1 = a2)
              \/ earlier (y2, m2, a2) (y1, m1, a1)).
  { cbn [earlier]. lia. }
  destruct C as [C | [(Ey & Em & Ea) | C]]; [exact C | exfalso .. ].
  - rewrite Ey, Em, Ea in E1. lia.
  - pose proof (MakeDay_earlier y2 m2 a2 y1 m1 a1 Hm2 Hd2 Hm1 ltac:(lia) C). lia.
Qed.

Lemma DaysInMonth_leap (leap : bool) (m : Z) :
  0 <= m <= 11 -> DaysInMonth leap m <= DaysInMonth true m.
Proof.
  intros Hm. unfold DaysInMonth. month_cases m; destruct leap; table; lia.
Qed.

(** The day [setFullYear(year - n)] lands on never moves back as the
    days go by. *)
Lemma years_ago_day_mono (n d1 d2 : Z) :
  d1 <= d2 ->
  MakeDay (YearFromDay d1 - n) (MonthFromDay d1) (DateFromDay d1)
  <= MakeDay (YearFromDay d2 - n) (MonthFromDay d2) (DateFromDay d2).
Proof.
  intros H. destruct (Z.eq_dec d1 d2) as [->|Hne]; [lia|].
  destruct (civil_of_day d1) as (Hm1 & Hd1 & _).
  destruct (civil_of_day d2) as (Hm2 & Hd2 & _).
  pose proof (civil_order d1 d2 ltac:(lia)) as C.
  pose proof (DaysInMonth_leap (InLeapYear (YearFromDay d1)) _ Hm1).
  apply MakeDay_order_carry; try lia.
  cbn [earlier] in *. lia.
Qed.

Lemma Day_mono (t t' : Z) : t <= t' -> Day t <= Day t'.
Proof. intros H. unfold Day, msPerDay. apply Z.div_le_mono; lia. Qed.

Lemma check_date_later (h : host) (now now' day : Z) :
  now <= now' ->
  check_date h now (Some (MakeDate day 0 - LocalTZA h)) = true ->
  check_date h now' (Some (MakeDate day 0 - LocalTZA h)) = true.
Proof.
  intros Hn. unfold check_date, start_of_today, years_ago.
  unfold YearFromTime, MonthFromTime, DateFromTime.
  pose proof (Day_mono (now + LocalTZA h) (now' + LocalTZA h) ltac:(lia)) as HD.
  pose proof (years_ago_day_mono 18 _ _ HD) as HY.
  pose proof (TimeWithinDay_range (now + LocalTZA h)) as T.
  pose proof (TimeWithinDay_range (now' + LocalTZA h)) as T'.
  set (D := Day (now + LocalTZA h)) in *. set (D' := Day (now' + LocalTZA h)) in *.
  set (A := MakeDay (YearFromDay D - 18) (MonthFromDay D) (DateFromDay D)) in *.
  set (A' := MakeDay (YearFromDay D' - 18) (MonthFromDay D') (DateFromDay D')) in *.
  unfold MakeDate, msPerDay in *.
  destruct (Z.leb_spec (D * 86400000 + 0 - LocalTZA h) (day * 86400000 + 0 - LocalTZA h));
    [discriminate|].
  destruct (Z.ltb_spec (A * 86400000 + TimeWithinDay (now + LocalTZA h) - LocalTZA h)
                       (day * 86400000 + 0 - LocalTZA h)); [discriminate|].
  intros _.
  destruct (Z.leb_spec (D' * 86400000 + 0 - LocalTZA h) (day * 86400000 + 0 - LocalTZA h));
    [lia|].
  destruct (Z.ltb_spec (A' * 86400000 + TimeWithinDay (now' + LocalTZA h) - LocalTZA h)
                       (day * 86400000 + 0 - LocalTZA h)); [lia|].
  reflexivity.
Qed.

(** X6: with local time in UTC, a date of birth that is accepted at one
    instant is accepted at every later instant. *)
Theorem isValidDateOfBirth_stays_valid
    (h : host) (now now' : Z) (dateString : string) :
  LocalTZA h = 0 -> now <= now' ->
  isValidDateOfBirth h now dateString = true ->
  isValidDateOfBirth h now' dateString = true.
Proof.
  intros Hz Hn. unfold isValidDateOfBirth.
  assert (Hf : forall y m d,
             check_date h now (Date_of_fields h y m d) = true ->
             check_date h now' (Date_of_fields h y m d) = true).
  { intros y m d. unfold Date_of_fields. apply check_date_later, Hn. }
  assert (Hs : forall sep,
             check_date h now (Date_of_day_month_year h sep dateString) = true ->
             check_date h now' (Date_of_day_month_year h sep dateString) = true).
  { intros sep. unfold Date_of_day_month_year.
    destruct (split sep dateString) as [|a [|b [|c l]]]; try discriminate. apply Hf. }
  destruct (test isoRegex dateString).
  - unfold Date_of_iso. destruct (_ && _); [|discriminate].
    pose proof (check_date_later h now now'
                  (MakeDay (number_of_digits (slice 0 4 dateString))
                           (number_of_digits (slice 5 2 dateString) - 1)
                           (number_of_digits (slice 8 2 dateString))) Hn) as L.
    rewrite Hz, !Z.sub_0_r in L. exact L.
  - destruct (test slashRegex dateString); [apply Hs|].
    destruct (test dashRegex dateString); [apply Hs | discriminate].
Qed.

Lemma isValidDateOfBirth_stays_valid_witness :
  LocalTZA strict_host = 0 /\ 1709208000000 <= 1709251200000
  /\ isValidDateOfBirth strict_host 1709208000000 "2006-03-01" = true
  /\ isValidDateOfBirth strict_host 1709251200000 "2006-03-01" = true.
Proof.
  split; [reflexivity|]. split; [lia|].
  assert (V : isValidDateOfBirth strict_host 1709208000000 "2006-03-01" = true)
    by (vm_compute; reflexivity).
  split; [exact V|].
  apply (isValidDateOfBirth_stays_valid strict_host 1709208000000 1709251200000
           "2006-03-01" eq_refl); [lia | exact V].
Defined.

(** ** The agent between calls *)

Lemma reachable_has_schema (h : host) (a : agent) : reachable h a -> has_schema a.
Proof.
  induction 1 as [now | a now j _ IH | a _ IH].
  - apply new_agent_has_schema.
  - apply (validateAndStore_grows h now j a IH).
  - intros s. rewrite moveToNextSection_collectedData. apply IH.
Qed.

Lemma missing_field (a : agent) (k : string) :
  In k (getMissingFields a)
  <-> In k (Object_keys (current_data a)) /\ obj_get k (current_data a) = Some VNull.
Proof.
  unfold getMissingFields. rewrite filter_In.
  split; intros [Hin H]; (split; [exact Hin|]).
  - apply negb_true_iff in H. destruct (obj_get k (current_data a)) as [[| |]|];
      try discriminate H; reflexivity.
  - rewrite H. reflexivity.
Qed.

Lemma in_keys_get (k : string) (o : object) :
  In k (Object_keys o) -> exists v, obj_get k o = Some v.
Proof.
  unfold Object_keys. induction o as [|[k0 v0] o IH]; cbn [map fst In obj_get].
  - intros [].
  - intros [<- | H].
    + rewrite String.eqb_refl. eauto.
    + destruct (String.eqb k k0); eauto.
Qed.

Lemma get_in_keys (k : string) (v : value) (o : object) :
  obj_get k o = Some v -> In k (Object_keys o).
Proof.
  unfold Object_keys. induction o as [|[k0 v0] o IH]; cbn [map fst In obj_get].
  - discriminate.
  - destruct (String.eqb k k0) eqn:E.
    + apply String.eqb_eq in E. intros _. left. symmetry. exact E.
    + intros H. right. apply IH, H.
Qed.

Lemma forallb_entries_get (f : string -> value -> bool) (o : object) :
  List.NoDup (Object_keys o) ->
  (forallb (fun '(key, value) => f key value) o = true
   <-> forall k v, obj_get k o = Some v -> f k v = true).
Proof.
  unfold Object_keys. induction o as [|[k0 v0] o IH]; cbn [map fst forallb obj_get].
  - intros _. split; [discriminate | reflexivity].
  - intros Hnd. inversion Hnd as [|? ? Hnotin Hnd']; subst.
    rewrite andb_true_iff, (IH Hnd'). split.
    + intros [H0 H] k v. destruct (String.eqb k k0) eqn:E.
      * apply String.eqb_eq in E; subst k0. intros [= <-]. exact H0.
      * apply H.
    + intros H. split.
      * apply H. rewrite String.eqb_refl. reflexivity.
      * intros k v Hk. apply H. destruct (String.eqb k k0) eqn:E; [|exact Hk].
        apply String.eqb_eq in E; subst k0. exfalso. apply Hnotin.
        exact (get_in_keys _ _ _ Hk).
Qed.

Lemma plain_section_complete (o : object) :
  List.NoDup (Object_keys o) ->
  forallb (fun k => negb (includes "Confirmed" k)) (Object_keys o) = true ->
  ~ In "middleName" (Object_keys o) ->
  (forallb (fun '(key, value) =>
              if includes "Confirmed" key then true else not_null (Some value)) o = true
   <-> forall k, In k (Object_keys o) -> k <> "middleName" ->
                 obj_get k o <> Some VNull).
Proof.
  intros Hnd Hc Hm.
  rewrite (forallb_entries_get
             (fun key value => if includes "Confirmed" key then true
                               else not_null (Some value)) o Hnd).
  rewrite forallb_forall in Hc.
  split.
  - intros H k Hin _ Hk. specialize (H k VNull Hk). cbn beta in H.
    specialize (Hc k Hin). apply negb_true_iff in Hc. rewrite Hc in H. discriminate H.
  - intros H k v Hk. pose proof (get_in_keys _ _ _ Hk) as Hin.
    specialize (Hc k Hin). apply negb_true_iff in Hc. rewrite Hc.
    apply not_null_true. intros E. apply (H k Hin).
    + intros ->. exact (Hm Hin).
    + rewrite Hk. exact E.
Qed.

Ltac distinct_keys :=
  match goal with
  | |- List.NoDup ?l => let l' := eval vm_compute in l in change (List.NoDup l')
  end;
  repeat (constructor; [cbn [In]; intuition discriminate|]); constructor.

(** X7: between calls, the current section is complete exactly when no
    field of it other than [middleName] is missing. *)
Theorem isCurrentSectionComplete_no_missing_field (h : host) (a : agent) :
  reachable h a ->
  (isCurrentSectionComplete a = true
   <-> forall k, In k (getMissingFields a) -> k = "middleName").
Proof.
  intros R.
  pose proof (reachable_has_schema h a R (currentSection a)) as K.
  fold (current_data a) in K.
  assert (M : (forall k, In k (getMissingFields a) -> k = "middleName")
              <-> forall k, In k (Object_keys (current_data a)) -> k <> "middleName" ->
                            obj_get k (current_data a) <> Some VNull).
  { split.
    - intros H k Hin Hne Hk. apply Hne, H, missing_field. split; assumption.
    - intros H k Hk. apply missing_field in Hk as [Hin Hnull].
      destruct (String.eqb_spec k "middleName") as [E|E]; [exact E|].
      exfalso. exact (H k Hin E Hnull). }
  rewrite M. clear M.
  unfold isCurrentSectionComplete.
  destruct (currentSection a) eqn:S; cbn [section_eqb].
  - (* personal *)
    destruct (reachable_flags h a R) as [[[b1 B1] [b2 B2]] [F1 F2]].
    unfold current_data in *. rewrite S in *. cbn [section_data] in *.
    assert (K' : Object_keys (personal_data (collectedData a))
                 = ["firstName"; "middleName"; "lastName"; "email"; "emailConfirmed";
                    "phoneNumber"; "dateOfBirth"; "dobConfirmed"; "nationality"])
      by (rewrite K; reflexivity).
    rewrite K'.
    rewrite !andb_true_iff, !not_null_true, !is_true_true.
    split.
    + intros (((((((H1 & H2) & H3) & H4) & H5) & H6) & H7) & H8) k Hin Hne.
      cbn [In] in Hin.
      destruct Hin as [<-|[<-|[<-|[<-|[<-|[<-|[<-|[<-|[<-|[]]]]]]]]]];
        try assumption; try (exfalso; apply Hne; reflexivity);
        intros E; first [rewrite H4 in E | rewrite H7 in E]; discriminate E.
    + intros H.
      assert (G : forall k, In k ["firstName"; "lastName"; "email"; "phoneNumber";
                                   "dateOfBirth"; "nationality"] ->
                            obj_get k (personal_data (collectedData a)) <> Some VNull).
      { intros k Hin. apply H.
        - cbn [In] in *. intuition.
        - cbn [In] in Hin. intuition (subst; discriminate). }
      pose proof (G "email" ltac:(cbn; tauto)) as Ge.
      pose proof (G "dateOfBirth" ltac:(cbn; tauto)) as Gd.
      assert (E1 : obj_get "emailConfirmed" (personal_data (collectedData a))
                   = Some (VBool true)).
      { destruct (in_keys_get "email" (personal_data (collectedData a))) as [v Hv].
        { rewrite K'. cbn [In]; tauto. }
        apply (F1 v Hv). intros ->. exact (Ge Hv). }
      assert (E2 : obj_get "dobConfirmed" (personal_data (collectedData a))
                   = Some (VBool true)).
      { destruct (in_keys_get "dateOfBirth" (personal_data (collectedData a))) as [v Hv].
        { rewrite K'. cbn [In]; tauto. }
        apply (F2 v Hv). intros ->. exact (Gd Hv). }
      repeat split; try assumption; apply G; cbn; tauto.
  - unfold current_data in *. rewrite S in *. cbn [section_data] in *.
    apply plain_section_complete; rewrite K;
      [distinct_keys | reflexivity | intros Hin; vm_compute in Hin; intuition discriminate].
  - unfold current_data in *. rewrite S in *. cbn [section_data] in *.
    apply plain_section_complete; rewrite K;
      [distinct_keys | reflexivity | intros Hin; vm_compute in Hin; intuition discriminate].
  - unfold current_data in *. rewrite S in *. cbn [section_data] in *.
    apply plain_section_complete; rewrite K;
      [distinct_keys | reflexivity | intros Hin; vm_compute in Hin; intuition discriminate].
Qed.

Lemma isCurrentSectionComplete_no_missing_field_witness :
  reachable strict_host filled_personal
  /\ getMissingFields filled_personal = ["middleName"]
  /\ (isCurrentSectionComplete filled_personal = true
      <-> forall k, In k (getMissingFields filled_personal) -> k = "middleName").
Proof.
  assert (R : reachable strict_host filled_personal)
    by (unfold filled_personal; apply reachable_store, reachable_new).
  split; [exact R|]. split; [vm_compute; reflexivity|].
  apply (isCurrentSectionComplete_no_missing_field strict_host filled_personal R).
Defined.

Lemma section_index_range (a : agent) : 0 <= section_index a <= 3.
Proof. unfold section_index. destruct (currentSection a); vm_compute; split; discriminate. Qed.

Lemma validateAndStore_currentSection (h : host) (now : Z) (j : json) (a : agent) :
  currentSection (state_after (validateAndStoreExtractedData h now j a) a)
  = currentSection a.
Proof.
  unfold validateAndStoreExtractedData.
  destruct (Object_entries j); reflexivity.
Qed.

Lemma updateWithLLM_state (h : host) (now : Z) (reply : completion) (a : agent) :
  state_after (updateCollectedDataWithLLM h now reply a) a = a
  \/ exists extractedData,
       state_after (updateCollectedDataWithLLM h now reply a) a
       = state_after (validateAndStoreExtractedData h now extractedData a) a.
Proof.
  destruct (updateWithLLM_cases h now reply a) as [-> | (j & a' & E & ->)].
  - left; reflexivity.
  - right. exists j. rewrite E. reflexivity.
Qed.

Lemma apply_operation_section_index (h : host) (op : operation) (a : agent) :
  section_index (apply_operation h op a)
  = if is_move op then Z.min 3 (section_index a + 1) else section_index a.
Proof.
  unfold section_index. destruct op as [now j | now reply |]; cbn [apply_operation is_move].
  - rewrite validateAndStore_currentSection. reflexivity.
  - destruct (updateWithLLM_state h now reply a) as [-> | [j ->]]; [reflexivity|].
    rewrite validateAndStore_currentSection. reflexivity.
  - destruct a as [cd s created]. destruct s; reflexivity.
Qed.

(** X8: over any sequence of calls the current section moves on by one
    place for each [moveToNextSection], up to the last section: it never
    goes back and never skips a section. *)
Theorem currentSection_moves_forward (h : host) (ops : list operation) (a : agent) :
  section_index (apply_operations h ops a) = Z.min 3 (section_index a + moves ops).
Proof.
  unfold apply_operations, moves.
  revert a; induction ops as [|op ops IH]; intros a; cbn [fold_left List.filter].
  - pose proof (section_index_range a). cbn [length]. lia.
  - rewrite IH, apply_operation_section_index.
    pose proof (section_index_range a).
    destruct (is_move op); cbn [length]; lia.
Qed.

(** X9: [updateCollectedDataWithLLM] always returns, and whatever the
    completion delivers it leaves the other sections, the current
    section's name and [createdAt] as they were. *)
Theorem updateCollectedDataWithLLM_frame
    (h : host) (now : Z) (reply : completion) (a : agent) :
  exists a',
    updateCollectedDataWithLLM h now reply a = Ok a'
    /\ currentSection a' = currentSection a
    /\ createdAt a' = createdAt a
    /\ forall s, s <> currentSection a ->
         section_data s (collectedData a') = section_data s (collectedData a).
Proof.
  destruct (updateWithLLM_cases h now reply a) as [-> | (j & a' & E & ->)].
  - exists a. repeat split; reflexivity.
  - exists a'. split; [reflexivity|].
    unfold validateAndStoreExtractedData in E.
    destruct (Object_entries j) as [entries|]; [|discriminate E].
    cbn [of_option bind] in E. injection E as <-.
    unfold with_current_data. cbn [currentSection createdAt collectedData].
    repeat split; try reflexivity.
    intros s Hs. apply section_data_with_other. exact Hs.
Qed.

(** ** What is stored has passed its validator *)

Lemma store_entry_value (h : host) (now : Z) (sd : object) (key : string) (raw : json) :
  store_entry h now sd (key, raw)
  = match raw with
    | JNull => sd
    | _ => store_value h now sd key (trim (to_String raw))
    end.
Proof. destruct raw; reflexivity. Qed.

Lemma set_well_stored (h : host) (k s : string) (sd : object) :
  well_stored h sd -> accepted_value h k s ->
  well_stored h (obj_set k (VStr s) sd).
Proof.
  intros W A k' v. rewrite obj_get_set.
  destruct (String.eqb k' k) eqn:E; [|apply W].
  apply String.eqb_eq in E; subst k'. intros [= <-]. exact A.
Qed.

Lemma set_flag_well_stored (h : host) (k : string) (sd : object) :
  k = "emailConfirmed" \/ k = "dobConfirmed" ->
  well_stored h sd -> well_stored h (obj_set k (VBool true) sd).
Proof.
  intros F W k' v. rewrite obj_get_set.
  destruct (String.eqb k' k) eqn:E; [|apply W].
  apply String.eqb_eq in E; subst k'. intros [= <-]. exact F.
Qed.

Lemma store_value_well_stored (h : host) (now : Z) (sd : object) (key value : string) :
  well_stored h sd -> well_stored h (store_value h now sd key value).
Proof.
  intros W. unfold store_value.
  destruct (hasOwnProperty key sd); cbn [negb]; [|exact W].
  destruct (not_null (obj_get key sd)); [exact W|].
  destruct (String.eqb key "email") eqn:E1.
  { apply String.eqb_eq in E1; subst key.
    destruct (isValidEmail value) eqn:V; [|exact W].
    apply set_flag_well_stored; [left; reflexivity|].
    apply set_well_stored; [exact W | exact V]. }
  destruct (String.eqb key "phoneNumber") eqn:E2.
  { apply String.eqb_eq in E2; subst key.
    destruct (isValidPhoneNumber value) eqn:V; [|exact W].
    apply set_well_stored; [exact W | exact V]. }
  destruct (String.eqb key "dateOfBirth") eqn:E3.
  { apply String.eqb_eq in E3; subst key.
    destruct (isValidDateOfBirth h now value) eqn:V; [|exact W].
    apply set_flag_well_stored; [right; reflexivity|].
    apply set_well_stored; [exact W|]. exists now. exact V. }
  destruct (String.eqb key "firstName" || String.eqb key "lastName"
            || String.eqb key "middleName" || String.eqb key "spouseName") eqn:E4.
  { destruct (isValidName value) eqn:V; [|exact W].
    apply set_well_stored; [exact W|].
    unfold accepted_value. rewrite E1, E2, E3, E4. exact V. }
  destruct (String.eqb key "emergencyContact") eqn:E5.
  { destruct (3 <=? String.length value)%nat eqn:V; [|exact W].
    apply set_well_stored; [exact W|].
    unfold accepted_value. rewrite E1, E2, E3, E4, E5. apply Nat.leb_le, V. }
  destruct (String.eqb key "yearsOfExperience") eqn:E6.
  { destruct (match_digits value) as [numMatch|] eqn:M.
    - apply set_well_stored; [exact W|].
      unfold accepted_value. rewrite E1, E2, E3, E4, E5, E6. left.
      destruct (match_digits_is_run _ _ M) as (before & after & _ & _ & Hne & Hr & _).
      split; assumption.
    - destruct (negb (isNaN_without_digits value)) eqn:V; [|exact W].
      apply set_well_stored; [exact W|].
      unfold accepted_value. rewrite E1, E2, E3, E4, E5, E6. right.
      split; [exact M | apply negb_true_iff, V]. }
  destruct (0 <? String.length value)%nat eqn:V; [|exact W].
  apply set_well_stored; [exact W|].
  unfold accepted_value. rewrite E1, E2, E3, E4, E5, E6.
  intros ->. discriminate V.
Qed.

Lemma store_entries_well_stored (h : host) (now : Z) (entries : list (string * json))
    (sd : object) :
  well_stored h sd -> well_stored h (fold_left (store_entry h now) entries sd).
Proof.
  revert sd; induction entries as [|[key raw] entries IH]; intros sd W; cbn [fold_left].
  - exact W.
  - apply IH. rewrite store_entry_value.
    destruct raw; try exact W; apply store_value_well_stored, W.
Qed.

Lemma get_in (k : string) (v : value) (o : object) :
  obj_get k o = Some v -> In (k, v) o.
Proof.
  induction o as [|[k0 v0] o IH]; cbn [obj_get In]; [discriminate|].
  destruct (String.eqb k k0) eqn:E.
  - apply String.eqb_eq in E; subst k0. intros [= <-]. left; reflexivity.
  - intros H. right. apply IH, H.
Qed.

Lemma new_agent_well_stored (h : host) (now : Z) (s : section_name) :
  well_stored h (section_data s (collectedData (new_agent now))).
Proof.
  intros k v H. apply get_in in H.
  destruct s; cbn in H;
    repeat (destruct H as [[= <- <-] | H]; [try exact I; auto|]);
    destruct H.
Qed.

(** X10: in every agent reached from a new one, each field holds
    [null], or a string that passed the check made for its key (the
    e-mail, phone, date and name validators, the length of the
    emergency contact, a digit run or a numeric string for the years
    of experience, a non-empty string elsewhere); only the two
    confirmation flags hold booleans. *)
Theorem stored_values_passed_validation (h : host) (a : agent) :
  reachable h a ->
  forall s, well_stored h (section_data s (collectedData a)).
Proof.
  induction 1 as [now | a now j _ IH | a _ IH]; intros s.
  - apply new_agent_well_stored.
  - unfold validateAndStoreExtractedData.
    destruct (Object_entries j) as [entries|]; cbn [of_option bind state_after];
      [|apply IH].
    unfold with_current_data, current_data. cbn [collectedData].
    destruct (section_name_eq_dec s (currentSection a)) as [->|Hne].
    + rewrite section_data_with_same. apply store_entries_well_stored, IH.
    + rewrite section_data_with_other by exact Hne. apply IH.
  - rewrite moveToNextSection_collectedData. apply IH.
Qed.

Lemma stored_values_passed_validation_witness :
  reachable strict_host filled_personal
  /\ obj_get "email" (personal_data (collectedData filled_personal))
     = Some (VStr "john@example.com")
  /\ well_stored strict_host (section_data personal (collectedData filled_personal)).
Proof.
  assert (R : reachable strict_host filled_personal)
    by (unfold filled_personal; apply reachable_store, reachable_new).
  split; [exact R|]. split; [vm_compute; reflexivity|].
  apply (stored_values_passed_validation strict_host filled_personal R personal).
Defined.

(** ** Blank values *)

Lemma isValidDateOfBirth_empty (h : host) (now : Z) : isValidDateOfBirth h now "" = false.
Proof.
  unfold isValidDateOfBirth.
  assert (E1 : test isoRegex "" = false) by (vm_compute; reflexivity).
  assert (E2 : test slashRegex "" = false) by (vm_compute; reflexivity).
  assert (E3 : test dashRegex "" = false) by (vm_compute; reflexivity).
  rewrite E1, E2, E3. reflexivity.
Qed.

(** X11: an extracted value that is blank once converted and trimmed is
    dropped under every key but [yearsOfExperience], where the empty
    string is stored (it converts to the number 0, so [isNaN] lets it
    through). *)
Theorem blank_value_stored_as_yearsOfExperience
    (h : host) (now : Z) (sd : object) (key : string) (raw : json) :
  raw <> JNull ->
  trim (to_String raw) = "" ->
  obj_get key sd = Some VNull ->
  store_entry h now sd (key, raw)
  = if String.eqb key "yearsOfExperience" then obj_set key (VStr "") sd else sd.
Proof.
  intros Hraw Hblank Hnull.
  assert (E : store_entry h now sd (key, raw) = store_value h now sd key "").
  { rewrite store_entry_value, Hblank. destruct raw; try reflexivity. contradiction. }
  rewrite E. unfold store_value, hasOwnProperty. rewrite Hnull. cbn [negb not_null].
  rewrite isValidDateOfBirth_empty.
  change (isValidEmail "") with false.
  change (isValidPhoneNumber "") with false.
  change (isValidName "") with false.
  change (match_digits "") with (@None string).
  change (negb (isNaN_without_digits "")) with true.
  cbn [String.length Nat.leb Nat.ltb].
  destruct (String.eqb key "yearsOfExperience") eqn:E6.
  - apply String.eqb_eq in E6; subst key. reflexivity.
  - repeat match goal with
           | |- context [if ?b then _ else _] => destruct b
           end; reflexivity.
Qed.

Lemma blank_value_stored_as_yearsOfExperience_witness :
  store_entry strict_host 0 (professional_data initial_collectedData)
              ("yearsOfExperience", JStr "  ")
  = obj_set "yearsOfExperience" (VStr "") (professional_data initial_collectedData)
  /\ store_entry strict_host 0 (professional_data initial_collectedData)
                 ("company", JStr "  ")
     = professional_data initial_collectedData.
Proof.
  split.
  - apply (blank_value_stored_as_yearsOfExperience strict_host 0
             (professional_data initial_collectedData) "yearsOfExperience" (JStr "  "));
      [discriminate | reflexivity | reflexivity].
  - apply (blank_value_stored_as_yearsOfExperience strict_host 0
             (professional_data initial_collectedData) "company" (JStr "  "));
      [discriminate | reflexivity | reflexivity].
Defined.

(** ** Bounds of the completion percentage *)

Lemma completed_count_cons (k : string) (v : value) (o : object) :
  completed_count ((k, v) :: o)
  = (if not_null (Some v) then 1 else 0) + completed_count o.
Proof.
  unfold completed_count, Object_values. cbn [map snd List.filter].
  destruct (not_null (Some v)); cbn [length]; lia.
Qed.

Lemma field_count_cons (e : string * value) (o : object) :
  field_count (e :: o) = 1 + field_count o.
Proof. unfold field_count. cbn [length]. lia. Qed.

Lemma completed_count_full (o : object) :
  completed_count o = field_count o <-> forall k, ~ In (k, VNull) o.
Proof.
  induction o as [|[k0 v0] o IH].
  - split; [intros _ k [] | reflexivity].
  - rewrite completed_count_cons, field_count_cons.
    pose proof (completed_count_bound o) as B.
    split.
    + intros E k [[= -> ->] | Hin].
      * cbn [not_null] in E. lia.
      * destruct (not_null (Some v0)); [|lia].
        apply (proj1 IH ltac:(lia) k Hin).
    + intros H.
      assert (N : not_null (Some v0) = true).
      { destruct v0; try reflexivity. exfalso. apply (H k0). left; reflexivity. }
      rewrite N. apply Z.add_cancel_l, IH. intros k Hin. apply (H k). right; exact Hin.
Qed.

Lemma completed_count_one (k : string) (v : value) (o : object) :
  obj_get k o = Some v -> v <> VNull -> 1 <= completed_count o.
Proof.
  induction o as [|[k0 v0] o IH]; cbn [obj_get]; [discriminate|].
  rewrite completed_count_cons. pose proof (completed_count_bound o) as B.
  destruct (String.eqb k k0).
  - intros [= ->] Hv. destruct v; [contradiction | cbn [not_null]; lia ..].
  - intros Hk Hv. specialize (IH Hk Hv). destruct (not_null (Some v0)); lia.
Qed.

Lemma completed_count_two (k1 k2 : string) (v1 v2 : value) (o : object) :
  k1 <> k2 ->
  obj_get k1 o = Some v1 -> v1 <> VNull ->
  obj_get k2 o = Some v2 -> v2 <> VNull ->
  2 <= completed_count o.
Proof.
  intros Hne. induction o as [|[k0 v0] o IH]; cbn [obj_get]; [discriminate|].
  rewrite completed_count_cons.
  destruct (String.eqb k1 k0) eqn:E1; destruct (String.eqb k2 k0) eqn:E2.
  - apply String.eqb_eq in E1, E2. congruence.
  - intros [= ->] Hv1 Hk2 Hv2.
    pose proof (completed_count_one _ _ _ Hk2 Hv2).
    destruct v1; [contradiction | cbn [not_null]; lia ..].
  - intros Hk1 Hv1 [= ->] Hv2.
    pose proof (completed_count_one _ _ _ Hk1 Hv1).
    destruct v2; [contradiction | cbn [not_null]; lia ..].
  - intros Hk1 Hv1 Hk2 Hv2. specialize (IH Hk1 Hv1 Hk2 Hv2).
    destruct (not_null (Some v0)); lia.
Qed.

Lemma schema_percentage_bounds (a : agent) :
  has_schema a -> flags_are_booleans (personal_data (collectedData a)) ->
  exists p, getCompletionPercentage a = Some p
            /\ 9 <= p <= 100
            /\ (p = 100 <-> no_null_field (collectedData a)).
Proof.
  intros H [[b1 B1] [b2 B2]].
  destruct (schema_percentage a H) as [B ->].
  assert (T : 2 <= completed_count (personal_data (collectedData a))).
  { apply (completed_count_two "emailConfirmed" "dobConfirmed" (VBool b1) (VBool b2));
      [discriminate | exact B1 | discriminate | exact B2 | discriminate]. }
  pose proof (field_count_keys _ _ (H personal)) as F1.
  pose proof (field_count_keys _ _ (H educational)) as F2.
  pose proof (field_count_keys _ _ (H professional)) as F3.
  pose proof (field_count_keys _ _ (H family)) as F4.
  cbn [section_data] in F1, F2, F3, F4.
  change (field_count (personal_data initial_collectedData)) with 9 in F1.
  change (field_count (educational_data initial_collectedData)) with 4 in F2.
  change (field_count (professional_data initial_collectedData)) with 5 in F3.
  change (field_count (family_data initial_collectedData)) with 4 in F4.
  pose proof (completed_count_bound (personal_data (collectedData a))) as C1.
  pose proof (completed_count_bound (educational_data (collectedData a))) as C2.
  pose proof (completed_count_bound (professional_data (collectedData a))) as C3.
  pose proof (completed_count_bound (family_data (collectedData a))) as C4.
  pose proof (completed_count_full (personal_data (collectedData a))) as G1.
  pose proof (completed_count_full (educational_data (collectedData a))) as G2.
  pose proof (completed_count_full (professional_data (collectedData a))) as G3.
  pose proof (completed_count_full (family_data (collectedData a))) as G4.
  eexists. split; [reflexivity|].
  unfold round_percent, no_null_field.
  split; [split; Z.div_mod_to_equations; lia|].
  split.
  - intros E s. 
    assert (completed_count (personal_data (collectedData a))
            + completed_count (educational_data (collectedData a))
            + completed_count (professional_data (collectedData a))
            + completed_count (family_data (collectedData a)) = 22)
      by (revert E; Z.div_mod_to_equations; lia).
    destruct s; cbn [section_data]; [apply G1 | apply G2 | apply G3 | apply G4]; lia.
  - intros N.
    pose proof (proj2 G1 (N personal)). pose proof (proj2 G2 (N educational)).
    pose proof (proj2 G3 (N professional)). pose proof (proj2 G4 (N family)).
    Z.div_mod_to_equations; lia.
Qed.

(** X12: in every agent reached from a new one the completion
    percentage is a number between 9 and 100, and it is 100 exactly when
    no field at all is [null], the optional middle name included. *)
Theorem getCompletionPercentage_bounds (h : host) (a : agent) :
  reachable h a ->
  exists p, getCompletionPercentage a = Some p
            /\ 9 <= p <= 100
            /\ (p = 100 <-> no_null_field (collectedData a)).
Proof.
  intros R. apply schema_percentage_bounds.
  - apply (reachable_has_schema h a R).
  - apply (reachable_flags h a R).
Qed.

Lemma getCompletionPercentage_bounds_witness :
  reachable strict_host filled_personal
  /\ getCompletionPercentage filled_personal = Some 36
  /\ exists p, getCompletionPercentage filled_personal = Some p
               /\ 9 <= p <= 100
               /\ (p = 100 <-> no_null_field (collectedData filled_personal)).
Proof.
  assert (R : reachable strict_host filled_personal)
    by (unfold filled_personal; apply reachable_store, reachable_new).
  split; [exact R|]. split; [vm_compute; reflexivity|].
  apply (getCompletionPercentage_bounds strict_host filled_personal R).
Defined.

(** ** Processing the same extraction again *)

Lemma evolves_null_back (sd sd' : object) (k : string) :
  evolves sd sd' -> obj_get k sd' = Some VNull -> obj_get k sd = Some VNull.
Proof.
  intros [K Kept _] H.
  pose proof (has_property_of_get _ _ _ H) as Hown.
  rewrite (hasOwnProperty_keys _ _ _ K) in Hown.
  unfold hasOwnProperty in Hown.
  destruct (obj_get k sd) as [v|] eqn:E; [|discriminate Hown].
  destruct v as [|b|s]; [reflexivity | exfalso ..].
  - destruct (Kept k (VBool b) E ltac:(discriminate)) as [E' | [_ E']];
      rewrite H in E'; discriminate E'.
  - destruct (Kept k (VStr s) E ltac:(discriminate)) as [E' | [_ E']];
      rewrite H in E'; discriminate E'.
Qed.

(** An entry that leaves its field [null] leaves the whole object. *)
Lemma store_entry_rejects (h : host) (now : Z) (sd : object) (key : string) (raw : json) :
  obj_get key (store_entry h now sd (key, raw)) = Some VNull ->
  store_entry h now sd (key, raw) = sd.
Proof.
  destruct (store_entry_effect h now sd key raw) as [ | s _ _ _ | s -> _ | s -> _].
  - reflexivity.
  - rewrite obj_get_set_eq. discriminate.
  - rewrite obj_get_set_neq by discriminate. rewrite obj_get_set_eq. discriminate.
  - rewrite obj_get_set_neq by discriminate. rewrite obj_get_set_eq. discriminate.
Qed.

Lemma obj_set_changes (k : string) (v : value) (sd : object) :
  obj_get k sd = Some VNull -> v <> VNull -> obj_set k v sd <> sd.
Proof.
  intros H Hv E. apply (f_equal (obj_get k)) in E.
  rewrite obj_get_set_eq, H in E. congruence.
Qed.

Lemma obj_set_flag_changes (flag k : string) (v : value) (sd : object) :
  flag <> k -> obj_get k sd = Some VNull -> v <> VNull ->
  obj_set flag (VBool true) (obj_set k v sd) <> sd.
Proof.
  intros Hne H Hv E. apply (f_equal (obj_get k)) in E.
  rewrite obj_get_set_neq, obj_get_set_eq, H in E by congruence. congruence.
Qed.

(** Whether an entry is rejected depends on the object only through the
    presence and the nullness of its field. *)
Lemma store_value_rejects_again
    (h : host) (now : Z) (sd sd' : object) (key value : string) :
  obj_get key sd = Some VNull -> obj_get key sd' = Some VNull ->
  store_value h now sd key value = sd ->
  store_value h now sd' key value = sd'.
Proof.
  intros H H'. unfold store_value, hasOwnProperty. rewrite H, H'.
  cbn [negb not_null].
  destruct (String.eqb key "email") eqn:E1.
  { apply String.eqb_eq in E1. 
    destruct (isValidEmail value); [|reflexivity].
    intros E. exfalso. revert E. apply obj_set_flag_changes; [subst; discriminate | exact H | discriminate]. }
  destruct (String.eqb key "phoneNumber").
  { destruct (isValidPhoneNumber value); [|reflexivity].
    intros E. exfalso. revert E. apply obj_set_changes; [exact H | discriminate]. }
  destruct (String.eqb key "dateOfBirth") eqn:E3.
  { apply String.eqb_eq in E3.
    destruct (isValidDateOfBirth h now value); [|reflexivity].
    intros E. exfalso. revert E. apply obj_set_flag_changes; [subst; discriminate | exact H | discriminate]. }
  destruct (_ || _).
  { destruct (isValidName value); [|reflexivity].
    intros E. exfalso. revert E. apply obj_set_changes; [exact H | discriminate]. }
  destruct (String.eqb key "emergencyContact").
  { destruct (_ <=? _)%nat; [|reflexivity].
    intros E. exfalso. revert E. apply obj_set_changes; [exact H | discriminate]. }
  destruct (String.eqb key "yearsOfExperience").
  { destruct (match_digits value).
    - intros E. exfalso. revert E. apply obj_set_changes; [exact H | discriminate].
    - destruct (negb _); [|reflexivity].
      intros E. exfalso. revert E. apply obj_set_changes; [exact H | discriminate]. }
  destruct (_ <? _)%nat; [|reflexivity].
  intros E. exfalso. revert E. apply obj_set_changes; [exact H | discriminate].
Qed.

Lemma store_entry_skips (h : host) (now : Z) (sd : object) (key : string) (raw : json) :
  obj_get key sd <> Some VNull -> store_entry h now sd (key, raw) = sd.
Proof.
  intros H. rewrite store_entry_value. unfold store_value, hasOwnProperty.
  destruct (obj_get key sd) as [[| |]|]; try contradiction;
    destruct raw; reflexivity.
Qed.

Lemma store_entries_settled (h : host) (now : Z) (entries : list (string * json))
    (sd final : object) :
  flags_present sd ->
  evolves (fold_left (store_entry h now) entries sd) final ->
  fold_left (store_entry h now) entries final = final.
Proof.
  revert sd; induction entries as [|[key raw] entries IH]; intros sd F Ev;
    cbn [fold_left] in *; [reflexivity|].
  pose proof (entry_effect_evolves _ _ _ F (store_entry_effect h now sd key raw)) as E1.
  pose proof (flags_present_keys _ _ (ev_keys _ _ E1) F) as F1.
  pose proof (store_entries_evolve h now entries _ F1) as E2.
  assert (S : store_entry h now final (key, raw) = final).
  { destruct (obj_get key final) as [[| |]|] eqn:G;
      try (apply store_entry_skips; rewrite G; discriminate).
    pose proof (evolves_null_back _ _ _ (evolves_trans _ _ _ E2 Ev) G) as G1.
    pose proof (evolves_null_back _ _ _ E1 G1) as G0.
    pose proof (store_entry_rejects h now sd key raw G1) as Rj.
    rewrite store_entry_value in Rj |- *.
    destruct raw; try reflexivity;
      apply (store_value_rejects_again h now sd final); assumption. }
  rewrite S. apply (IH _ F1 Ev).
Qed.

(** X13: processing the same extracted data a second time, at the same
    instant, changes nothing more. *)
Theorem validateAndStoreExtractedData_idempotent
    (h : host) (now : Z) (extractedData : json) (a : agent) :
  has_schema a ->
  let a1 := state_after (validateAndStoreExtractedData h now extractedData a) a in
  state_after (validateAndStoreExtractedData h now extractedData a1) a1 = a1.
Proof.
  intros H. unfold validateAndStoreExtractedData.
  destruct (Object_entries extractedData) as [entries|];
    cbn [of_option bind state_after]; [|reflexivity].
  rewrite current_data_with_current_data.
  rewrite (store_entries_settled h now entries (current_data a)).
  - set (final := fold_left (store_entry h now) entries (current_data a)).
    rewrite <- (current_data_with_current_data final a) at 1.
    apply with_current_data_same.
  - apply schema_flags_present, H.
  - apply evolves_refl.
Qed.

Lemma validateAndStoreExtractedData_idempotent_witness :
  has_schema (new_agent 0)
  /\ state_after
       (validateAndStoreExtractedData strict_host 0 (JObj sample_entries) (new_agent 0))
       (new_agent 0) <> new_agent 0
  /\ (let a1 := state_after
                  (validateAndStoreExtractedData strict_host 0 (JObj sample_entries)
                                                 (new_agent 0))
                  (new_agent 0) in
      state_after (validateAndStoreExtractedData strict_host 0 (JObj sample_entries) a1) a1
      = a1).
Proof.
  split; [apply new_agent_has_schema|]. split; [vm_compute; discriminate|].
  apply (validateAndStoreExtractedData_idempotent strict_host 0 (JObj sample_entries)
           (new_agent 0) (new_agent_has_schema 0)).
Defined.

(** ** Batches *)

Import Batch.

Lemma chunk_loop_chunks {A : Type} (fuel i : nat) (l : list A) (chunks : list (list A)) :
  chunk_loop fuel i l chunks = (chunks ++ chunk_loop fuel i l [])%list.
Proof.
  revert i chunks; induction fuel as [|fuel IH]; intros i chunks; cbn [chunk_loop].
  - rewrite app_nil_r. reflexivity.
  - destruct (i <? length l)%nat; [|rewrite app_nil_r; reflexivity].
    rewrite (IH (i + 25)%nat (chunks ++ _)%list), (IH (i + 25)%nat ([] ++ _)%list).
    rewrite <- app_assoc. reflexivity.
Qed.

Lemma chunk_loop_step {A : Type} (fuel i : nat) (l : list A) :
  chunk_loop (S fuel) i l []
  = if (i <? length l)%nat
    then firstn 25 (skipn i l) :: chunk_loop fuel (i + 25) l []
    else [].
Proof.
  cbn [chunk_loop]. destruct (i <? length l)%nat; [|reflexivity].
  rewrite chunk_loop_chunks. unfold Array_slice.
  replace (i + 25 - i)%nat with 25%nat by lia. reflexivity.
Qed.

Lemma chunk_loop_done {A : Type} (fuel i : nat) (l : list A) :
  (length l <= i)%nat -> chunk_loop fuel i l [] = [].
Proof.
  intros H. destruct fuel; [reflexivity|].
  rewrite chunk_loop_step. destruct (Nat.ltb_spec i (length l)); [lia | reflexivity].
Qed.

(** With enough fuel the loop ends because its condition fails. *)
Lemma chunk_loop_fuel {A : Type} (fuel fuel' i : nat) (l : list A) :
  (length l - i <= fuel)%nat -> (length l - i <= fuel')%nat ->
  chunk_loop fuel i l [] = chunk_loop fuel' i l [].
Proof.
  revert fuel' i; induction fuel as [|fuel IH]; intros fuel' i H H'.
  - rewrite (chunk_loop_done fuel') by lia. reflexivity.
  - destruct fuel' as [|fuel'].
    + rewrite (chunk_loop_done (S fuel)) by lia. reflexivity.
    + rewrite !chunk_loop_step. destruct (i <? length l)%nat eqn:E; [|reflexivity].
      apply Nat.ltb_lt in E. f_equal. apply IH; lia.
Qed.

Lemma chunk_loop_spec {A : Type} (fuel i : nat) (l : list A) :
  (length l - i <= fuel)%nat ->
  let chunks := chunk_loop fuel i l [] in
  concat chunks = skipn i l
  /\ Forall (fun chunk => (1 <= length chunk <= 25)%nat) chunks
  /\ Forall (fun chunk => length chunk = 25%nat) (removelast chunks)
  /\ (25 * length chunks < length l - i + 25)%nat.
Proof.
  revert i; induction fuel as [|fuel IH]; intros i H.
  - cbn [chunk_loop concat removelast length].
    rewrite skipn_all2 by lia. repeat split; try constructor; lia.
  - cbv zeta. rewrite chunk_loop_step.
    destruct (Nat.ltb_spec i (length l)) as [Hlt|Hge].
    + destruct (IH (i + 25)%nat ltac:(lia)) as (C & F & R & N).
      assert (L : length (firstn 25 (skipn i l)) = Nat.min 25 (length l - i))
        by (rewrite length_firstn, length_skipn; reflexivity).
      repeat split.
      * cbn [concat]. rewrite C.
        rewrite <- (firstn_skipn 25 (skipn i l)) at 2.
        rewrite skipn_skipn, (Nat.add_comm 25 i). reflexivity.
      * constructor; [lia | exact F].
      * cbn [removelast].
        destruct (chunk_loop fuel (i + 25) l []) as [|c rest] eqn:E; [constructor|].
        constructor; [|exact R].
        cbn [length] in N. lia.
      * cbn [length]. lia.
    + cbn [concat removelast length]. rewrite skipn_all2 by lia.
      repeat split; try constructor; lia.
Qed.

(** X14: [batchSaveSessions] hands every session to [batchWrite] once
    and in order, in batches of 1 to 25 requests of which all but the
    last hold 25, and in as few batches as that allows; the loop ends
    by its own condition. *)
Theorem batchSaveSessions_chunks {A : Type} (sessions : list A) :
  let batches := batchSaveSessions sessions in
  concat batches = map PutRequest sessions
  /\ Forall (fun batch => (1 <= length batch <= 25)%nat) batches
  /\ Forall (fun batch => length batch = 25%nat) (removelast batches)
  /\ length batches = ((length sessions + 24) / 25)%nat
  /\ forall fuel, (length sessions <= fuel)%nat ->
       chunk_loop fuel 0 (map PutRequest sessions) [] = batches.
Proof.
  cbv zeta. unfold batchSaveSessions.
  set (l := map PutRequest sessions).
  assert (Hl : length l = length sessions) by apply length_map.
  destruct (chunk_loop_spec (length l) 0 l ltac:(lia)) as (C & F & R & N).
  repeat split; try assumption.
  - pose proof (f_equal (@length _) C) as Len.
    rewrite skipn_O in Len.
    assert (B : (length (concat (chunk_loop (length l) 0 l []))
                 <= 25 * length (chunk_loop (length l) 0 l []))%nat).
    { clear -F. induction F as [|c cs Hc _ IH]; cbn [concat length]; [lia|].
      rewrite length_app. lia. }
    rewrite Len in B. rewrite <- Hl.
    apply Nat.div_unique with (r := (length l + 24 - 25 * length (chunk_loop (length l) 0 l []))%nat); lia.
  - intros fuel Hf. apply chunk_loop_fuel; lia.
Qed.

Lemma batchSaveSessions_chunks_witness :
  map (@length _) (batchSaveSessions (seq 0 60)) = [25; 25; 10]%nat
  /\ concat (batchSaveSessions (seq 0 60)) = map PutRequest (seq 0 60).
Proof.
  split; [vm_compute; reflexivity|].
  pose proof (batchSaveSessions_chunks (seq 0 60)) as H. cbv zeta in H. apply H.
Defined.

(** ** The message handler *)

Import Summary MessageHandler.

Lemma isCurrentSectionComplete_data (a b : agent) :
  currentSection a = currentSection b -> current_data a = current_data b ->
  isCurrentSectionComplete a = isCurrentSectionComplete b.
Proof. intros Hs Hd. unfold isCurrentSectionComplete. rewrite Hs, Hd. reflexivity. Qed.

Lemma section_complete_data (s : section_name) (cd cd' : collected) :
  section_data s cd' = section_data s cd ->
  section_complete s cd -> section_complete s cd'.
Proof.
  unfold section_complete. intros E H. rewrite <- H.
  apply isCurrentSectionComplete_data; [reflexivity | exact E].
Qed.

Lemma getCompletionPercentage_data (a b : agent) :
  collectedData a = collectedData b ->
  getCompletionPercentage a = getCompletionPercentage b.
Proof. intros E. unfold getCompletionPercentage. rewrite E. reflexivity. Qed.

Lemma place_injective (s s' : section_name) : place s = place s' -> s = s'.
Proof. destruct s, s'; vm_compute; congruence. Qed.

Lemma caught_codes {B : Type} (status : option Z) :
  exists code message,
    @caught B status = errorResponse code message /\ In code [401; 429; 500].
Proof.
  unfold caught. destruct status as [n|].
  - destruct (n =? 401); [|destruct (n =? 429)]; eexists _, _;
      (split; [reflexivity | cbn [In]; tauto]).
  - eexists _, _. split; [reflexivity | cbn [In]; tauto].
Qed.

(** The two ways [sendMessage] ends. *)
Lemma sendMessage_cases (h : host) (now savedAt : Z) (extraction : completion)
    (chat : chat_outcome) (heading body : string) (t : table) :
  (exists code message,
      sendMessage h now savedAt extraction chat heading body t
      = (errorResponse code message, t)
      /\ In code [400; 401; 404; 429; 500])
  \/ (exists sid session botMessage agent1,
        sid <> ""
        /\ getChatSession sid t = Some session
        /\ updateCollectedDataWithLLM h now extraction (restore session) = Ok agent1
        /\ chat = ChatReplied botMessage
        /\ let agent2 := snd (advance agent1) in
           let complete := section_eqb (currentSection agent2) family
                           && isCurrentSectionComplete agent2 in
           sendMessage h now savedAt extraction chat heading body t
           = (successResponse 200
                (Reply sid botMessage (collectedData agent2)
                       (getCompletionPercentage agent2) (currentSection agent2)
                       (fst (advance agent1)) complete
                       (if complete then Some (getSummary heading agent2) else None)),
              saveChatSession savedAt sid agent2 t)).
Proof.
  assert (Herr : forall status,
             exists code message,
               (@caught reply status, t) = (errorResponse code message, t)
               /\ In code [400; 401; 404; 429; 500]).
  { intros status. destruct (@caught_codes reply status) as (code & message & -> & Hin).
    exists code, message. split; [reflexivity|]. cbn [In] in *. tauto. }
  unfold sendMessage.
  destruct (JSON_parse h body) as [parsed|]; [|left; apply Herr].
  destruct (property "sessionId" parsed) as [sessionId|]; [|left; apply Herr].
  destruct (property "message" parsed) as [message|]; [|left; apply Herr].
  destruct (negb (truthy sessionId) || negb (truthy message)) eqn:T.
  { left. eexists _, _. split; [reflexivity | cbn [In]; tauto]. }
  destruct sessionId as [[| | |sid| |]|]; try (left; apply Herr).
  assert (Hsid : sid <> "").
  { intros ->. discriminate T. }
  destruct (getChatSession sid t) as [session|] eqn:G.
  2:{ left. eexists _, _. split; [reflexivity | cbn [In]; tauto]. }
  fold (restore session).
  destruct (updateCollectedDataWithLLM h now extraction (restore session))
    as [agent1|e] eqn:U; [|left; apply Herr].
  destruct chat as [status|botMessage]; [left; apply Herr|].
  right. exists sid, session, botMessage, agent1.
  repeat split; try assumption; try reflexivity.
  cbv zeta. destruct (advance agent1) as [sectionComplete agent2]. reflexivity.
Qed.

(** X15: [sendMessage] answers with 400, 401, 404, 429 or 500 and
    leaves the table as it was, or it answers with 200 and writes one
    item, under the request's [sessionId], that holds the data, the
    section and the percentage of the answer; every other session is
    left as it was. *)
Theorem sendMessage_outcomes (h : host) (now savedAt : Z) (extraction : completion)
    (chat : chat_outcome) (heading body : string) (t : table) :
  match sendMessage h now savedAt extraction chat heading body t with
  | (errorResponse code _, t') =>
      In code [400; 401; 404; 429; 500] /\ t' = t
  | (successResponse code data, t') =>
      code = 200
      /\ getState (Some (r_sessionId data)) t'
         = successResponse 200
             (State (r_sessionId data) (r_collectedData data) (r_currentSection data)
                    (r_completionPercentage data) savedAt)
      /\ getChatSession (r_sessionId data) t <> None
      /\ forall other, other <> r_sessionId data ->
           getChatSession other t' = getChatSession other t
  end.
Proof.
  destruct (sendMessage_cases h now savedAt extraction chat heading body t)
    as [(code & message & -> & Hin)
       | (sid & session & botMessage & agent1 & Hsid & G & U & _ & E)].
  - split; [exact Hin | reflexivity].
  - cbv zeta in E. rewrite E. cbn [r_sessionId r_collectedData r_currentSection
                                   r_completionPercentage].
    repeat split.
    + unfold getState, missing, getChatSession, saveChatSession.
      destruct (String.eqb sid "") eqn:Es.
      * apply String.eqb_eq in Es. contradiction.
      * rewrite lookup_insert_eq. reflexivity.
    + rewrite G. discriminate.
    + intros other Hne. unfold getChatSession, saveChatSession.
      apply lookup_insert_ne. congruence.
Qed.

(** ** Conversations stay orderly *)

Lemma place_range (s : section_name) : 0 <= place s <= 3.
Proof. destruct s; vm_compute; split; discriminate. Qed.

Lemma new_collectedData_orderly (h : host) : orderly h initial_collectedData personal.
Proof.
  split.
  - intros s. reflexivity.
  - split; eexists; reflexivity.
  - split; intros v [= <-] Hv; contradiction.
  - intros s. apply (new_agent_well_stored h 0 s).
  - intros s Hs. pose proof (place_range s). change (place personal) with 0 in Hs. lia.
  - intros s _. reflexivity.
Qed.

Lemma store_orderly (h : host) (now : Z) (entries : list (string * json))
    (cd : collected) (current : section_name) :
  orderly h cd current ->
  orderly h (with_section_data current
               (fold_left (store_entry h now) entries (section_data current cd)) cd)
          current.
Proof.
  intros [Hs Hb Hf Hw Hbefore Hafter].
  set (o := fold_left (store_entry h now) entries (section_data current cd)).
  assert (Hother : forall s, s <> current ->
             section_data s (with_section_data current o cd) = section_data s cd).
  { intros s Hne. apply section_data_with_other. exact Hne. }
  split.
  - pose proof (with_current_data_grows (MkAgent cd current None) o Hs) as G.
    unfold current_data in G. cbn [collectedData currentSection] in G.
    destruct G as [G _].
    + apply store_entries_evolve. apply (schema_flags_present _ current Hs).
    + exact G.
  - destruct (section_name_eq_dec current personal) as [->|Hne].
    + cbn [with_section_data personal_data]. apply store_entries_flags. split; assumption.
    + change (personal_data ?x) with (section_data personal x).
      rewrite Hother by congruence. exact Hb.
  - destruct (section_name_eq_dec current personal) as [->|Hne].
    + cbn [with_section_data personal_data]. apply store_entries_flags. split; assumption.
    + change (personal_data ?x) with (section_data personal x).
      rewrite Hother by congruence. exact Hf.
  - intros s. destruct (section_name_eq_dec s current) as [->|Hne].
    + rewrite section_data_with_same. apply store_entries_well_stored, Hw.
    + rewrite Hother by exact Hne. apply Hw.
  - intros s Hlt. apply (section_complete_data s cd); [|apply Hbefore, Hlt].
    apply Hother. intros ->. lia.
  - intros s Hlt. unfold untouched. rewrite Hother by (intros ->; lia).
    apply Hafter, Hlt.
Qed.

(** What the extraction step of the handler does to an orderly
    conversation. *)
Lemma update_orderly (h : host) (now : Z) (reply : completion)
    (cd : collected) (current : section_name) :
  orderly h cd current ->
  exists cd',
    updateCollectedDataWithLLM h now reply (MkAgent cd current None)
    = Ok (MkAgent cd' current None)
    /\ orderly h cd' current
    /\ grows (MkAgent cd current None) (MkAgent cd' current None)
    /\ forall s, s <> current -> section_data s cd' = section_data s cd.
Proof.
  intros O.
  destruct (updateWithLLM_cases h now reply (MkAgent cd current None))
    as [E | (j & a' & V & E)]; rewrite E.
  - exists cd. split; [reflexivity|]. split; [exact O|].
    split; [apply grows_refl, (or_schema _ _ _ O) | reflexivity].
  - pose proof (validateAndStore_grows h now j _ (or_schema _ _ _ O)) as G.
    rewrite V in G. cbn [state_after] in G.
    unfold validateAndStoreExtractedData in V.
    destruct (Object_entries j) as [entries|]; [|discriminate V].
    cbn [of_option bind] in V. injection V as <-.
    unfold with_current_data, current_data in *.
    cbn [collectedData currentSection createdAt] in *.
    eexists. split; [reflexivity|]. split; [apply store_orderly, O|].
    split; [exact G|].
    intros s Hs. apply section_data_with_other. exact Hs.
Qed.

Lemma moveToNextSection_next (cd : collected) (current : section_name) :
  current <> family ->
  exists next,
    moveToNextSection (MkAgent cd current None) = (true, MkAgent cd next None)
    /\ place next = place current + 1.
Proof.
  intros H. destruct current; try contradiction; eexists; split; reflexivity.
Qed.

(** What the section step of the handler does to an orderly
    conversation. *)
Lemma advance_orderly (h : host) (cd : collected) (current : section_name) :
  orderly h cd current ->
  exists next,
    snd (advance (MkAgent cd current None)) = MkAgent cd next None
    /\ orderly h cd next
    /\ ((fst (advance (MkAgent cd current None)) = true
         /\ place next = place current + 1
         /\ section_complete current cd)
        \/ (fst (advance (MkAgent cd current None)) = false
            /\ next = current
            /\ (section_complete current cd -> current = family))).
Proof.
  intros O. unfold advance. cbn [currentSection].
  destruct (isCurrentSectionComplete (MkAgent cd current None)) eqn:C; cbn [andb].
  - destruct (section_eqb current family) eqn:F; cbn [negb].
    + exists current. split; [reflexivity|]. split; [exact O|]. right.
      repeat split. intros _. destruct current; try discriminate F; reflexivity.
    + assert (Hne : current <> family) by (intros ->; discriminate F).
      destruct (moveToNextSection_next cd current Hne) as (next & -> & P).
      exists next. cbn [fst snd]. split; [reflexivity|]. split.
      * destruct O as [Hs Hb Hf Hw Hbefore Hafter]. split; try assumption.
        -- intros s Hlt. destruct (Z.eq_dec (place s) (place current)) as [E|E].
           ++ apply place_injective in E. subst s. exact C.
           ++ apply Hbefore. lia.
        -- intros s Hlt. apply Hafter. lia.
      * left. repeat split; [exact P | exact C].
  - exists current. split; [reflexivity|]. split; [exact O|]. right.
    repeat split. unfold section_complete. rewrite C. discriminate.
Qed.

Lemma saved_session_ok (h : host) (savedAt : Z) (sid : string)
    (cd : collected) (current : section_name) (created : option Z) (t : table) :
  orderly h cd current -> table_ok h t ->
  table_ok h (saveChatSession savedAt sid (MkAgent cd current created) t).
Proof.
  intros O T key it. unfold saveChatSession.
  destruct (String.eqb_spec key sid) as [->|Hne].
  - rewrite lookup_insert_eq. intros [= <-].
    split; [reflexivity|]. split.
    { cbn [item_expiresAt item_updatedAt]. Z.div_mod_to_equations. lia. }
    split; [|exact O].
    apply getCompletionPercentage_data. reflexivity.
  - rewrite lookup_insert_ne by congruence. apply T.
Qed.

Lemma deleteChatSession_ok (h : host) (sid : string) (t : table) :
  table_ok h t -> table_ok h (deleteChatSession sid t).
Proof.
  intros T key it. unfold deleteChatSession. intros H.
  apply lookup_delete_Some in H as [_ H]. apply (T _ _ H).
Qed.

(** What a successful [sendMessage] does to the session of an orderly
    table. *)
Lemma sendMessage_step (h : host) (now savedAt : Z) (extraction : completion)
    (chat : chat_outcome) (heading body : string) (t : table)
    (code : Z) (data : reply) (t' : table) :
  table_ok h t ->
  sendMessage h now savedAt extraction chat heading body t
  = (successResponse code data, t') ->
  exists session cd',
    getChatSession (r_sessionId data) t = Some session
    /\ orderly h cd' (item_currentSection session)
    /\ grows (restore session) (MkAgent cd' (item_currentSection session) None)
    /\ (forall s, s <> item_currentSection session ->
          section_data s cd' = section_data s (item_collectedData session))
    /\ r_collectedData data = cd'
    /\ orderly h cd' (r_currentSection data)
    /\ r_completionPercentage data
       = getCompletionPercentage (MkAgent cd' (r_currentSection data) None)
    /\ r_applicationComplete data
       = section_eqb (r_currentSection data) family
         && isCurrentSectionComplete (MkAgent cd' (r_currentSection data) None)
    /\ r_summary data
       = (if r_applicationComplete data
          then Some (getSummary heading (MkAgent cd' (r_currentSection data) None))
          else None)
    /\ t' = saveChatSession savedAt (r_sessionId data)
              (MkAgent cd' (r_currentSection data) None) t
    /\ ((r_sectionComplete data = true
         /\ place (r_currentSection data) = place (item_currentSection session) + 1
         /\ section_complete (item_currentSection session) cd')
        \/ (r_sectionComplete data = false
            /\ r_currentSection data = item_currentSection session
            /\ (section_complete (item_currentSection session) cd'
                -> item_currentSection session = family))).
Proof.
  intros T E.
  destruct (sendMessage_cases h now savedAt extraction chat heading body t)
    as [(c & m & E' & _) | (sid & session & botMessage & agent1 & _ & G & U & _ & E')].
  { rewrite E' in E. discriminate E. }
  cbv zeta in E'. rewrite E' in E. clear E'.
  destruct (T _ _ G) as (_ & _ & _ & O).
  destruct (update_orderly h now extraction _ _ O) as (cd' & U' & O' & Gr & Fr).
  unfold restore, restored_agent in U. rewrite U' in U. injection U as <-.
  destruct (advance_orderly h cd' _ O') as (next & A & On & Hadv).
  rewrite A in E. cbn [collectedData currentSection] in E.
  injection E as <- <- <-.
  cbn [r_sessionId r_collectedData r_currentSection r_completionPercentage
       r_applicationComplete r_summary r_sectionComplete].
  exists session, cd'.
  split; [exact G|]. split; [exact O'|]. split; [exact Gr|]. split; [exact Fr|].
  split; [reflexivity|]. split; [exact On|]. split; [reflexivity|]. split; [reflexivity|].
  split; [reflexivity|]. split; [reflexivity|]. exact Hadv.
Qed.

Lemma serve_ok (h : host) (t : table) (req : request) :
  table_ok h t -> table_ok h (serve h t req).
Proof.
  intros T. destruct req as [uuid now | now path | now savedAt extraction chat heading body];
    cbn [serve].
  - unfold initializeChat. cbn [snd]. unfold new_agent.
    apply saved_session_ok; [apply new_collectedData_orderly | exact T].
  - unfold resetChat. destruct path as [sid|]; [|exact T].
    destruct (missing (Some sid)); [exact T|]. cbn [snd]. unfold new_agent.
    apply saved_session_ok; [apply new_collectedData_orderly|].
    apply deleteChatSession_ok, T.
  - destruct (sendMessage h now savedAt extraction chat heading body t)
      as [[code data | code message] t'] eqn:E; cbn [snd].
    + destruct (sendMessage_step h now savedAt extraction chat heading body t
                  code data t' T E)
        as (session & cd' & _ & _ & _ & _ & _ & O & _ & _ & _ & -> & _).
      apply saved_session_ok; [exact O | exact T].
    + destruct (sendMessage_cases h now savedAt extraction chat heading body t)
        as [(c & m & E' & _) | (sid & session & botMessage & agent1 & _ & _ & _ & _ & E')].
      * rewrite E' in E. injection E as _ _ <-. exact T.
      * cbv zeta in E'. rewrite E' in E. discriminate E.
Qed.

Lemma serve_all_ok (h : host) (requests : list request) (t : table) :
  table_ok h t -> table_ok h (fold_left (serve h) requests t).
Proof.
  revert t; induction requests as [|req requests IH]; intros t T; cbn [fold_left].
  - exact T.
  - apply IH, serve_ok, T.
Qed.

Lemma empty_table_ok (h : host) : table_ok h ∅.
Proof. intros key it H. rewrite lookup_empty in H. discriminate H. Qed.



(** ** A completed application *)

Lemma keys_cons (o : object) (k : string) (ks : list string) :
  Object_keys o = k :: ks ->
  exists v o', o = (k, v) :: o' /\ Object_keys o' = ks.
Proof.
  destruct o as [|[k0 v0] o']; [discriminate|].
  unfold Object_keys. cbn [map fst]. intros [= -> E]. eauto.
Qed.

Lemma keys_nil (o : object) : Object_keys o = [] -> o = [].
Proof. destruct o; [reflexivity | discriminate]. Qed.

Lemma personal_complete_count (cd : collected) :
  Object_keys (personal_data cd) = Object_keys (personal_data initial_collectedData) ->
  section_complete personal cd ->
  completed_count (personal_data cd)
  = if not_null (obj_get "middleName" (personal_data cd)) then 9 else 8.
Proof.
  destruct cd as [p e pr f]. cbn [personal_data]. intros K.
  change (Object_keys (personal_data initial_collectedData))
    with ["firstName"; "middleName"; "lastName"; "email"; "emailConfirmed";
          "phoneNumber"; "dateOfBirth"; "dobConfirmed"; "nationality"] in K.
  apply keys_cons in K as (v1 & p1 & -> & K).
  apply keys_cons in K as (v2 & p2 & -> & K).
  apply keys_cons in K as (v3 & p3 & -> & K).
  apply keys_cons in K as (v4 & p4 & -> & K).
  apply keys_cons in K as (v5 & p5 & -> & K).
  apply keys_cons in K as (v6 & p6 & -> & K).
  apply keys_cons in K as (v7 & p7 & -> & K).
  apply keys_cons in K as (v8 & p8 & -> & K).
  apply keys_cons in K as (v9 & p9 & -> & K).
  apply keys_nil in K. subst p9.
  unfold section_complete, isCurrentSectionComplete, current_data.
  cbn [currentSection collectedData section_data personal_data section_eqb].
  change (obj_get "firstName" _) with (Some v1).
  change (obj_get "middleName" _) with (Some v2).
  change (obj_get "lastName" _) with (Some v3).
  change (obj_get "email" _) with (Some v4).
  change (obj_get "emailConfirmed" _) with (Some v5).
  change (obj_get "phoneNumber" _) with (Some v6).
  change (obj_get "dateOfBirth" _) with (Some v7).
  change (obj_get "dobConfirmed" _) with (Some v8).
  change (obj_get "nationality" _) with (Some v9).
  rewrite !andb_true_iff.
  intros (((((((H1 & H3) & H4) & H5) & H6) & H7) & H8) & H9).
  apply is_true_true in H5, H8. injection H5 as ->. injection H8 as ->.
  rewrite !completed_count_cons, H1, H3, H4, H6, H7, H9. cbn [not_null].
  change (completed_count []) with 0.
  destruct v2; reflexivity.
Qed.

Lemma plain_complete_count (s : section_name) (cd : collected) :
  s <> personal ->
  Object_keys (section_data s cd) = Object_keys (section_data s initial_collectedData) ->
  section_complete s cd ->
  completed_count (section_data s cd)
  = field_count (section_data s initial_collectedData).
Proof.
  intros Hs K C.
  rewrite <- (field_count_keys _ _ K). apply completed_count_full.
  intros k Hin.
  unfold section_complete, isCurrentSectionComplete, current_data in C.
  cbn [currentSection collectedData] in C.
  assert (E : section_eqb s personal = false) by (destruct s; try reflexivity; contradiction).
  rewrite E in C. rewrite forallb_forall in C.
  specialize (C _ Hin). cbn beta iota in C.
  assert (Hk : In k (Object_keys (section_data s cd))).
  { unfold Object_keys. apply (in_map fst) in Hin. exact Hin. }
  rewrite K in Hk.
  assert (N : forallb (fun key => negb (includes "Confirmed" key))
                      (Object_keys (section_data s initial_collectedData)) = true)
    by (destruct s; [contradiction | reflexivity ..]).
  rewrite forallb_forall in N. specialize (N k Hk).
  apply negb_true_iff in N. rewrite N in C. discriminate C.
Qed.

Lemma untouched_family_incomplete (cd : collected) :
  untouched family cd -> isCurrentSectionComplete (MkAgent cd family None) = false.
Proof.
  unfold untouched, isCurrentSectionComplete, current_data.
  cbn [currentSection collectedData section_eqb]. intros ->. reflexivity.
Qed.

(** X17: when [sendMessage], in a conversation served since the table
    was empty, reports the application complete, then the current
    section is the last one, no section was left in this very message,
    every section passes [isCurrentSectionComplete], the percentage is
    95 or 100, and it is 100 exactly when a middle name was given. *)
Theorem sendMessage_applicationComplete
    (h : host) (requests : list request) (now savedAt : Z) (extraction : completion)
    (chat : chat_outcome) (heading body : string)
    (code : Z) (data : reply) (t' : table) :
  sendMessage h now savedAt extraction chat heading body (served h requests)
  = (successResponse code data, t') ->
  r_applicationComplete data = true ->
  r_currentSection data = family
  /\ r_sectionComplete data = false
  /\ (forall s, section_complete s (r_collectedData data))
  /\ (r_completionPercentage data = Some 95 \/ r_completionPercentage data = Some 100)
  /\ (r_completionPercentage data = Some 100
      <-> obj_get "middleName" (personal_data (r_collectedData data)) <> Some VNull)
  /\ r_summary data
     = Some (getSummary heading (MkAgent (r_collectedData data) family None)).
Proof.
  intros E A.
  destruct (sendMessage_step h now savedAt extraction chat heading body _ code data t'
              (serve_all_ok h requests _ (empty_table_ok h)) E)
    as (session & cd' & G & O' & Gr & Fr & Ecd & On & Ep & Ea & Es & Et & Hadv).
  rewrite A in Ea, Es. symmetry in Ea. apply andb_true_iff in Ea as [Ef Ec].
  assert (Hnext : r_currentSection data = family).
  { destruct (r_currentSection data); try discriminate Ef; reflexivity. }
  rewrite Hnext in *. rewrite Ecd.
  assert (Hall : forall s, section_complete s cd').
  { intros s. destruct (Z.eq_dec (place s) (place family)) as [P|P].
    - apply place_injective in P. subst s. exact Ec.
    - apply (or_before _ _ _ On). pose proof (place_range s).
      change (place family) with 3 in *. lia. }
  split; [reflexivity|]. split.
  { destruct Hadv as [(_ & P & _) | (Hf & _)]; [|exact Hf].
    exfalso.
    assert (Hc : item_currentSection session = professional).
    { apply place_injective. change (place family) with 3 in P.
      change (place professional) with 2. lia. }
    rewrite Hc in O'.
    pose proof (or_after _ _ _ O' family ltac:(vm_compute; reflexivity)) as U.
    rewrite (untouched_family_incomplete cd' U) in Ec. discriminate Ec. }
  split; [exact Hall|].
  pose proof (or_schema _ _ _ On) as S.
  destruct (schema_percentage _ S) as [_ Pc]. cbn [collectedData] in Pc.
  rewrite Ep, Pc.
  rewrite (personal_complete_count cd' (S personal) (Hall personal)).
  pose proof (plain_complete_count educational cd' ltac:(discriminate)
                (S educational) (Hall educational)) as C2.
  pose proof (plain_complete_count professional cd' ltac:(discriminate)
                (S professional) (Hall professional)) as C3.
  pose proof (plain_complete_count family cd' ltac:(discriminate)
                (S family) (Hall family)) as C4.
  cbn [section_data] in C2, C3, C4. rewrite C2, C3, C4.
  change (field_count (educational_data initial_collectedData)) with 4.
  change (field_count (professional_data initial_collectedData)) with 5.
  change (field_count (family_data initial_collectedData)) with 4.
  rewrite <- not_null_true.
  destruct (not_null (obj_get "middleName" (personal_data cd'))).
  - change (round_percent (9 + 4 + 5 + 4) 22) with 100.
    split; [right; reflexivity|]. split; [tauto | exact Es].
  - change (round_percent (8 + 4 + 5 + 4) 22) with 95.
    split; [left; reflexivity|]. split; [|exact Es].
    split; [discriminate | discriminate].
Qed.

Lemma sendMessage_applicationComplete_witness :
  exists t',
    sendMessage sample_host 1700000000000 1700000000500 (Completed "family")
                (ChatReplied "Thank you.") "Application Summary" "send"
                (served sample_host sample_requests)
    = (successResponse 200 sample_reply, t')
    /\ r_applicationComplete sample_reply = true
    /\ r_completionPercentage sample_reply = Some 95
    /\ r_sectionComplete sample_reply = false
    /\ forall s, section_complete s (r_collectedData sample_reply).
Proof.
  exists (snd (sendMessage sample_host 1700000000000 1700000000500 (Completed "family")
                           (ChatReplied "Thank you.") "Application Summary" "send"
                           (served sample_host sample_requests))).
  assert (E : sendMessage sample_host 1700000000000 1700000000500 (Completed "family")
                (ChatReplied "Thank you.") "Application Summary" "send"
                (served sample_host sample_requests)
              = (successResponse 200 sample_reply,
                 snd (sendMessage sample_host 1700000000000 1700000000500
                        (Completed "family") (ChatReplied "Thank you.")
                        "Application Summary" "send"
                        (served sample_host sample_requests))))
    by (vm_compute; reflexivity).
  split; [exact E|]. split; [reflexivity|]. split; [reflexivity|].
  destruct (sendMessage_applicationComplete sample_host sample_requests _ _ _ _ _ _ _ _ _
              E eq_refl) as (_ & Hs & Hall & _).
  split; [exact Hs | exact Hall].
Defined.

(** ** One message *)

(** X18: a message answered with 200, in a conversation served since
    the table was empty, never lowers the percentage of its session
    and clears no field; it changes the data of the current section
    only; and it leaves that section, for the next one, exactly when
    the section is complete and is not the last. *)
Theorem sendMessage_progress
    (h : host) (requests : list request) (now savedAt : Z) (extraction : completion)
    (chat : chat_outcome) (heading body : string)
    (code : Z) (data : reply) (t' : table) :
  sendMessage h now savedAt extraction chat heading body (served h requests)
  = (successResponse code data, t') ->
  exists session,
    getChatSession (r_sessionId data) (served h requests) = Some session
    /\ percent_le (item_completionPercentage session) (r_completionPercentage data)
    /\ nothing_cleared (item_collectedData session) (r_collectedData data)
    /\ (forall s, s <> item_currentSection session ->
          section_data s (r_collectedData data)
          = section_data s (item_collectedData session))
    /\ (r_sectionComplete data = true
        <-> section_complete (item_currentSection session) (r_collectedData data)
            /\ item_currentSection session <> family)
    /\ place (r_currentSection data)
       = place (item_currentSection session)
         + (if r_sectionComplete data then 1 else 0).
Proof.
  intros E.
  pose proof (serve_all_ok h requests _ (empty_table_ok h)) as T.
  fold (served h requests) in T.
  destruct (sendMessage_step h now savedAt extraction chat heading body _ code data t' T E)
    as (session & cd' & G & O' & Gr & Fr & Ecd & On & Ep & Ea & Es & Et & Hadv).
  exists session. split; [exact G|].
  destruct (T _ _ G) as (_ & _ & Ip & O).
  rewrite Ecd. split.
  { rewrite Ip, Ep.
    rewrite (getCompletionPercentage_data
               (MkAgent cd' (r_currentSection data) None)
               (MkAgent cd' (item_currentSection session) None) eq_refl).
    apply grows_percentage; [apply (or_schema _ _ _ O) | exact Gr]. }
  split; [apply (grows_nothing_cleared _ _ Gr)|].
  split; [exact Fr|].
  destruct Hadv as [(Hs & P & C) | (Hs & Hc & C)]; rewrite Hs.
  - split; [|lia]. split; [|reflexivity]. intros _. split; [exact C|].
    intros F. rewrite F in P. pose proof (place_range (r_currentSection data)).
    change (place family) with 3 in P. lia.
  - rewrite Hc. split; [|lia]. split; [discriminate|].
    intros [C' F]. contradiction (F (C C')).
Qed.

Lemma sendMessage_progress_witness :
  exists data t',
    sendMessage sample_host 1700000000000 1700000000500 (Completed "personal")
                (ChatReplied "Thank you.") "Application Summary" "send"
                (served sample_host [Initialize "s1" 1700000000000])
    = (successResponse 200 data, t')
    /\ r_sectionComplete data = true
    /\ r_currentSection data = educational
    /\ r_completionPercentage data = Some 36
    /\ exists session,
         getChatSession (r_sessionId data)
                        (served sample_host [Initialize "s1" 1700000000000])
         = Some session
         /\ percent_le (item_completionPercentage session) (r_completionPercentage data).
Proof.
  set (out := sendMessage sample_host 1700000000000 1700000000500 (Completed "personal")
                (ChatReplied "Thank you.") "Application Summary" "send"
                (served sample_host [Initialize "s1" 1700000000000])).
  set (data := match fst out with
               | successResponse _ d => d
               | errorResponse _ _ => sample_reply
               end).
  assert (E : out = (successResponse 200 data, snd out)) by (vm_compute; reflexivity).
  exists data, (snd out). split; [exact E|].
  split; [vm_compute; reflexivity|]. split; [vm_compute; reflexivity|].
  split; [vm_compute; reflexivity|].
  destruct (sendMessage_progress sample_host [Initialize "s1" 1700000000000]
              _ _ _ _ _ _ _ _ _ E) as (session & G & P & _).
  exists session. split; [exact G | exact P].
Defined.

(** ** Reset *)


(** ** The missing fields shown to the model *)

(** X20: between calls [getMissingFields] never lists a confirmation
    flag, so the filter that [getSystemPrompt] applies to it removes
    nothing. *)
Theorem getMissingFields_lists_no_flag (h : host) (a : agent) :
  reachable h a ->
  List.filter (fun f => negb (includes "Confirmed" f)) (getMissingFields a)
  = getMissingFields a.
Proof.
  intros R.
  pose proof (reachable_has_schema h a R (currentSection a)) as K.
  fold (current_data a) in K.
  destruct (reachable_flags h a R) as [[[b1 B1] [b2 B2]] _].
  assert (G : forall k, In k (getMissingFields a) -> includes "Confirmed" k = false).
  { intros k Hk. apply missing_field in Hk as [Hin Hnull].
    rewrite K in Hin. unfold current_data in *.
    destruct (currentSection a); cbn [section_data] in *;
      vm_compute in Hin;
      repeat (destruct Hin as [<- | Hin]; [try reflexivity|]); try contradiction.
    - rewrite B1 in Hnull. discriminate Hnull.
    - rewrite B2 in Hnull. discriminate Hnull. }
  induction (getMissingFields a) as [|k l IH]; [reflexivity|].
  cbn [List.filter]. rewrite (G k (or_introl eq_refl)). cbn [negb].
  f_equal. apply IH. intros k' Hk'. apply G. right. exact Hk'.
Qed.

Lemma getMissingFields_lists_no_flag_witness :
  reachable strict_host filled_personal
  /\ getMissingFields filled_personal = ["middleName"]
  /\ List.filter (fun f => negb (includes "Confirmed" f)) (getMissingFields filled_personal)
     = getMissingFields filled_personal.
Proof.
  assert (R : reachable strict_host filled_personal)
    by (unfold filled_personal; apply reachable_store, reachable_new).
  split; [exact R|]. split; [vm_compute; reflexivity|].
  apply (getMissingFields_lists_no_flag strict_host filled_personal R).
Defined.

(** ** Labels of the summary *)

Lemma filter_drop_spaces (l : list ascii) :
  List.filter (fun c => negb (is_space c)) (drop_while is_space l)
  = List.filter (fun c => negb (is_space c)) l.
Proof.
  induction l as [|c l IH]; [reflexivity|].
  cbn [drop_while List.filter]. destruct (is_space c) eqn:E; cbn [negb].
  - exact IH.
  - cbn [List.filter]. rewrite E. reflexivity.
Qed.

Lemma filter_reverse {A : Type} (f : A -> bool) (l : list A) :
  List.filter f (rev l) = rev (List.filter f l).
Proof.
  induction l as [|x l IH]; [reflexivity|].
  cbn [rev List.filter]. rewrite List.filter_app, IH. cbn [List.filter].
  destruct (f x); [reflexivity | apply app_nil_r].
Qed.

Lemma remove_spaces_trim (s : string) :
  remove_all is_space (trim s) = remove_all is_space s.
Proof.
  unfold remove_all, trim. rewrite chars_of_chars.
  rewrite filter_reverse, filter_drop_spaces, filter_reverse, rev_involutive,
    filter_drop_spaces.
  reflexivity.
Qed.

(** X21: the label that [getSummary] prints for a key without white
    space is the key with a space put before each capital letter:
    taking the spaces out again gives the key, so two keys never share
    a label. *)
Theorem label_keeps_key (key : string) :
  forallb (fun c => negb (is_space c)) (chars key) = true ->
  remove_all is_space (label key) = key.
Proof.
  intros H. unfold label. rewrite remove_spaces_trim.
  unfold remove_all, space_capitals. rewrite chars_of_chars.
  rewrite <- (of_chars_chars key) at 2. f_equal.
  induction (chars key) as [|c l IH]; [reflexivity|].
  cbn [forallb] in H. apply andb_true_iff in H as [Hc Hl].
  cbn [flat_map]. rewrite List.filter_app, (IH Hl).
  destruct (in_range "A" "Z" c); cbn [List.filter app]; rewrite Hc; reflexivity.
Qed.

Lemma label_keeps_key_witness :
  label "dateOfBirth" = "date Of Birth"
  /\ remove_all is_space (label "dateOfBirth") = "dateOfBirth".
Proof.
  split; [vm_compute; reflexivity|].
  apply (label_keeps_key "dateOfBirth"). vm_compute. reflexivity.
Defined.

(** ** The braces of the extracted text *)

Lemma drop_while_keeps (p : ascii -> bool) (l1 l2 : list ascii) (c : ascii) :
  p c = false ->
  exists l1', drop_while p (l1 ++ c :: l2) = (l1' ++ c :: l2)%list.
Proof.
  intros Hc. induction l1 as [|x l1 IH]; cbn [app drop_while].
  - rewrite Hc. exists []. reflexivity.
  - destruct (p x); [exact IH|]. exists (x :: l1). reflexivity.
Qed.

(** X22: the fallback of [updateCollectedDataWithLLM] for a text that
    does not parse takes the part from the first opening brace to the
    last closing brace, and finds nothing exactly when no opening
    brace has a closing brace after it. *)
Theorem match_braces_spec (text : string) :
  match match_braces text with
  | Some m => braced text m
  | None => no_braces text
  end.
Proof.
  unfold match_braces.
  set (p1 := fun c => negb (Ascii.eqb c "{")).
  set (p2 := fun c => negb (Ascii.eqb c "}")).
  destruct (take_drop_while p1 (chars text)) as (E1 & Hb1 & Hf1).
  set (fo := drop_while p1 (chars text)) in *.
  destruct (take_drop_while p2 (rev fo)) as (E2 & Hb2 & Hf2).
  set (tw := take_while p2 (rev fo)) in *.
  destruct (drop_while p2 (rev fo)) as [|c r] eqn:D.
  - intros (pre & inner & post & E).
    rewrite app_nil_r in E2. rewrite <- E2, forallb_reverse in Hb2.
    destruct (drop_while_keeps p1 pre (inner ++ "}"%char :: post) "{"%char eq_refl)
      as [l1' K].
    fold fo in K. rewrite <- E in K. fold fo in K.
    rewrite K in Hb2. rewrite forallb_app in Hb2.
    apply andb_true_iff in Hb2 as [_ Hb2]. cbn [forallb] in Hb2.
    apply andb_true_iff in Hb2 as [_ Hb2]. rewrite forallb_app in Hb2.
    apply andb_true_iff in Hb2 as [_ Hb2]. cbn [forallb] in Hb2.
    discriminate Hb2.
  - assert (Hc : c = "}"%char).
    { unfold p2 in Hf2. apply negb_false_iff, Ascii.eqb_eq in Hf2. exact Hf2. }
    subst c.
    assert (Efo : fo = ((rev r ++ ["}"%char]) ++ rev tw)%list).
    { rewrite <- (rev_involutive fo). rewrite E2, rev_app_distr. reflexivity. }
    destruct (rev r) as [|c0 inner] eqn:R.
    + exfalso. rewrite Efo in Hf1. cbn [app] in Hf1. discriminate Hf1.
    + assert (Hc0 : c0 = "{"%char).
      { rewrite Efo in Hf1. cbn [app] in Hf1.
        unfold p1 in Hf1. apply negb_false_iff, Ascii.eqb_eq in Hf1. exact Hf1. }
      subst c0.
      exists (take_while p1 (chars text)), inner, (rev tw).
      rewrite chars_of_chars. cbn [rev]. rewrite R.
      split; [rewrite E1 at 1; rewrite Efo; reflexivity|].
      split; [reflexivity|].
      split; [exact Hb1|]. rewrite forallb_reverse. exact Hb2.
Qed.

(** ** The eighteenth birthday *)



(** ** The state of a session *)

